(** * ConversaTrait: lexical classifier, risk assessor and session orchestrator

    A shallow embedding of the client-side logic of the repository:

    - [ContentClassifier]   (keyword / regex scoring with an in-memory cache),
    - [InterventionManager] (crisis patterns, context exclusions, concerns),
    - [APIService]          (HTTP retry loop, WebSocket callback registries),
    - [AppContainer]        (the React component that drives one analysis).

    Conventions of the embedding.

    - A JavaScript string is a [string] of 8-bit code units; the patterns and
      tables of the program are plain ASCII.
    - A JavaScript number is the rational it denotes ([Q]).  The scores of
      the classifier, which the program compares with each other to rank the
      categories, are computed as the program computes them, in binary64:
      every operation rounds to the nearest representable number, ties to
      even ([JS.double]).  The severities of the risk assessor and the
      averages of the metrics are kept as exact quotients; a quotient whose
      divisor can be zero is a [jsnum], which has [NaN] and the infinities.
    - [Date.now()], [Math.random()] and the network are inputs of the
      functions that read them.
    - Logging ([console.log] and friends) has no effect on any value and is
      left out. *)

From Stdlib Require Import Ascii String QArith Qminmax Qround Lqa.
From Stdlib Require Import PrimFloat SpecFloat FloatOps Uint63.
From stdpp Require Import gmap strings list fin_maps.

Local Open Scope string_scope.
Local Open Scope list_scope.

(** ** Characters and strings as JavaScript sees them *)

Module JS.

Definition code (c : ascii) : N := N_of_ascii c.

(** [\w] of a regular expression without the [u] flag: [A-Za-z0-9_]. *)
Definition is_word_char (c : ascii) : bool :=
  let n := code c in
  ((65 <=? n) && (n <=? 90) || (97 <=? n) && (n <=? 122)
   || (48 <=? n) && (n <=? 57) || (n =? 95))%N.

(** [\s], restricted to 8-bit code units: TAB, LF, VT, FF, CR, SP, NBSP. *)
Definition is_space (c : ascii) : bool :=
  let n := code c in
  ((9 <=? n) && (n <=? 13) || (n =? 32) || (n =? 160))%N.

(** Line terminators, which [.] does not match. *)
Definition is_line_terminator (c : ascii) : bool :=
  let n := code c in ((n =? 10) || (n =? 13))%N.

(** [String.prototype.toLowerCase] on one code unit (ASCII and Latin-1). *)
Definition lower_char (c : ascii) : ascii :=
  let n := code c in
  if ((65 <=? n) && (n <=? 90))%N then ascii_of_N (n + 32)
  else if ((192 <=? n) && (n <=? 222) && negb (n =? 215))%N then ascii_of_N (n + 32)
  else c.

(** Canonicalisation used by the [i] flag: only ASCII letters are folded
    onto ASCII letters. *)
Definition fold_char (c : ascii) : ascii :=
  let n := code c in
  if ((97 <=? n) && (n <=? 122))%N then ascii_of_N (n - 32) else c.

Definition char_eqb (ignoreCase : bool) (a b : ascii) : bool :=
  if ignoreCase then Ascii.eqb (fold_char a) (fold_char b) else Ascii.eqb a b.

Fixpoint toLowerCase (s : string) : string :=
  match s with
  | EmptyString => EmptyString
  | String c s' => String (lower_char c) (toLowerCase s')
  end.

Fixpoint rev_append (s acc : string) : string :=
  match s with
  | EmptyString => acc
  | String c s' => rev_append s' (String c acc)
  end.

Definition rev (s : string) : string := rev_append s EmptyString.

Fixpoint trimStart (s : string) : string :=
  match s with
  | EmptyString => EmptyString
  | String c s' => if is_space c then trimStart s' else s
  end.

Definition trimEnd (s : string) : string := rev (trimStart (rev s)).

(** [String.prototype.trim]. *)
Definition trim (s : string) : string := trimEnd (trimStart s).

(** [s.replace(/\s+/g, ' ')]: every maximal run of white space becomes one
    space. *)
Fixpoint collapse_spaces (in_run : bool) (s : string) : string :=
  match s with
  | EmptyString => EmptyString
  | String c s' =>
      if is_space c
      then (if in_run then collapse_spaces true s'
            else String " " (collapse_spaces true s'))
      else String c (collapse_spaces false s')
  end.

(** [s.slice(0, n)]. *)
Fixpoint slice0 (n : nat) (s : string) : string :=
  match n, s with
  | S n', String c s' => String c (slice0 n' s')
  | _, _ => EmptyString
  end.

Fixpoint startsWith (p s : string) : bool :=
  match p, s with
  | EmptyString, _ => true
  | String a p', String b s' => Ascii.eqb a b && startsWith p' s'
  | String _ _, EmptyString => false
  end.

(** [s.includes(p)]: [p] occurs in [s] as a literal substring. *)
Fixpoint includes (s p : string) : bool :=
  startsWith p s ||
  match s with
  | EmptyString => false
  | String _ s' => includes s' p
  end.

(** [s.split(/X+/)] for a one-character class [X]: the pieces between the
    maximal runs of separators, empty first and last pieces included. *)
Fixpoint split_runs (sep : ascii -> bool) (s cur : string) (in_sep : bool)
  : list string :=
  match s with
  | EmptyString => [rev cur]
  | String c s' =>
      if sep c
      then (if in_sep then split_runs sep s' cur true
            else rev cur :: split_runs sep s' EmptyString true)
      else split_runs sep s' (String c cur) false
  end.

Definition split (sep : ascii -> bool) (s : string) : list string :=
  split_runs sep s EmptyString false.

(** Truthiness of a string: [Boolean(s)]. *)
Definition truthy (s : string) : bool :=
  match s with EmptyString => false | _ => true end.

(** A JavaScript number where a division by zero can happen. *)
Inductive jsnum : Type :=
| Num (q : Q)
| NaN
| Infinity (positive : bool).

(** [a / b] for two non-negative integers. *)
Definition div_nat (a b : nat) : jsnum :=
  match b, a with
  | O, O => NaN
  | O, S _ => Infinity true
  | S _, _ => Num (inject_Z (Z.of_nat a) / inject_Z (Z.of_nat b))
  end.

Definition is_NaN (x : jsnum) : bool :=
  match x with NaN => true | _ => false end.

(** A non-negative integer (a length, a count) as a number. *)
Definition of_nat (n : nat) : Q := inject_Z (Z.of_nat n).

(** *** Binary64 arithmetic

    A finite double is the rational it denotes.  [double q] is [q] rounded to
    a significand of 53 bits, to the nearest such number and to the one with
    an even significand in a tie.  The exponent is not bounded: no number of
    the program comes near the largest double or the subnormal range. *)

(** [a / b] rounded to the nearest integer, ties to even, for [0 <= a] and
    [0 < b]. *)
Definition round_half_even (a b : Z) : Z :=
  let k := (a / b)%Z in
  match (2 * (a mod b) ?= b)%Z with
  | Lt => k
  | Gt => (k + 1)%Z
  | Eq => if Z.even k then k else (k + 1)%Z
  end.

(** [2^z] for [0 <= z], and 1 otherwise. *)
Definition pow2 (z : Z) : Z := (2 ^ Z.max 0 z)%Z.

(** The exponent of [n / d]: the [e] with [2^e <= n / d < 2^(e+1)]. *)
Definition exponent (n d : positive) : Z :=
  let e := (Z.log2 (Zpos n) - Z.log2 (Zpos d))%Z in
  if (Zpos d * pow2 e <=? Zpos n * pow2 (- e))%Z then e else (e - 1)%Z.

Definition round_pos (n d : positive) : Q :=
  let s := (52 - exponent n d)%Z in
  let m := round_half_even (Zpos n * pow2 s) (Zpos d * pow2 (- s)) in
  Qmake (m * pow2 (- s)) (Z.to_pos (pow2 s)).

Definition double (q : Q) : Q :=
  match Qnum q with
  | Z0 => 0%Q
  | Zpos n => round_pos n (Qden q)
  | Zneg n => Qopp (round_pos n (Qden q))
  end.

(** [x + y], [x * y] and [x / y] on doubles ([y] is not 0). *)
Definition fadd (x y : Q) : Q := double (x + y)%Q.
Definition fmul (x y : Q) : Q := double (x * y)%Q.
Definition fdiv (x y : Q) : Q := double (x / y)%Q.

(** [obj[key]] on an object literal, kept as the list of its entries in the
    order [Object.entries] gives them. *)
Fixpoint get {A : Type} (obj : list (string * A)) (key : string) : option A :=
  match obj with
  | [] => None
  | (k, v) :: obj' => if String.eqb k key then Some v else get obj' key
  end.

(** What a function that can throw produces. *)
Inductive outcome (A : Type) : Type :=
| Returns (a : A)
| Throws (message : string).
Arguments Returns {A} a.
Arguments Throws {A} message.

End JS.

(** ** Regular expressions

    A backtracking matcher with the priorities of the ECMAScript algorithm:
    alternatives are tried left to right, quantifiers are greedy, and a match
    is searched from the leftmost start position.  The matcher is written in
    continuation-passing style; the continuation receives the character before
    the current position (for [\b]) and the rest of the input. *)

Module Regex.

Inductive regex : Type :=
| Eps
| Chr (c : ascii)                       (* a literal character *)
| Dot                                   (* .  *)
| Space                                 (* \s *)
| WordB                                 (* \b *)
| Seq (r1 r2 : regex)
| Alt (r1 r2 : regex)
| Group (r : regex)                     (* ( ... ), capturing *)
| Rep (r : regex) (lo hi : nat)         (* r{lo,hi} *)
| RepInf (r : regex) (lo : nat).        (* r{lo,}; r* and r+ are lo = 0, 1 *)

Record pattern : Type := Pattern {
  source : string;        (* what [pattern.toString()] prints *)
  re : regex;
  ignoreCase : bool;      (* flag i *)
  global : bool           (* flag g *)
}.

Definition K : Type := option ascii -> string -> option string.

Definition at_boundary (prev : option ascii) (s : string) : bool :=
  let a := match prev with Some c => JS.is_word_char c | None => false end in
  let b := match s with String c _ => JS.is_word_char c | EmptyString => false end in
  xorb a b.

(** One greedy quantifier: at most [hi] further iterations of [body], of
    which [lo] are still required.  An iteration that is not required and
    consumes nothing is rejected, as in the ECMAScript RepeatMatcher. *)
Fixpoint repeat (body : option ascii -> string -> K -> option string)
         (lo hi : nat) (prev : option ascii) (s : string) (k : K)
  : option string :=
  match hi with
  | O => if Nat.eqb lo 0 then k prev s else None
  | S hi' =>
      let again :=
        body prev s (fun p' s' =>
          if Nat.eqb lo 0 && Nat.eqb (String.length s') (String.length s)
          then None
          else repeat body (Nat.pred lo) hi' p' s' k) in
      match again with
      | Some rest => Some rest
      | None => if Nat.eqb lo 0 then k prev s else None
      end
  end.

Fixpoint run (ic : bool) (r : regex) (prev : option ascii) (s : string) (k : K)
  : option string :=
  match r with
  | Eps => k prev s
  | Chr c =>
      match s with
      | String d s' => if JS.char_eqb ic c d then k (Some d) s' else None
      | EmptyString => None
      end
  | Dot =>
      match s with
      | String d s' => if JS.is_line_terminator d then None else k (Some d) s'
      | EmptyString => None
      end
  | Space =>
      match s with
      | String d s' => if JS.is_space d then k (Some d) s' else None
      | EmptyString => None
      end
  | WordB => if at_boundary prev s then k prev s else None
  | Seq r1 r2 => run ic r1 prev s (fun p' s' => run ic r2 p' s' k)
  | Alt r1 r2 =>
      match run ic r1 prev s k with
      | Some rest => Some rest
      | None => run ic r2 prev s k
      end
  | Group r1 => run ic r1 prev s k
  | Rep r1 lo hi => repeat (run ic r1) lo hi prev s k
  | RepInf r1 lo => repeat (run ic r1) lo (lo + String.length s) prev s k
  end.

(** The match that starts exactly here, as the rest of the input after it. *)
Definition match_here (p : pattern) (prev : option ascii) (s : string)
  : option string :=
  run (ignoreCase p) (re p) prev s (fun _ rest => Some rest).

(** Leftmost match at or after the current position: the text skipped, the
    text matched and the rest. *)
Fixpoint search (p : pattern) (prev : option ascii) (s : string)
  : option (string * string) :=
  match match_here p prev s with
  | Some rest =>
      Some (JS.slice0 (String.length s - String.length rest) s, rest)
  | None =>
      match s with
      | EmptyString => None
      | String c s' => search p (Some c) s'
      end
  end.

(** [pattern.test(s)] for a pattern without the [g] flag. *)
Definition test (p : pattern) (s : string) : bool :=
  match search p None s with Some _ => true | None => false end.

(** [s.match(pattern)[0]] for a pattern without the [g] flag. *)
Definition match0 (p : pattern) (s : string) : option string :=
  match search p None s with Some (m, _) => Some m | None => None end.

Fixpoint groups (r : regex) : nat :=
  match r with
  | Seq r1 r2 | Alt r1 r2 => groups r1 + groups r2
  | Group r1 => S (groups r1)
  | Rep r1 _ _ | RepInf r1 _ => groups r1
  | _ => 0
  end.

Definition last_char (prev : option ascii) (m : string) : option ascii :=
  match JS.rev m with
  | String c _ => Some c
  | EmptyString => prev
  end.

(** Successive non-overlapping matches of a [g] pattern; after an empty
    match the search resumes one character later. *)
Fixpoint count_all (fuel : nat) (p : pattern) (prev : option ascii) (s : string)
  : nat :=
  match fuel with
  | O => 0
  | S fuel' =>
      match search p prev s with
      | None => 0
      | Some (m, rest) =>
          match m, rest with
          | EmptyString, EmptyString => 1
          | EmptyString, String c rest' => S (count_all fuel' p (Some c) rest')
          | _, _ => S (count_all fuel' p (last_char prev m) rest)
          end
      end
  end.

(** [(s.match(pattern) || []).length]: the number of matches for a [g]
    pattern, and otherwise the size of the match array (the match and one
    slot per capturing group) or 0. *)
Definition match_length (p : pattern) (s : string) : nat :=
  if global p then count_all (S (String.length s)) p None s
  else if test p s then S (groups (re p)) else 0.

(** *** Writing patterns *)

Fixpoint lit (s : string) : regex :=
  match s with
  | EmptyString => Eps
  | String c EmptyString => Chr c
  | String c s' => Seq (Chr c) (lit s')
  end.

Fixpoint seqs (rs : list regex) : regex :=
  match rs with
  | [] => Eps
  | [r] => r
  | r :: rs' => Seq r (seqs rs')
  end.

Fixpoint alts (rs : list regex) : regex :=
  match rs with
  | [] => Eps
  | [r] => r
  | r :: rs' => Alt r (alts rs')
  end.

(** [(a|b|c)] over literal words. *)
Definition words (ws : list string) : regex := Group (alts (map lit ws)).

Definition opt (r : regex) : regex := Rep r 0 1.
Definition plus (r : regex) : regex := RepInf r 1.
Definition star (r : regex) : regex := RepInf r 0.
Definition upto (n : nat) : regex := Rep Dot 0 n.   (* .{0,n} *)

(** [/src/i] *)
Definition pi (src : string) (r : regex) : pattern := Pattern src r true false.
(** [/src/g] *)
Definition pg (src : string) (r : regex) : pattern := Pattern src r false true.
(** [/src/gi] *)
Definition pgi (src : string) (r : regex) : pattern := Pattern src r true true.

End Regex.


(** ** The lexical classifier (class ContentClassifier) *)

Module ContentClassifier.
Import Regex.

Record Category : Type := {
  label : string;
  descriptors : list string;
  contextMarkers : list string
}.

Definition CATEGORIES : list (string * Category) :=
  [ ("PERSONAL",
     {| label := "Personal Experience";
        descriptors := ["I feel"; "I think"; "my experience";
                        "happened to me"; "in my life";
                        "personally"; "my situation"];
        contextMarkers := ["my"; "me"; "mine"; "myself";
                           "I am"; "I'm"; "I was"; "I've"] |});
    ("RELATIONSHIP",
     {| label := "Relationship Discussion";
        descriptors := ["dating"; "marriage"; "partner";
                        "boyfriend"; "girlfriend"; "spouse";
                        "relationship"; "breakup"; "divorce"];
        contextMarkers := ["love"; "trust"; "commitment";
                           "together"; "apart"; "dating"] |});
    ("ETHICAL",
     {| label := "Ethical Dilemma";
        descriptors := ["right thing"; "wrong thing"; "moral";
                        "ethics"; "dilemma"; "should I";
                        "conscience"; "guilt"; "regret"];
        contextMarkers := ["right"; "wrong"; "fair";
                           "unfair"; "justice"; "ethical"] |});
    ("PROFESSIONAL",
     {| label := "Professional Situation";
        descriptors := ["at work"; "job"; "career";
                        "workplace"; "boss"; "coworker";
                        "office"; "professional"];
        contextMarkers := ["work"; "business"; "company";
                           "employee"; "manager"; "team"] |});
    ("MENTAL_HEALTH",
     {| label := "Mental Health";
        descriptors := ["anxiety"; "depression"; "stress";
                        "therapy"; "mental health"; "counseling";
                        "psychiatrist"; "psychologist"];
        contextMarkers := ["feel"; "cope"; "struggle";
                           "overwhelmed"; "worried"; "scared"] |});
    ("CONFLICT",
     {| label := "Conflict Resolution";
        descriptors := ["argument"; "fight"; "disagreement";
                        "conflict"; "dispute"; "tension";
                        "resolution"; "compromise"];
        contextMarkers := ["angry"; "upset"; "frustrated";
                           "resolve"; "solve"; "deal with"] |}) ].

(** The weights of the tables are written as in the source; the number a
    literal denotes is its nearest double, [JS.double] of it. *)
Record TopicIndicator : Type := {
  keywords : list string;
  topic_weight : Q
}.

Definition TOPIC_INDICATORS : list (string * TopicIndicator) :=
  [ ("SUPPORT_SEEKING",
     {| keywords := ["help"; "advice"; "guidance";
                     "what should"; "need help";
                     "please help"; "suggestions"];
        topic_weight := 1.5%Q |});
    ("VENTING",
     {| keywords := ["rant"; "frustrated"; "annoyed";
                     "tired of"; "sick of"; "had enough";
                     "cant take"];
        topic_weight := 1.2%Q |});
    ("DECISION_MAKING",
     {| keywords := ["decide"; "choice"; "option";
                     "should I"; "what if"; "wondering";
                     "considering"];
        topic_weight := 1.3%Q |});
    ("REFLECTION",
     {| keywords := ["thinking about"; "realized";
                     "understand"; "perspective";
                     "looking back"; "reflection"];
        topic_weight := 1.1%Q |}) ].

Record StyleFeature : Type := {
  patterns : list pattern;
  style_weight : Q
}.

Definition emphasis : regex :=
  Group (seqs [WordB; words ["very"; "really"; "so"; "totally"]; WordB; star Dot]).

Definition STYLE_FEATURES : list (string * StyleFeature) :=
  [ ("FORMAL",
     {| patterns := [ pi "/therefore/i" (lit "therefore");
                      pi "/however/i" (lit "however");
                      pi "/furthermore/i" (lit "furthermore");
                      pi "/nevertheless/i" (lit "nevertheless");
                      pi "/regarding/i" (lit "regarding");
                      pi "/consequently/i" (lit "consequently") ];
        style_weight := 0.8%Q |});
    ("CASUAL",
     {| patterns := [ pi "/lol/i" (lit "lol"); pi "/tbh/i" (lit "tbh");
                      pi "/idk/i" (lit "idk"); pi "/imo/i" (lit "imo");
                      pi "/fyi/i" (lit "fyi"); pi "/btw/i" (lit "btw") ];
        style_weight := 1.2%Q |});
    ("EMOTIONAL",
     {| patterns := [ pg "/!!+/g" (Seq (Chr "!") (plus (Chr "!")));
                      pg "/\?!+/g" (Seq (Chr "?") (plus (Chr "!")));
                      pg "/\?{2,}/g" (RepInf (Chr "?") 2);
                      pgi "/(\b(very|really|so|totally)\b.*){2,}/gi"
                          (RepInf emphasis 2) ];
        style_weight := 1.4%Q |});
    ("ANALYTICAL",
     {| patterns := [ pi "/first.*second.*third/i"
                         (seqs [lit "first"; star Dot; lit "second";
                                star Dot; lit "third"]);
                      pgi "/\b(analyze|conclude|evidence|reason)\b/gi"
                          (seqs [WordB;
                                 words ["analyze"; "conclude"; "evidence"; "reason"];
                                 WordB]);
                      pgi "/\b(compare|contrast|examine)\b/gi"
                          (seqs [WordB;
                                 words ["compare"; "contrast"; "examine"];
                                 WordB]) ];
        style_weight := 0.9%Q |}) ].

(** *** Text preprocessing *)

Definition normalizeText (text : string) : string :=
  JS.toLowerCase (JS.collapse_spaces false (JS.trim text)).

Definition is_sentence_end (c : ascii) : bool :=
  Ascii.eqb c "." || Ascii.eqb c "!" || Ascii.eqb c "?".

(** [text.split(/[.!?]+/).map(s => s.trim()).filter(Boolean)] *)
Definition splitSentences (text : string) : list string :=
  filter (fun s => JS.truthy s = true) (map JS.trim (JS.split is_sentence_end text)).

(** [text.split(/\W+/).filter(Boolean)] *)
Definition tokenize (text : string) : list string :=
  filter (fun s => JS.truthy s = true)
         (JS.split (fun c => negb (JS.is_word_char c)) text).

(** *** Category detection *)

Record Matches : Type := {
  m_descriptors : list string;
  m_context : list string
}.

Record CategoryData : Type := {
  cat_score : Q;
  cat_matches : Matches
}.

Definition matching (text : string) (phrases : list string) : list string :=
  filter (fun p => JS.includes text (JS.toLowerCase p) = true) phrases.

Definition category_data (text : string) (config : Category) : CategoryData :=
  let descriptorMatches := matching text (descriptors config) in
  let contextMatches := matching text (contextMarkers config) in
  {| cat_score :=
       JS.fadd
         (JS.fmul (JS.fdiv (JS.of_nat (length descriptorMatches))
                           (JS.of_nat (length (descriptors config))))
                  (JS.double 0.6))
         (JS.fmul (JS.fdiv (JS.of_nat (length contextMatches))
                           (JS.of_nat (length (contextMarkers config))))
                  (JS.double 0.4));
     cat_matches := {| m_descriptors := descriptorMatches;
                       m_context := contextMatches |} |}.

Definition detectCategories (text : string) : list (string * CategoryData) :=
  map (fun '(name, config) => (name, category_data text config)) CATEGORIES.

(** *** Topic analysis *)

Record TopicData : Type := {
  topic_score : Q;
  topic_matches : list string
}.

Definition topic_data (text : string) (config : TopicIndicator) : TopicData :=
  let matches := matching text (keywords config) in
  {| topic_score :=
       JS.fmul (JS.fdiv (JS.of_nat (length matches))
                        (JS.of_nat (length (keywords config))))
               (JS.double (topic_weight config));
     topic_matches := matches |}.

Definition analyzeTopics (text : string) : list (string * TopicData) :=
  map (fun '(name, config) => (name, topic_data text config)) TOPIC_INDICATORS.

(** *** Style analysis *)

Record StyleData : Type := {
  style_score : Q;
  style_matches : nat
}.

Definition sum_counts (counts : list nat) : nat := foldl Nat.add 0%nat counts.

Definition style_data (text : string) (config : StyleFeature) : StyleData :=
  let matches := map (fun p => match_length p text) (patterns config) in
  let score := JS.fmul (JS.of_nat (sum_counts matches))
                       (JS.double (style_weight config)) in
  {| style_score := Qmin (JS.fdiv score 10) 1%Q;
     style_matches := sum_counts matches |}.

Definition analyzeStyle (text : string) : list (string * StyleData) :=
  map (fun '(name, config) => (name, style_data text config)) STYLE_FEATURES.

(** *** Metrics *)

Record Metrics : Type := {
  wordCount : nat;
  sentenceCount : nat;
  averageWordLength : JS.jsnum;
  averageSentenceLength : JS.jsnum
}.

Definition calculateMetrics (words sentences : list string) : Metrics :=
  {| wordCount := length words;
     sentenceCount := length sentences;
     averageWordLength :=
       JS.div_nat (foldl (fun sum word => (sum + String.length word)%nat) 0%nat words)
                  (length words);
     averageSentenceLength := JS.div_nat (length words) (length sentences) |}.

(** *** Confidence *)

Definition getRelevantTopics (category : string) : list string :=
  if String.eqb category "PERSONAL" then ["SUPPORT_SEEKING"; "VENTING"; "REFLECTION"]
  else if String.eqb category "RELATIONSHIP" then ["DECISION_MAKING"; "VENTING"; "REFLECTION"]
  else if String.eqb category "ETHICAL" then ["DECISION_MAKING"; "REFLECTION"]
  else if String.eqb category "PROFESSIONAL" then ["DECISION_MAKING"; "SUPPORT_SEEKING"]
  else if String.eqb category "MENTAL_HEALTH" then ["SUPPORT_SEEKING"; "VENTING"; "REFLECTION"]
  else if String.eqb category "CONFLICT" then ["SUPPORT_SEEKING"; "VENTING"; "DECISION_MAKING"]
  else [].

Definition getRelevantStyles (category : string) : list string :=
  if String.eqb category "PERSONAL" then ["CASUAL"; "EMOTIONAL"]
  else if String.eqb category "RELATIONSHIP" then ["EMOTIONAL"; "CASUAL"]
  else if String.eqb category "ETHICAL" then ["FORMAL"; "ANALYTICAL"]
  else if String.eqb category "PROFESSIONAL" then ["FORMAL"; "ANALYTICAL"]
  else if String.eqb category "MENTAL_HEALTH" then ["EMOTIONAL"; "REFLECTION"]
  else if String.eqb category "CONFLICT" then ["EMOTIONAL"; "CASUAL"]
  else [].

Definition adjust_topics (topics : list (string * TopicData))
           (relevant : list string) (score : Q) : Q :=
  foldl (fun score topic =>
           match JS.get topics topic with
           | Some t =>
               JS.fmul score (JS.fadd 1 (JS.fmul (topic_score t) (JS.double 0.2)))
           | None => score
           end) score relevant.

Definition adjust_styles (style : list (string * StyleData))
           (relevant : list string) (score : Q) : Q :=
  foldl (fun score styleName =>
           match JS.get style styleName with
           | Some st =>
               JS.fmul score (JS.fadd 1 (JS.fmul (style_score st) (JS.double 0.1)))
           | None => score
           end) score relevant.

Definition calculateConfidence (categories : list (string * CategoryData))
           (topics : list (string * TopicData))
           (style : list (string * StyleData)) (metrics : Metrics)
  : list (string * Q) :=
  map (fun '(category, data) =>
         let score := cat_score data in
         let score := adjust_topics topics (getRelevantTopics category) score in
         let score := adjust_styles style (getRelevantStyles category) score in
         (category, Qmin score 1%Q))
      categories.

(** *** Ranking: [entries.sort((a, b) => b[1].score - a[1].score)], a stable
    sort by decreasing score.  The difference of two doubles is negative,
    zero or positive as the exact difference is, so the comparison function
    orders the entries by their scores. *)

Fixpoint insert_by_score (x : string * CategoryData)
         (l : list (string * CategoryData)) : list (string * CategoryData) :=
  match l with
  | [] => [x]
  | y :: l' =>
      if Qlt_le_dec (cat_score (snd x)) (cat_score (snd y))
      then y :: insert_by_score x l'
      else x :: l
  end.

Definition sort_by_score (l : list (string * CategoryData))
  : list (string * CategoryData) :=
  foldr insert_by_score [] l.

Record Ranked : Type := {
  category : string;
  confidence : option Q      (* [confidenceScores[category]] *)
}.

Record ClassificationResult : Type := {
  primary : Ranked;
  secondary : list Ranked;
  topics : list (string * TopicData);
  style : list (string * StyleData);
  metrics : Metrics;
  timestamp : Z
}.

(** The body of [classifyContent] below the cache check. *)
Definition classify (text : string) (now : Z) : JS.outcome ClassificationResult :=
  let normalizedText := normalizeText text in
  let sentences := splitSentences normalizedText in
  let words := tokenize normalizedText in
  let categories := detectCategories normalizedText in
  let topics := analyzeTopics normalizedText in
  let style := analyzeStyle normalizedText in
  let metrics := calculateMetrics words sentences in
  let confidenceScores := calculateConfidence categories topics style metrics in
  let sortedCategories := sort_by_score categories in
  let ranked := fun '(category, _) =>
    {| category := category; confidence := JS.get confidenceScores category |} in
  match sortedCategories with
  | [] => JS.Throws "TypeError"
  | first :: _ =>
      JS.Returns
        {| primary := ranked first;
           secondary := map ranked (take 2 (drop 1 sortedCategories));
           topics := topics;
           style := style;
           metrics := metrics;
           timestamp := now |}
  end.

(** *** The cache *)

Section Cache.
Context {Options : Type}.
(** [JSON.stringify] on the options object. *)
Variable JSON_stringify : Options -> string.

Definition getCacheKey (text : string) (options : Options) : string :=
  String.append (JS.slice0 100 text)
                (String.append "_" (JSON_stringify options)).

(** [classifyContent] is an [async] function and runs in two turns.  The
    first turn goes up to [await Promise.all(...)]: it checks the cache and,
    on a miss, starts the four analyses, which only read the text.  The
    second turn computes the confidences and the ranking, reads the clock
    and writes the cache.  Other calls can run between the two turns.

    A call suspended at [await] holds its cache key and what it computed
    from the text. *)
Record Suspended : Type := {
  s_cacheKey : string;
  s_text : string
}.

Inductive Begun : Type :=
| Hit (cached : ClassificationResult)     (* [return this.cache.get(cacheKey)] *)
| Awaits (call : Suspended).

Definition classifyContent_begin (cache : gmap string ClassificationResult)
           (text : string) (options : Options) : Begun :=
  let cacheKey := getCacheKey text options in
  match cache !! cacheKey with
  | Some cached => Hit cached
  | None => Awaits {| s_cacheKey := cacheKey; s_text := text |}
  end.

(** The second turn, on the cache as it is by then, when [Date.now()] reads
    [now]: the result and the cache afterwards. *)
Definition classifyContent_resume (cache : gmap string ClassificationResult)
           (call : Suspended) (now : Z)
  : JS.outcome ClassificationResult * gmap string ClassificationResult :=
  match classify (s_text call) now with
  | JS.Returns results =>
      (JS.Returns results, <[s_cacheKey call := results]> cache)
  | JS.Throws e => (JS.Throws e, cache)
  end.

(** [classifyContent(text, options)] when nothing runs between its two
    turns, on the classifier whose cache is [cache]: the result and the
    cache afterwards. *)
Definition classifyContent (cache : gmap string ClassificationResult)
           (text : string) (options : Options) (now : Z)
  : JS.outcome ClassificationResult * gmap string ClassificationResult :=
  match classifyContent_begin cache text options with
  | Hit cached => (JS.Returns cached, cache)
  | Awaits call => classifyContent_resume cache call now
  end.
End Cache.

Definition clearCache (cache : gmap string ClassificationResult)
  : gmap string ClassificationResult := ∅.

End ContentClassifier.

(** ** The risk assessor (class InterventionManager) *)

Module InterventionManager.
Import Regex.

Inductive RiskLevel : Type := NONE | LOW | MEDIUM | HIGH | CRISIS.

Record RiskInfo : Type := {
  level : nat;
  risk_label : string;
  description : string;
  requiresAction : bool
}.

Definition RISK_LEVELS (r : RiskLevel) : RiskInfo :=
  match r with
  | NONE => {| level := 0; risk_label := "No Risk";
               description := "No concerning content detected";
               requiresAction := false |}
  | LOW => {| level := 1; risk_label := "Low Risk";
              description := "Minor concerns detected";
              requiresAction := false |}
  | MEDIUM => {| level := 2; risk_label := "Medium Risk";
                 description := "Moderate concerns requiring attention";
                 requiresAction := false |}
  | HIGH => {| level := 3; risk_label := "High Risk";
               description := "Serious concerns requiring immediate attention";
               requiresAction := true |}
  | CRISIS => {| level := 4; risk_label := "Crisis";
                 description := "Immediate intervention recommended";
                 requiresAction := true |}
  end.

(** A service of the resource table, identified by its name and address. *)
Record Service : Type := { service_name : string; url : string }.

Definition RESOURCES_CRISIS : list Service :=
  [ {| service_name := "988 Suicide & Crisis Lifeline"; url := "https://988lifeline.org/" |};
    {| service_name := "Crisis Text Line"; url := "https://www.crisistextline.org/" |};
    {| service_name := "RAINN Sexual Assault Hotline"; url := "https://www.rainn.org/" |} ].

Definition RESOURCES_PROFESSIONAL : list Service :=
  [ {| service_name := "SAMHSA Treatment Locator";
       url := "https://findtreatment.samhsa.gov/" |};
    {| service_name := "Psychology Today Therapist Finder";
       url := "https://www.psychologytoday.com/us/therapists" |} ].

Definition RESOURCES_SELF_HELP : list Service :=
  [ {| service_name := "Mindfulness Exercises";
       url := "https://www.mindful.org/meditation/mindfulness-getting-started/" |};
    {| service_name := "Mental Health Apps";
       url := "https://www.psycom.net/25-best-mental-health-apps" |} ].

(** [\b(w1|w2|...)\b] *)
Definition bw (ws : list string) : regex := seqs [WordB; words ws; WordB].

Definition contextExclusions : list (string * list pattern) :=
  [ ("medicalDiscussion",
     [ pi "/\b(doctor|doctors|medical|medicine|treatment|therapy|hospital|clinic)\b/i"
          (bw ["doctor"; "doctors"; "medical"; "medicine"; "treatment";
               "therapy"; "hospital"; "clinic"]);
       pi "/\b(medication|pills|prescription|dosage|side effects|reactions)\b/i"
          (bw ["medication"; "pills"; "prescription"; "dosage";
               "side effects"; "reactions"]);
       pi "/\b(surgery|operation|procedure|recovery|healing)\b/i"
          (bw ["surgery"; "operation"; "procedure"; "recovery"; "healing"]);
       pi "/\b(cancer|heart failure|disease|illness|condition|diagnosis)\b/i"
          (bw ["cancer"; "heart failure"; "disease"; "illness";
               "condition"; "diagnosis"]) ]);
    ("thirdPersonDiscussion",
     [ pi "/\b(my (friend|dad|mom|father|mother|brother|sister|family)|he|she|they|them|his|her|their)\b.{0,50}\b(died|passed|lost|battle|fighting)\b/i"
          (seqs [WordB;
                 Group (alts [Seq (lit "my ")
                                  (words ["friend"; "dad"; "mom"; "father"; "mother";
                                          "brother"; "sister"; "family"]);
                              lit "he"; lit "she"; lit "they"; lit "them";
                              lit "his"; lit "her"; lit "their"]);
                 WordB; upto 50;
                 bw ["died"; "passed"; "lost"; "battle"; "fighting"]]);
       pi "/\b(friend|relative|family member|loved one)\b.{0,50}\b(cancer|illness|disease)\b/i"
          (seqs [bw ["friend"; "relative"; "family member"; "loved one"];
                 upto 50; bw ["cancer"; "illness"; "disease"]]);
       pi "/\btalking about (my|our|someone|a friend)\b/i"
          (seqs [WordB; lit "talking about ";
                 words ["my"; "our"; "someone"; "a friend"]; WordB]) ]);
    ("pastEvents",
     [ pi "/\b(last year|months ago|years ago|previously|in the past|used to)\b/i"
          (bw ["last year"; "months ago"; "years ago"; "previously";
               "in the past"; "used to"]);
       pi "/\b(car accident|accident|crash)\b.{0,50}\b(happened|occurred|was in)\b/i"
          (seqs [bw ["car accident"; "accident"; "crash"]; upto 50;
                 bw ["happened"; "occurred"; "was in"]]);
       pi "/\bhad (surgery|an accident|been through)\b/i"
          (seqs [WordB; lit "had ";
                 words ["surgery"; "an accident"; "been through"]; WordB]) ]);
    ("educationalContext",
     [ pi "/\b(discussing|talking about|conversation about|sharing|information about)\b/i"
          (bw ["discussing"; "talking about"; "conversation about"; "sharing";
               "information about"]);
       pi "/\b(awareness|education|helping others|support|resources)\b/i"
          (bw ["awareness"; "education"; "helping others"; "support";
               "resources"]) ]) ].

(** [\bI (a|b) (c|d) ... tail\b]: a first-person phrase. *)
Definition first_person (parts : list regex) : regex :=
  seqs (WordB :: Chr "I" :: parts ++ [WordB]).
Definition sp : regex := Chr " ".

Definition crisisPatterns : list (string * list pattern) :=
  [ ("trolling",
     [ pi "/\b(just trolling|not serious|kidding|joking)\b/i"
          (bw ["just trolling"; "not serious"; "kidding"; "joking"]);
       pi "/\b(you mad|triggered|lolol|baited)\b/i"
          (bw ["you mad"; "triggered"; "lolol"; "baited"]);
       pi "/\b(spam|nonsense|irrelevant|off-topic)\b/i"
          (bw ["spam"; "nonsense"; "irrelevant"; "off-topic"]) ]);
    ("activeSuicideIntent",
     [ pi "/\bI (want to|am going to|plan to|will) (kill myself|end my life|commit suicide)\b/i"
          (first_person [sp; words ["want to"; "am going to"; "plan to"; "will"];
                         sp; words ["kill myself"; "end my life"; "commit suicide"]]);
       pi "/\bI (can't|cannot) (go on|live|take it) anymore\b/i"
          (first_person [sp; words ["can't"; "cannot"];
                         sp; words ["go on"; "live"; "take it"]; lit " anymore"]);
       pi "/\bI (have a plan|am planning) to (kill myself|end it|suicide)\b/i"
          (first_person [sp; words ["have a plan"; "am planning"]; lit " to ";
                         words ["kill myself"; "end it"; "suicide"]]);
       pi "/\bI (don't want to|want to stop) (living|being alive)\b/i"
          (first_person [sp; words ["don't want to"; "want to stop"];
                         sp; words ["living"; "being alive"]]) ]);
    ("activeSelfHarmIntent",
     [ pi "/\bI (want to|am going to|plan to) (cut|hurt|harm) myself\b/i"
          (first_person [sp; words ["want to"; "am going to"; "plan to"];
                         sp; words ["cut"; "hurt"; "harm"]; lit " myself"]);
       pi "/\bI (have|am getting|bought) (razor|blade|knife) to (cut|hurt) myself\b/i"
          (first_person [sp; words ["have"; "am getting"; "bought"];
                         sp; words ["razor"; "blade"; "knife"]; lit " to ";
                         words ["cut"; "hurt"]; lit " myself"]);
       pi "/\bI am (cutting|hurting|harming) myself\b/i"
          (first_person [lit " am "; words ["cutting"; "hurting"; "harming"];
                         lit " myself"]) ]);
    ("activeOverdoseIntent",
     [ pi "/\bI (want to|am going to|plan to) (overdose|take all|swallow all)\b/i"
          (first_person [sp; words ["want to"; "am going to"; "plan to"];
                         sp; words ["overdose"; "take all"; "swallow all"]]);
       pi "/\bI (have|collected|am taking) (pills|medication) to (overdose|kill myself|die)\b/i"
          (first_person [sp; words ["have"; "collected"; "am taking"];
                         sp; words ["pills"; "medication"]; lit " to ";
                         words ["overdose"; "kill myself"; "die"]]) ]);
    ("directViolentThreats",
     [ pi "/\bI (will|am going to|plan to) (kill|murder|shoot|stab|hurt) (you|him|her|them)\b/i"
          (first_person [sp; words ["will"; "am going to"; "plan to"];
                         sp; words ["kill"; "murder"; "shoot"; "stab"; "hurt"];
                         sp; words ["you"; "him"; "her"; "them"]]);
       pi "/\bI (have|got|am getting) (gun|weapon|knife) to (kill|hurt|attack)\b/i"
          (first_person [sp; words ["have"; "got"; "am getting"];
                         sp; words ["gun"; "weapon"; "knife"]; lit " to ";
                         words ["kill"; "hurt"; "attack"]]);
       pi "/\bI am (planning|preparing) (attack|violence|shooting)\b/i"
          (first_person [lit " am "; words ["planning"; "preparing"];
                         sp; words ["attack"; "violence"; "shooting"]]) ]);
    ("illegalContent",
     [ pi "/\b(child|kid|minor|underage|teen)\b.{0,50}\b(sex|porn|nude|naked)\b/i"
          (seqs [bw ["child"; "kid"; "minor"; "underage"; "teen"]; upto 50;
                 bw ["sex"; "porn"; "nude"; "naked"]]);
       pi "/\b(traffic|traffick|selling|sold)\b.{0,30}\b(girls|women|kids|children)\b/i"
          (seqs [bw ["traffic"; "traffick"; "selling"; "sold"]; upto 30;
                 bw ["girls"; "women"; "kids"; "children"]]);
       pi "/\b(forced|against.{0,10}will|kidnap)\b.{0,30}\b(sex|rape)\b/i"
          (seqs [WordB;
                 Group (alts [lit "forced";
                              seqs [lit "against"; upto 10; lit "will"];
                              lit "kidnap"]);
                 WordB; upto 30; bw ["sex"; "rape"]]) ]) ].

Definition concernPatterns : list (string * list pattern) :=
  [ ("depression",
     [ pi "/\b(depressed|hopeless|worthless|useless)\b/i"
          (bw ["depressed"; "hopeless"; "worthless"; "useless"]);
       pi "/\b(no(thing)?\s+matters|pointless)\b/i"
          (seqs [WordB;
                 Group (alts [seqs [lit "no"; opt (Group (lit "thing"));
                                    plus Space; lit "matters"];
                              lit "pointless"]);
                 WordB]);
       pi "/\b(cant|can't|cannot)\b.{0,20}\b(cope|handle|go on)\b/i"
          (seqs [bw ["cant"; "can't"; "cannot"]; upto 20;
                 bw ["cope"; "handle"; "go on"]]);
       pi "/\b(hate.{0,10}myself|hate.{0,10}life)\b/i"
          (seqs [WordB;
                 Group (alts [seqs [lit "hate"; upto 10; lit "myself"];
                              seqs [lit "hate"; upto 10; lit "life"]]);
                 WordB]) ]);
    ("anxiety",
     [ pi "/\b(panic attack|anxiety attack)\b/i"
          (bw ["panic attack"; "anxiety attack"]);
       pi "/\b(constant(ly)?|always)\b.{0,20}\b(worry|anxious|fear|terrified)\b/i"
          (seqs [WordB;
                 Group (alts [Seq (lit "constant") (opt (Group (lit "ly")));
                              lit "always"]);
                 WordB; upto 20;
                 bw ["worry"; "anxious"; "fear"; "terrified"]]);
       pi "/\b(cant.{0,10}breathe|hyperventilat)\b/i"
          (seqs [WordB;
                 Group (alts [seqs [lit "cant"; upto 10; lit "breathe"];
                              lit "hyperventilat"]);
                 WordB]) ]);
    ("isolation",
     [ pi "/\b(completely alone|nobody cares|no one understands)\b/i"
          (bw ["completely alone"; "nobody cares"; "no one understands"]);
       pi "/\b(no|don't\s+have).{0,20}\b(friends|family|support|anyone)\b/i"
          (seqs [WordB;
                 Group (alts [lit "no";
                              seqs [lit "don't"; plus Space; lit "have"]]);
                 upto 20;
                 bw ["friends"; "family"; "support"; "anyone"]]);
       pi "/\b(isolated|cut off|abandoned)\b/i"
          (bw ["isolated"; "cut off"; "abandoned"]) ]) ].

(** *** Crisis check *)

Inductive DebugEntry : Type :=
| ContextExclusion (category pattern matched reason : string)
| PatternMatch (category pattern matched : string) (severity : Q)
               (triggered : bool) (reason : string).

Inductive Confidence : Type := ConfLow | ConfHigh.

Inductive Trigger : Type :=
| PatternTrigger (type pattern matched : string) (severity : Q)
                 (confidence : Confidence)
| CustomMessage (message : string).

Definition trigger_type (t : Trigger) : string :=
  match t with
  | PatternTrigger type _ _ _ _ => type
  | CustomMessage _ => "customMessage"
  end.

Record CrisisCheck : Type := {
  detected : bool;
  crisis_triggers : list Trigger;
  crisis_debugInfo : list DebugEntry
}.

Definition severityMap : list (string * Q) :=
  [ ("trolling", 0.7%Q);
    ("suicide", 1.0%Q);
    ("selfHarm", 0.9%Q);
    ("overdoseIntent", 1.0%Q);
    ("violentThreats", 1.0%Q);
    ("illegalContent", 1.0%Q) ].

(** [severityMap[category] || 0.5] *)
Definition getSeverityForCategory (category : string) : Q :=
  match JS.get severityMap category with
  | Some v => if Qeq_bool v 0 then 0.5%Q else v
  | None => 0.5%Q
  end.

(** The pairs (key, pattern) in the order the two nested [for] loops visit
    them. *)
Definition entries (table : list (string * list pattern))
  : list (string * pattern) :=
  flat_map (fun '(key, ps) => map (fun p => (key, p)) ps) table.

(** First loop: every exclusion pattern that matches the content. *)
Definition exclusion_entries (content : string) : list DebugEntry :=
  flat_map (fun '(contextType, p) =>
              match match0 p content with
              | Some m =>
                  [ContextExclusion contextType (source p) m
                     "Content appears to be legitimate discussion, not crisis"]
              | None => []
              end)
           (entries contextExclusions).

Definition hasExcludingContext (content : string) : bool :=
  existsb (fun '(_, p) => test p content) (entries contextExclusions).

Definition severityThreshold (excluding : bool) : Q :=
  if excluding then 0.9%Q else 0.7%Q.

(** [!hasExcludingContext || severity >= severityThreshold] *)
Definition shouldTrigger (excluding : bool) (severity : Q) : bool :=
  negb excluding || Qle_bool (severityThreshold excluding) severity.

(** Second loop: what each matching crisis pattern contributes. *)
Definition crisis_step (excluding : bool) (content : string)
           (kp : string * pattern) : list (DebugEntry * option Trigger) :=
  let '(category, p) := kp in
  match match0 p content with
  | Some m =>
      let severity := getSeverityForCategory category in
      let fire := shouldTrigger excluding severity in
      [ (PatternMatch category (source p) m severity fire
           (if fire then "Crisis pattern detected" else "Suppressed due to context"),
         if fire
         then Some (PatternTrigger category (source p) m severity
                      (if excluding then ConfLow else ConfHigh))
         else None) ]
  | None => []
  end.

Definition checkCrisisIndicators (content : string) : CrisisCheck :=
  let excluding := hasExcludingContext content in
  let steps := flat_map (crisis_step excluding content) (entries crisisPatterns) in
  let triggers := omap snd steps in
  let custom :=
    if existsb (fun t => String.eqb (trigger_type t) "trolling") triggers
    then [CustomMessage "If you're trolling, you'll keep seeing this."]
    else [] in
  {| detected := match triggers with [] => false | _ => true end;
     crisis_triggers := triggers ++ custom;
     crisis_debugInfo := exclusion_entries content ++ map fst steps |}.

(** *** Concern analysis *)

Record Concern : Type := {
  concern_type : string;
  concern_matches : list string;
  concern_severity : Q
}.

Record Analysis : Type := {
  an_triggers : list Trigger;
  an_concerns : list Concern;
  an_severity : Q
}.

Definition concern_of (content : string) (kp : string * list pattern)
  : list Concern :=
  let '(concern, patterns) := kp in
  let matches := omap (fun p => match0 p content) patterns in
  match matches with
  | [] => []
  | _ => [ {| concern_type := concern;
              concern_matches := matches;
              concern_severity :=
                (JS.of_nat (length matches) / JS.of_nat (length patterns))%Q |} ]
  end.

Definition analyzeContent (content : string) : Analysis :=
  let concerns := flat_map (concern_of content) concernPatterns in
  {| an_triggers := [];
     an_concerns := concerns;
     an_severity :=
       match concerns with
       | [] => 0%Q
       | _ => (foldl (fun sum c => sum + concern_severity c) 0 concerns
               / JS.of_nat (length concerns))%Q
       end |}.

Definition determineRiskLevel (analysis : Analysis) : RiskLevel :=
  if Qle_bool 0.8 (an_severity analysis) then HIGH
  else if Qle_bool 0.6 (an_severity analysis) then MEDIUM
  else if Qle_bool 0.3 (an_severity analysis) then LOW
  else NONE.

(** *** Resources: a [Set] filled in this order, then [Array.from]. *)

Definition service_eqb (a b : Service) : bool :=
  String.eqb (service_name a) (service_name b) && String.eqb (url a) (url b).

Definition set_add (acc : list Service) (x : Service) : list Service :=
  if existsb (service_eqb x) acc then acc else acc ++ [x].

Definition getRecommendedResources (riskLevel : RiskLevel)
           (concerns : list Concern) : list Service :=
  let r := foldl set_add [] RESOURCES_SELF_HELP in
  let r := match riskLevel with
           | HIGH | CRISIS => foldl set_add r RESOURCES_CRISIS
           | _ => r
           end in
  match concerns with
  | [] => r
  | _ => foldl set_add r RESOURCES_PROFESSIONAL
  end.

(** *** Assessments and session state *)

Record FinalDecision : Type := {
  fd_riskLevel : RiskLevel;
  fd_requiresIntervention : bool;
  triggerCount : nat;
  concernCount : nat
}.

Record DebugInfo : Type := {
  processingTime : Z;
  crisisCheckResults : list DebugEntry;
  analysisResults : option Analysis;
  finalDecision : FinalDecision
}.

(** The [context] argument: only [sessionId] is read. *)
Record Context : Type := { ctx_sessionId : option string }.

Record Assessment : Type := {
  timestamp : Z;
  content : string;
  context : Context;
  riskLevel : RiskLevel;
  triggers : list Trigger;
  concerns : list Concern;
  requiresIntervention : bool;
  recommendedResources : list Service;
  sessionId : string;
  debugInfo : DebugInfo
}.

Record HistoryEntry : Type := {
  h_timestamp : Z;
  h_assessment : Assessment
}.

Record Manager : Type := {
  interventionHistory : gmap string (list HistoryEntry);
  activeSessions : gset string;
  lastAssessment : option Assessment;
  debugMode : bool
}.

(** [new InterventionManager()] *)
Definition new : Manager :=
  {| interventionHistory := ∅; activeSessions := ∅;
     lastAssessment := None; debugMode := true |}.

(** What one call of [assessContent] reads from the outside: the four
    readings of [Date.now()] and the identifier [generateSessionId] makes. *)
Record Env : Type := {
  startTime : Z;
  createdAt : Z;
  finishedAt : Z;
  recordedAt : Z;
  generatedSessionId : string
}.

Definition updateSessionState (m : Manager) (now : Z) (sessionId : string)
           (assessment : Assessment) : Manager :=
  let history := default [] (interventionHistory m !! sessionId) in
  {| interventionHistory :=
       <[sessionId := history ++ [ {| h_timestamp := now;
                                      h_assessment := assessment |} ]]>
         (interventionHistory m);
     activeSessions := {[sessionId]} ∪ activeSessions m;
     lastAssessment := lastAssessment m;
     debugMode := debugMode m |}.

(** [assessContent(content, context)].  With a string and an object as
    arguments nothing in the [try] block throws, so the call returns. *)
Definition assessContent (m : Manager) (env : Env) (content : string)
           (context : Context) : Assessment * Manager :=
  let sessionId :=
    match ctx_sessionId context with
    | Some id => if JS.truthy id then id else generatedSessionId env
    | None => generatedSessionId env
    end in
  let crisisCheck := checkCrisisIndicators content in
  let '(riskLevel, triggers, concerns, requires, analysis) :=
    if detected crisisCheck
    then (CRISIS, crisis_triggers crisisCheck, [], true, None)
    else
      let analysis := analyzeContent content in
      let riskLevel := determineRiskLevel analysis in
      (riskLevel, an_triggers analysis, an_concerns analysis,
       requiresAction (RISK_LEVELS riskLevel), Some analysis) in
  let assessment :=
    {| timestamp := createdAt env;
       content := content;
       context := context;
       riskLevel := riskLevel;
       triggers := triggers;
       concerns := concerns;
       requiresIntervention := requires;
       recommendedResources := getRecommendedResources riskLevel concerns;
       sessionId := sessionId;
       debugInfo :=
         {| processingTime := finishedAt env - startTime env;
            crisisCheckResults := crisis_debugInfo crisisCheck;
            analysisResults := analysis;
            finalDecision :=
              {| fd_riskLevel := riskLevel;
                 fd_requiresIntervention := requires;
                 triggerCount := length triggers;
                 concernCount := length concerns |} |} |} in
  let m := updateSessionState m (recordedAt env) sessionId assessment in
  (assessment,
   {| interventionHistory := interventionHistory m;
      activeSessions := activeSessions m;
      lastAssessment := Some assessment;
      debugMode := debugMode m |}).

Definition getSessionHistory (m : Manager) (sessionId : string)
  : list HistoryEntry :=
  default [] (interventionHistory m !! sessionId).

Definition clearSession (m : Manager) (sessionId : string) : Manager :=
  {| interventionHistory := delete sessionId (interventionHistory m);
     activeSessions := activeSessions m ∖ {[sessionId]};
     lastAssessment := lastAssessment m;
     debugMode := debugMode m |}.

(** [getLastAssessmentDebugInfo]: [None] stands for the object
    [{ error: 'No debug information available' }]. *)
Record LastDebugInfo : Type := {
  ld_timestamp : Z;
  contentPreview : string;
  ld_processingTime : Z;
  ld_crisisCheckResults : list DebugEntry;
  ld_analysisResults : option Analysis;
  ld_finalDecision : FinalDecision;
  fullTriggers : list Trigger;
  fullConcerns : list Concern
}.

Definition getLastAssessmentDebugInfo (m : Manager) : option LastDebugInfo :=
  match lastAssessment m with
  | None => None
  | Some a =>
      Some {| ld_timestamp := timestamp a;
              contentPreview := String.append (JS.slice0 100 (content a)) "...";
              ld_processingTime := processingTime (debugInfo a);
              ld_crisisCheckResults := crisisCheckResults (debugInfo a);
              ld_analysisResults := analysisResults (debugInfo a);
              ld_finalDecision := finalDecision (debugInfo a);
              fullTriggers := triggers a;
              fullConcerns := concerns a |}
  end.

(** [setDebugMode] *)
Definition setDebugMode (m : Manager) (enabled : bool) : Manager :=
  {| interventionHistory := interventionHistory m;
     activeSessions := activeSessions m;
     lastAssessment := lastAssessment m;
     debugMode := enabled |}.

End InterventionManager.

(** ** The HTTP and WebSocket client (classes APIService and APIError) *)

Module APIService.

(** [new APIError(message, statusCode, originalError)]; [status] is [None]
    for [null], and [originalError] is kept as its JSON text. *)
Record APIError : Type := {
  message : string;
  status : option Z;
  originalError : option string
}.

Definition isRetryable (e : APIError) : bool :=
  match status e with
  | None => true                                   (* !null *)
  | Some n =>
      if ((400 <=? n) && (n <? 500))%Z
      then ((n =? 408) || (n =? 429))%Z
      else ((500 <=? n) || (n =? 0))%Z
  end.

(** The body of a response, as far as the program looks into it. *)
Record Response : Type := {
  resp_status : string;
  session_id : option string;
  resp_error : bool;            (* truthiness of [response.error] *)
  body : string
}.

(** What one call of [makeRequest] ends with: the parsed response, or an
    [APIError] (every error leaves [makeRequest] wrapped in one). *)
Inductive Reply : Type :=
| Ok (r : Response)
| Err (e : APIError).

(** The fields of the [options] argument that [request] reads.  A number
    is a finite JavaScript number; [None] is a missing field, or [NaN], which
    is falsy as well. *)
Record RequestOptions : Type := {
  queued : bool;
  opt_retryAttempts : option Q;
  opt_retryDelay : option Q
}.

Definition no_options : RequestOptions :=
  {| queued := false; opt_retryAttempts := None; opt_retryDelay := None |}.

(** Set by the constructor and never assigned again. *)
Definition retryAttempts : Q := 3.
Definition retryDelay : Q := 1000.

(** [x || fallback] on numbers: 0 is falsy. *)
Definition number_or (x : option Q) (fallback : Q) : Q :=
  match x with
  | Some q => if Qeq_bool q 0 then fallback else q
  | None => fallback
  end.

(** [options.retryAttempts || this.retryAttempts] *)
Definition maxAttempts (options : RequestOptions) : Q :=
  number_or (opt_retryAttempts options) retryAttempts.

(** [options.retryDelay || this.retryDelay] *)
Definition baseDelay (options : RequestOptions) : Q :=
  number_or (opt_retryDelay options) retryDelay.

Inductive Settled : Type :=
| Resolved (r : Response)
| Rejected (e : APIError)
| ResolvedUndefined.           (* the loop ended without a [return] *)

(** A run of [request]: how it settles, how many times [makeRequest] was
    called, and the arguments of the successive [sleep] calls. *)
Record Run : Type := {
  settled : Settled;
  calls : nat;
  sleeps : list Q
}.

(** The [while (attempt < maxAttempts)] loop.  [network k] is what the call
    of [makeRequest] number [k] (from 0) ends with.  [fuel] bounds the number
    of iterations; [iterations] below is enough for the loop to end by
    itself. *)
Fixpoint attempts (network : nat -> Reply) (max base : Q)
         (fuel attempt : nat) : Run :=
  match fuel with
  | O => {| settled := ResolvedUndefined; calls := 0; sleeps := [] |}
  | S fuel' =>
      if Qle_bool max (JS.of_nat attempt)       (* not [attempt < maxAttempts] *)
      then {| settled := ResolvedUndefined; calls := 0; sleeps := [] |}
      else
        match network attempt with
        | Ok response => {| settled := Resolved response; calls := 1; sleeps := [] |}
        | Err error =>
            let attempt := S attempt in
            if negb (isRetryable error)
            then {| settled := Rejected error; calls := 1; sleeps := [] |}
            else if Qle_bool max (JS.of_nat attempt)   (* [attempt >= maxAttempts] *)
            then {| settled := Rejected error; calls := 1; sleeps := [] |}
            else
              let delay := (base * inject_Z (2 ^ (Z.of_nat attempt - 1)))%Q in
              let rest := attempts network max base fuel' attempt in
              {| settled := settled rest;
                 calls := S (calls rest);
                 sleeps := delay :: sleeps rest |}
        end
  end.

(** The number of naturals below [max]: the loop cannot iterate more often. *)
Definition iterations (max : Q) : nat := Z.to_nat (Qceiling max).

(** *** The request queue ([queueRequest], [processQueue],
    [cancelAllRequests])

    A queued request is known by its number of arrival.  [processQueue] is a
    coroutine: it is idle, or suspended in [await this.makeRequest(...)] on
    the request it has taken from the queue, or suspended in
    [await this.sleep(100)]; [isProcessingQueue] is true exactly when it is
    not idle.  The promise returned by [queueRequest] settles once: settling
    it again does nothing. *)

Inductive Processor : Type :=
| Idle
| Calling (id : nat)
| Sleeping.

Record Queue : Type := {
  requestQueue : list nat;
  processor : Processor;
  passed : list nat;             (* the requests passed to [makeRequest], latest first *)
  queue_sleeps : list Q;         (* the arguments of [sleep], latest first *)
  promises : gmap nat Settled;   (* the promises settled so far *)
  next_request : nat
}.

Definition new_queue : Queue :=
  {| requestQueue := []; processor := Idle; passed := []; queue_sleeps := [];
     promises := ∅; next_request := 0 |}.

Definition isProcessingQueue (q : Queue) : bool :=
  match processor q with Idle => false | _ => true end.

(** [resolve(response)] or [reject(error)] on the promise of a request. *)
Definition settle (id : nat) (s : Settled) (promises : gmap nat Settled)
  : gmap nat Settled :=
  match promises !! id with
  | Some _ => promises
  | None => <[id := s]> promises
  end.

Definition outcome (reply : Reply) : Settled :=
  match reply with
  | Ok response => Resolved response
  | Err error => Rejected error
  end.

(** The head of the [while (this.requestQueue.length > 0)] loop: take the
    next request and call [makeRequest], or leave the loop. *)
Definition next_in_queue (q : Queue) : Queue :=
  match requestQueue q with
  | [] =>
      {| requestQueue := []; processor := Idle; passed := passed q;
         queue_sleeps := queue_sleeps q; promises := promises q;
         next_request := next_request q |}
  | id :: rest =>
      {| requestQueue := rest; processor := Calling id; passed := id :: passed q;
         queue_sleeps := queue_sleeps q; promises := promises q;
         next_request := next_request q |}
  end.

Definition processQueue (q : Queue) : Queue :=
  if isProcessingQueue q then q
  else match requestQueue q with
       | [] => q
       | _ :: _ => next_in_queue q
       end.

Definition queueRequest (q : Queue) : Queue :=
  processQueue
    {| requestQueue := requestQueue q ++ [next_request q];
       processor := processor q; passed := passed q;
       queue_sleeps := queue_sleeps q; promises := promises q;
       next_request := S (next_request q) |}.

Definition cancelled : APIError :=
  {| message := "Request cancelled"; status := Some 499%Z; originalError := None |}.

Definition cancelAllRequests (q : Queue) : Queue :=
  {| requestQueue := [];
     processor := processor q; passed := passed q;
     queue_sleeps := queue_sleeps q;
     promises := foldl (fun promises id => settle id (Rejected cancelled) promises)
                       (promises q) (requestQueue q);
     next_request := next_request q |}.

Inductive QueueEvent : Type :=
| Queues                     (* a call of [queueRequest] *)
| Replies (reply : Reply)    (* the call of [makeRequest] in progress ends *)
| Wakes                      (* the [sleep(100)] in progress ends *)
| Cancels.                   (* a call of [cancelAllRequests] *)

Definition queue_step (q : Queue) (e : QueueEvent) : Queue :=
  match e with
  | Queues => queueRequest q
  | Replies reply =>
      match processor q with
      | Calling id =>
          {| requestQueue := requestQueue q; processor := Sleeping;
             passed := passed q; queue_sleeps := 100%Q :: queue_sleeps q;
             promises := settle id (outcome reply) (promises q);
             next_request := next_request q |}
      | _ => q
      end
  | Wakes =>
      match processor q with
      | Sleeping => next_in_queue q
      | _ => q
      end
  | Cancels => cancelAllRequests q
  end.

Definition queue_run (q : Queue) (events : list QueueEvent) : Queue :=
  foldl queue_step q events.

(** [request]: a request with the [queued] option goes to the queue, every
    other request through the retry loop. *)
Inductive Requested : Type :=
| Settles (r : Run)
| Queued (q : Queue).

Definition request (network : nat -> Reply) (options : RequestOptions)
           (q : Queue) : Requested :=
  if queued options then Queued (queueRequest q)
  else Settles (attempts network (maxAttempts options) (baseDelay options)
                         (iterations (maxAttempts options)) 0).

(** *** The callback registries

    The only progress callback ever registered is the [onProgress] closure
    of the container, and the only completion callback is the closure of
    [analyzeWithProgress] over [resolve] and [reject].  That promise is
    resolved with the initial response in the same turn in which the
    callback is registered, so calling the callback later settles nothing. *)

Inductive ProgressCallback : Type := OnProgress.
Inductive AnalysisCallback : Type := SettlePromise.

Record Service : Type := {
  socket : bool;                       (* [this.socket] is not null *)
  isWebSocketInitialized : bool;
  progressCallbacks : gmap string ProgressCallback;
  analysisCallbacks : gmap string AnalysisCallback
}.

(** The [then] branch of [analyzeWithProgress] on the first response. *)
Definition analyzeWithProgress_then (api : Service) (response : Response)
           (onProgress : bool) : Service :=
  match session_id response with
  | Some sid =>
      if String.eqb (resp_status response) "started" && JS.truthy sid
      then {| socket := socket api;
              isWebSocketInitialized := isWebSocketInitialized api;
              progressCallbacks :=
                if onProgress then <[sid := OnProgress]> (progressCallbacks api)
                else progressCallbacks api;
              analysisCallbacks := <[sid := SettlePromise]> (analysisCallbacks api) |}
      else api
  | None => api
  end.

(** What [analyzeContent] does with the first response: registration
    happens only on the WebSocket path. *)
Definition on_first_response (api : Service) (response : Response)
           (onProgress : bool) : Service :=
  if socket api && isWebSocketInitialized api
  then analyzeWithProgress_then api response onProgress
  else api.

(** The socket listeners for [analysis_complete] and [analysis_error]: both
    call the completion callback of the session, if there is one, and then
    delete the two entries of the session. *)
Definition on_terminal_event (api : Service) (sid : string) : Service :=
  match analysisCallbacks api !! sid with
  | Some _ =>
      {| socket := socket api;
         isWebSocketInitialized := isWebSocketInitialized api;
         progressCallbacks := delete sid (progressCallbacks api);
         analysisCallbacks := delete sid (analysisCallbacks api) |}
  | None => api
  end.

(** *** Opening the socket ([deferredInitializeWebSocket],
    [pollForSocketIOInAPIService], [initializeWebSocket])

    [io k] tells whether Socket.IO is defined when it is looked for the
    time number [k]: [io 0] in the constructor, [io k] at the poll number [k].
    [connects] tells whether the call [io(baseUrl, ...)] returns a socket; if
    it throws, [initializeWebSocket] catches the error and [this.socket]
    stays null. *)

Record SocketSetup : Type := {
  setup_socket : bool;                 (* [this.socket] is not null *)
  setup_initialized : bool;            (* [this.isWebSocketInitialized] *)
  initializationAttempts : nat;
  waits : list Q                       (* the delays given to [setTimeout] *)
}.

Definition maxInitializationAttempts : nat := 10.

(** [initializeWebSocket], called when Socket.IO is defined. *)
Definition initializeWebSocket (connects : bool) : bool := connects.

(** [checkSocketIO], run after a wait of [delay] milliseconds;
    [remaining] is [maxInitializationAttempts - attempts]. *)
Fixpoint checkSocketIO (io : nat -> bool) (connects : bool)
         (remaining attempts : nat) (delay : Q) : SocketSetup :=
  match remaining with
  | O => {| setup_socket := false; setup_initialized := false;
            initializationAttempts := attempts; waits := [] |}
  | S remaining' =>
      let attempts := S attempts in
      if io attempts
      then {| setup_socket := initializeWebSocket connects;
              setup_initialized := true;
              initializationAttempts := attempts; waits := [delay] |}
      else if (maxInitializationAttempts <=? attempts)%nat
      then {| setup_socket := false; setup_initialized := false;
              initializationAttempts := attempts; waits := [delay] |}
      else
        let delay' := Qmin (delay * 1.5)%Q 2000%Q in
        let rest := checkSocketIO io connects remaining' attempts delay' in
        {| setup_socket := setup_socket rest;
           setup_initialized := setup_initialized rest;
           initializationAttempts := initializationAttempts rest;
           waits := delay :: waits rest |}
  end.

Definition deferredInitializeWebSocket (io : nat -> bool) (connects : bool)
  : SocketSetup :=
  if io 0%nat
  then {| setup_socket := initializeWebSocket connects;
          setup_initialized := false;
          initializationAttempts := 0; waits := [] |}
  else checkSocketIO io connects maxInitializationAttempts 0 100%Q.

(** The socket part of [new APIService()], once the polling is over. *)
Definition construct (io : nat -> bool) (connects : bool) : Service :=
  let setup := deferredInitializeWebSocket io connects in
  {| socket := setup_socket setup;
     isWebSocketInitialized := setup_initialized setup;
     progressCallbacks := ∅;
     analysisCallbacks := ∅ |}.

(** *** The API key ([sanitizeApiKey], [getApiConfig]) *)

Record Credentials : Type := {
  apiKey : string;
  provider : string;
  hasApiKey : bool
}.

(** The configuration object of [GET /api/config], as far as it is read;
    [None] is a missing field. *)
Record Config : Type := {
  api_key : option string;
  cfg_provider : option string
}.

(** What [request('GET', '/api/config')] ends with; [ConfigOk None] is a
    falsy body. *)
Inductive ConfigReply : Type :=
| ConfigOk (config : option Config)
| ConfigErr (e : APIError).

(** [apiKey ? apiKey.trim() : ''] *)
Definition sanitizeApiKey (apiKey : string) : string :=
  if JS.truthy apiKey then JS.trim apiKey else EmptyString.

(** [getApiConfig]: the credentials afterwards, and the configuration
    returned or the error thrown again. *)
Definition getApiConfig (c : Credentials) (reply : ConfigReply)
  : Credentials * (option Config + APIError) :=
  match reply with
  | ConfigOk config =>
      let updated :=
        match config with
        | Some cfg =>
            match api_key cfg with
            | Some key =>
                if JS.truthy key
                then (sanitizeApiKey key,
                      match cfg_provider cfg with
                      | Some p => if JS.truthy p then p else provider c
                      | None => provider c
                      end)
                else (apiKey c, provider c)
            | None => (apiKey c, provider c)
            end
        | None => (apiKey c, provider c)
        end in
      ({| apiKey := fst updated;
          provider := snd updated;
          hasApiKey := JS.truthy (fst updated) && JS.truthy (JS.trim (fst updated)) |},
       inl config)
  | ConfigErr e =>
      ({| apiKey := apiKey c; provider := provider c; hasApiKey := false |}, inr e)
  end.

End APIService.

(** ** The session orchestrator (component AppContainer)

    The component is a state machine over the events of the single JavaScript
    thread.  Between two events React has rendered again and run the effects
    again, so an event handler installed by an effect reads the current
    state.  A closure that outlives its render does not: [handleAnalyze]
    is suspended at [await], and the callback it gave to [setTimeout] runs
    150 seconds later, both with the [isAnalyzing] and the
    [clearAnalysisTimeout] of the render in which [handleAnalyze] was
    created.  The model keeps what each such closure captured. *)

Module AppContainer.
Import APIService.

Inductive Results : Type :=
| ErrorResult (message details : string)   (* { error: true, message, details } *)
| Payload (results : string)               (* [data.results || data] of an event *)
| Initial (response : Response).           (* the first response, used as result *)

Record State : Type := {
  analysisResults : option Results;
  isAnalyzing : bool;
  currentSessionId : option string;
  progress : Z;
  statusMessage : string;
  analysisTimeoutId : option positive
}.

(** What a suspended call of [handleAnalyze] captured. *)
Record Closure : Type := {
  cap_isAnalyzing : bool;
  cap_analysisTimeoutId : option positive
}.

(** An armed [setTimeout]: its delay in milliseconds and its callback. *)
Record Timer : Type := {
  delay : Z;
  callback : Closure
}.

(** [timers] holds the timeouts of the component, those [handleAnalyze]
    arms.  The timers of the service (the abort timer of [makeRequest], the
    back-off sleeps of [request], the polling for Socket.IO) and the start-up
    timeout never touch this state: they show in what the network replies
    ([FirstResponse] with a 408 error), in [APIService.request],
    [APIService.checkSocketIO] and [checkApiKey]. *)
Record World : Type := {
  app : State;
  api : Service;
  timers : gmap positive Timer;        (* armed analysis timeouts *)
  next_timer : positive;
  inflight : gmap positive Closure;    (* calls waiting for the first response *)
  next_call : positive
}.

(** Payloads of the three socket events. *)
Record ProgressData : Type := {
  pd_session_id : string;
  pd_progress : Z;
  pd_message : string
}.

Record CompleteData : Type := {
  cd_session_id : string;
  cd_results : string
}.

Record ErrorData : Type := {
  ed_session_id : string;
  ed_error : string;
  ed_details : string
}.

Inductive Event : Type :=
| Analyze (text : string)                       (* the user submits *)
| FirstResponse (call : positive) (reply : Reply)
| TimerFires (id : positive)
| AnalysisProgress (data : ProgressData)
| AnalysisComplete (data : CompleteData)
| AnalysisError (data : ErrorData)
| SelectAnalysis
| BackToMainMenu.

Definition initial_state : State :=
  {| analysisResults := None; isAnalyzing := false; currentSessionId := None;
     progress := 0; statusMessage := EmptyString; analysisTimeoutId := None |}.

Definition set_app (w : World) (s : State) : World :=
  {| app := s; api := api w; timers := timers w; next_timer := next_timer w;
     inflight := inflight w; next_call := next_call w |}.

(** [x || fallback] on strings. *)
Definition or_else (x fallback : string) : string :=
  if JS.truthy x then x else fallback.

(** [clearAnalysisTimeout], with the [analysisTimeoutId] its render saw. *)
Definition clearAnalysisTimeout (seen : option positive) (w : World) : World :=
  match seen with
  | Some id =>
      {| app := {| analysisResults := analysisResults (app w);
                   isAnalyzing := isAnalyzing (app w);
                   currentSessionId := currentSessionId (app w);
                   progress := progress (app w);
                   statusMessage := statusMessage (app w);
                   analysisTimeoutId := None |};
         api := api w;
         timers := delete id (timers w);
         next_timer := next_timer w;
         inflight := inflight w;
         next_call := next_call w |}
  | None => w
  end.

Definition finish (w : World) (results : Results) (done : bool) : World :=
  set_app w
    {| analysisResults := Some results;
       isAnalyzing := false;
       currentSessionId := currentSessionId (app w);
       progress := if done then 100 else progress (app w);
       statusMessage := if done then "Analysis complete!" else statusMessage (app w);
       analysisTimeoutId := analysisTimeoutId (app w) |}.

(** [error.toString()] of an [APIError]. *)
Definition error_toString (error : APIError) : string :=
  if JS.truthy (message error)
  then String.append "APIError: " (message error)
  else "APIError".

(** The [catch] branch of [handleAnalyze]. *)
Definition start_failed (seen : Closure) (error : APIError) (w : World) : World :=
  let w := clearAnalysisTimeout (cap_analysisTimeoutId seen) w in
  finish w
    (ErrorResult
       (or_else (message error) "Failed to start analysis")
       (match originalError error with
        | Some json => json
        | None => error_toString error
        end))
    false.

(** [handleAnalyze] up to the call of [apiService.analyzeContent]. *)
Definition handleAnalyze_begin (w : World) : World * Closure :=
  let seen := {| cap_isAnalyzing := isAnalyzing (app w);
                 cap_analysisTimeoutId := analysisTimeoutId (app w) |} in
  let w := clearAnalysisTimeout (cap_analysisTimeoutId seen) w in
  let timeoutId := next_timer w in
  ({| app := {| analysisResults := None;
                isAnalyzing := true;
                currentSessionId := None;
                progress := 0;
                statusMessage := "Initiating analysis...";
                analysisTimeoutId := Some timeoutId |};
      api := api w;
      timers := <[timeoutId := {| delay := 150000; callback := seen |}]> (timers w);
      next_timer := Pos.succ timeoutId;
      inflight := inflight w;
      next_call := next_call w |},
   seen).

Definition handleAnalyze (text : string) (w : World) : World :=
  let '(w, seen) := handleAnalyze_begin w in
  if JS.truthy text && JS.truthy (JS.trim text)
  then {| app := app w; api := api w; timers := timers w;
          next_timer := next_timer w;
          inflight := <[next_call w := seen]> (inflight w);
          next_call := Pos.succ (next_call w) |}
  else start_failed seen
         {| message := "No text provided for analysis";
            status := Some 400%Z; originalError := None |} w.

(** [handleAnalyze] after [await]. *)
Definition handleAnalyze_resume (seen : Closure) (reply : Reply) (w : World)
  : World :=
  match reply with
  | Ok response =>
      let w := {| app := app w;
                  api := on_first_response (api w) response true;
                  timers := timers w; next_timer := next_timer w;
                  inflight := inflight w; next_call := next_call w |} in
      match session_id response with
      | Some sid =>
          if JS.truthy sid
          then set_app w
                 {| analysisResults := analysisResults (app w);
                    isAnalyzing := isAnalyzing (app w);
                    currentSessionId := Some sid;
                    progress := progress (app w);
                    statusMessage := statusMessage (app w);
                    analysisTimeoutId := analysisTimeoutId (app w) |}
          else finish (clearAnalysisTimeout (cap_analysisTimeoutId seen) w)
                      (Initial response) (negb (resp_error response))
      | None =>
          finish (clearAnalysisTimeout (cap_analysisTimeoutId seen) w)
                 (Initial response) (negb (resp_error response))
      end
  | Err error => start_failed seen error w
  end.

(** The callback given to [setTimeout]. *)
Definition on_timeout (seen : Closure) (w : World) : World :=
  if cap_isAnalyzing seen
  then finish w
         (ErrorResult
            "Analysis timed out. The server did not respond in time."
            "The analysis did not complete within the 150-second time limit.")
         false
  else w.

(** The listeners of the effect are attached when there is a socket and a
    current session; they compare the session of the event with it. *)
Definition listening (w : World) (sid : string) : bool :=
  socket (api w) &&
  match currentSessionId (app w) with
  | Some current => JS.truthy current && String.eqb sid current
  | None => false
  end.

Definition handleAnalysisComplete (data : CompleteData) (w : World) : World :=
  if listening w (cd_session_id data)
  then finish (clearAnalysisTimeout (analysisTimeoutId (app w)) w)
              (Payload (cd_results data)) true
  else w.

Definition handleAnalysisError (data : ErrorData) (w : World) : World :=
  if listening w (ed_session_id data)
  then finish (clearAnalysisTimeout (analysisTimeoutId (app w)) w)
              (ErrorResult
                 (or_else (ed_error data) "An unknown error occurred during analysis.")
                 (ed_details data))
              false
  else w.

(** The [onProgress] closure. *)
Definition onProgress (data : ProgressData) (w : World) : World :=
  set_app w
    {| analysisResults := analysisResults (app w);
       isAnalyzing := isAnalyzing (app w);
       currentSessionId := currentSessionId (app w);
       progress := pd_progress data;
       statusMessage := or_else (pd_message data) "Analysis in progress...";
       analysisTimeoutId := analysisTimeoutId (app w) |}.

Definition with_api (w : World) (a : Service) : World :=
  {| app := app w; api := a; timers := timers w; next_timer := next_timer w;
     inflight := inflight w; next_call := next_call w |}.

Definition step (w : World) (e : Event) : World :=
  match e with
  | Analyze text => handleAnalyze text w
  | FirstResponse call reply =>
      match inflight w !! call with
      | Some seen =>
          handleAnalyze_resume seen reply
            {| app := app w; api := api w; timers := timers w;
               next_timer := next_timer w;
               inflight := delete call (inflight w);
               next_call := next_call w |}
      | None => w
      end
  | TimerFires id =>
      match timers w !! id with
      | Some timer =>
          on_timeout (callback timer)
            {| app := app w; api := api w; timers := delete id (timers w);
               next_timer := next_timer w; inflight := inflight w;
               next_call := next_call w |}
      | None => w
      end
  | AnalysisProgress data =>
      if socket (api w)
      then match progressCallbacks (api w) !! pd_session_id data with
           | Some OnProgress => onProgress data w
           | None => w
           end
      else w
  | AnalysisComplete data =>
      if socket (api w)
      then handleAnalysisComplete data
             (with_api w (on_terminal_event (api w) (cd_session_id data)))
      else w
  | AnalysisError data =>
      if socket (api w)
      then handleAnalysisError data
             (with_api w (on_terminal_event (api w) (ed_session_id data)))
      else w
  | SelectAnalysis =>
      set_app w
        {| analysisResults := None;
           isAnalyzing := isAnalyzing (app w);
           currentSessionId := currentSessionId (app w);
           progress := progress (app w);
           statusMessage := statusMessage (app w);
           analysisTimeoutId := analysisTimeoutId (app w) |}
  | BackToMainMenu =>
      clearAnalysisTimeout (analysisTimeoutId (app w))
        (set_app w
           {| analysisResults := None; isAnalyzing := false;
              currentSessionId := None; progress := 0;
              statusMessage := EmptyString;
              analysisTimeoutId := analysisTimeoutId (app w) |})
  end.

Definition run (w : World) (events : list Event) : World :=
  foldl step w events.

(** The page after loading: nothing submitted, no timer, empty registries. *)
Definition loaded (socket ready : bool) : World :=
  {| app := initial_state;
     api := {| APIService.socket := socket; isWebSocketInitialized := ready;
               progressCallbacks := ∅; analysisCallbacks := ∅ |};
     timers := ∅; next_timer := 1%positive;
     inflight := ∅; next_call := 1%positive |}.

(** *** Start-up: the effect that checks the API key

    [Promise.race] settles with [getApiConfig] or, after 10 seconds, with the
    rejection of the timeout promise. *)

Inductive Startup : Type :=
| ConfigArrives (reply : ConfigReply)
| InitializationTimeout.

Record Gate : Type := {
  gate_hasApiKey : bool;            (* the state [hasApiKey] *)
  isInitializing : bool
}.

(** The state before the effect has finished. *)
Definition initial_gate : Gate :=
  {| gate_hasApiKey := false; isInitializing := true |}.

Definition checkApiKey (c : Credentials) (s : Startup) : Gate :=
  match s with
  | ConfigArrives reply =>
      match getApiConfig c reply with
      | (c', inl _) => {| gate_hasApiKey := hasApiKey c'; isInitializing := false |}
      | (_, inr _) => {| gate_hasApiKey := false; isInitializing := false |}
      end
  | InitializationTimeout => {| gate_hasApiKey := false; isInitializing := false |}
  end.

End AppContainer.

(** * Vocabulary of the properties

    The notions the statements below are written with, and the sample inputs
    they are evaluated on. *)

Module Vocabulary.

(** ** Classifier *)

Definition unit_interval (q : Q) : Prop := (0 <= q /\ q <= 1)%Q.

(** The three score tables of a text, as [classifyContent] computes them. *)
Definition category_scores (text : string) : list Q :=
  map (fun nd => ContentClassifier.cat_score (snd nd))
      (ContentClassifier.detectCategories (ContentClassifier.normalizeText text)).
Definition topic_scores (text : string) : list Q :=
  map (fun nd => ContentClassifier.topic_score (snd nd))
      (ContentClassifier.analyzeTopics (ContentClassifier.normalizeText text)).
Definition style_scores (text : string) : list Q :=
  map (fun nd => ContentClassifier.style_score (snd nd))
      (ContentClassifier.analyzeStyle (ContentClassifier.normalizeText text)).

(** The weights of the topics, in the order of the table. *)
Definition topic_weights : list Q :=
  map (fun nc => JS.double (ContentClassifier.topic_weight (snd nc)))
      ContentClassifier.TOPIC_INDICATORS.

(** The number a finite machine double denotes. *)
Definition Q_of_float (f : float) : option Q :=
  match Prim2SF f with
  | S754_zero _ => Some 0%Q
  | S754_finite negative m e =>
      let v := if (0 <=? e)%Z then Qmake (Zpos m * 2 ^ e) 1
               else Qmake (Zpos m) (Z.to_pos (2 ^ (- e))) in
      Some (if negative then Qopp v else v)
  | _ => None
  end.

Definition float_of_nat (n : nat) : float := of_uint63 (Uint63.of_Z (Z.of_nat n)).

(** The score expression of [detectCategories], evaluated by the machine. *)
Definition machine_category_score (d nd c nc : nat) : float :=
  ((float_of_nat d / float_of_nat nd) * 0x1.3333333333333p-1
   + (float_of_nat c / float_of_nat nc) * 0x1.999999999999ap-2)%float.

(** The score expression of [analyzeTopics], evaluated by the machine. *)
Definition machine_topic_score (k n : nat) (weight : float) : float :=
  ((float_of_nat k / float_of_nat n) * weight)%float.

(** A list of [total] phrases of which exactly [matched] occur in the empty
    text. *)
Definition phrases (matched total : nat) : list string :=
  repeat EmptyString matched ++ repeat "x" (total - matched).

(** Both numbers are defined and equal. *)
Definition same_number (machine : option Q) (q : Q) : bool :=
  match machine with
  | Some m => Qeq_bool m q
  | None => false
  end.

(** [lo <= q <= hi], as a test. *)
Definition within (lo hi q : Q) : bool := Qle_bool lo q && Qle_bool q hi.

(** Every score of the three tables lies in [0,1]. *)
Definition all_scores_in_unit_interval (text : string) : Prop :=
  Forall unit_interval (category_scores text) /\
  Forall unit_interval (topic_scores text) /\
  Forall unit_interval (style_scores text).

(** Empty, or made of white space only. *)
Fixpoint blank (s : string) : bool :=
  match s with
  | EmptyString => true
  | String c s' => JS.is_space c && blank s'
  end.

(** Two comments that share their first 100 characters and then part ways. *)
Definition long_comment_1 : string :=
  "Over the last few months I have been going back and forth on this, and I keep returning to one point: I need help, please help, any advice or guidance on what should I do; suggestions welcome.".
Definition long_comment_2 : string :=
  "Over the last few months I have been going back and forth on this, and I keep returning to one point: my boss at work.".

(** A caller that passes no options: [JSON.stringify({})]. *)
Definition stringify_empty : unit -> string := fun _ => "{}".

(** ** Risk assessor *)

(** The patterns of one family of a pattern table. *)
Definition family (table : list (string * list Regex.pattern)) (key : string)
  : list Regex.pattern :=
  default [] (JS.get table key).

(** Some pattern of the family matches the content. *)
Definition matches_family (table : list (string * list Regex.pattern))
           (key content : string) : bool :=
  existsb (fun p => Regex.test p content) (family table key).

(** The environment of the sample calls. *)
Definition sample_env : InterventionManager.Env :=
  {| InterventionManager.startTime := 1700000000000;
     InterventionManager.createdAt := 1700000000001;
     InterventionManager.finishedAt := 1700000000005;
     InterventionManager.recordedAt := 1700000000006;
     InterventionManager.generatedSessionId := "session_1700000000000_k3j9x2m1q" |}.

Definition no_context : InterventionManager.Context :=
  {| InterventionManager.ctx_sessionId := None |}.

(** The sentence of the end-to-end scenario. *)
Definition hopeless : string :=
  "I feel so hopeless and worthless, nothing matters anymore".

(** ** Retry policy *)

(** The delays before the retries number [first], [first + 1], ...,
    [first + k - 1]: the retry number [i] waits [base * 2^(i-1)]. *)
Definition backoff (base : Q) (first k : nat) : list Q :=
  map (fun i => (base * inject_Z (2 ^ (Z.of_nat i - 1)))%Q) (seq first k).

(** The [k] calls from number [from] on all fail with a retryable error. *)
Definition retryable_failures (network : nat -> APIService.Reply) (from k : nat)
  : Prop :=
  forall j, (j < k)%nat ->
    exists e, network (from + j)%nat = APIService.Err e /\
              APIService.isRetryable e = true.

(** At most three calls, with 1000 ms and then 2000 ms between them. *)
Definition within_three_attempts (r : APIService.Run) : Prop :=
  (APIService.calls r <= 3)%nat /\
  APIService.sleeps r = firstn (APIService.calls r - 1) [1000; 2000]%Q.

(** A backend that answers every call with 503, and one that answers 404. *)
Definition unavailable : APIService.APIError :=
  {| APIService.message := "Service Unavailable";
     APIService.status := Some 503%Z; APIService.originalError := None |}.
Definition not_found : APIService.APIError :=
  {| APIService.message := "Not Found";
     APIService.status := Some 404%Z; APIService.originalError := None |}.
Definition always (e : APIService.APIError) : nat -> APIService.Reply :=
  fun _ => APIService.Err e.

Definition five_attempts : APIService.RequestOptions :=
  {| APIService.queued := false;
     APIService.opt_retryAttempts := Some 5%Q;
     APIService.opt_retryDelay := None |}.

Definition through_the_queue : APIService.RequestOptions :=
  {| APIService.queued := true;
     APIService.opt_retryAttempts := None;
     APIService.opt_retryDelay := None |}.

(** A caller that passes [retryAttempts: -1], and one that passes 2.5. *)
Definition no_attempt : APIService.RequestOptions :=
  {| APIService.queued := false;
     APIService.opt_retryAttempts := Some (-1)%Q;
     APIService.opt_retryDelay := None |}.
Definition two_and_a_half : APIService.RequestOptions :=
  {| APIService.queued := false;
     APIService.opt_retryAttempts := Some 2.5%Q;
     APIService.opt_retryDelay := None |}.

(** What holds of the request queue in every state it can reach: the
    requests waiting and the requests passed to [makeRequest] are all
    different and have been handed out; no waiting request, no request being
    called and no request to come has settled. *)
Definition queue_ok (q : APIService.Queue) : Prop :=
  NoDup (APIService.requestQueue q ++ APIService.passed q) /\
  (forall id, id ∈ APIService.requestQueue q ++ APIService.passed q ->
     (id < APIService.next_request q)%nat) /\
  (forall id, id ∈ APIService.requestQueue q ->
     APIService.promises q !! id = None) /\
  (forall id, APIService.processor q = APIService.Calling id ->
     APIService.promises q !! id = None /\ id ∈ APIService.passed q) /\
  (forall id, (APIService.next_request q <= id)%nat ->
     APIService.promises q !! id = None).

(** ** Orchestrator *)

(** The session a completion or error event is about. *)
Definition terminal_session (e : AppContainer.Event) : option string :=
  match e with
  | AppContainer.AnalysisComplete data => Some (AppContainer.cd_session_id data)
  | AppContainer.AnalysisError data => Some (AppContainer.ed_session_id data)
  | _ => None
  end.

(** The first response of an asynchronous analysis. *)
Definition started (sid : string) : APIService.Reply :=
  APIService.Ok {| APIService.resp_status := "started";
                   APIService.session_id := Some sid;
                   APIService.resp_error := false;
                   APIService.body := "{status: started}" |}.

(** The page with a working socket, after the user submitted a text from
    the idle state and the server answered with session "s1". *)
Definition waiting_for_s1 : AppContainer.World :=
  AppContainer.run (AppContainer.loaded true true)
    [AppContainer.Analyze "We argued again last night. What should I do?";
     AppContainer.FirstResponse 1 (started "s1")].

(** ** Further notions *)

(** Some crisis pattern, of any family, matches the content. *)
Definition any_crisis_match (content : string) : bool :=
  existsb (fun kp => Regex.test (snd kp) content)
          (InterventionManager.entries InterventionManager.crisisPatterns).

(** [l.length > 0] *)
Definition nonempty {A : Type} (l : list A) : bool :=
  match l with [] => false | _ => true end.

(** The numeric level of a risk level in [RISK_LEVELS]. *)
Definition level_of (r : InterventionManager.RiskLevel) : nat :=
  InterventionManager.level (InterventionManager.RISK_LEVELS r).

(** The message appended for trolling. *)
Definition trolling_message : InterventionManager.Trigger :=
  InterventionManager.CustomMessage "If you're trolling, you'll keep seeing this.".

(** Some character of the string satisfies [P]. *)
Fixpoint some_char (P : ascii -> bool) (s : string) : bool :=
  match s with
  | EmptyString => false
  | String c s' => P c || some_char P s'
  end.

(** A character that is neither white space nor the end of a sentence. *)
Definition solid (c : ascii) : bool :=
  negb (ContentClassifier.is_sentence_end c) && negb (JS.is_space c).

(** The sum of the waits of a run. *)
Definition total_wait (r : APIService.Run) : Q :=
  foldr Qplus 0%Q (APIService.sleeps r).

(** Socket.IO is never defined, or defined from the poll number [k] on. *)
Definition never_defined : nat -> bool := fun _ => false.
Definition defined_from (k : nat) : nat -> bool := fun n => (k <=? n)%nat.

(** ** Invariants of the orchestrator *)

(** Every armed timer is a 150-second timer with an id already handed out,
    and so is the timer the state refers to. *)
Definition timers_ok (w : AppContainer.World) : Prop :=
  (forall id t, AppContainer.timers w !! id = Some t ->
     (id < AppContainer.next_timer w)%positive /\
     AppContainer.delay t = 150000%Z) /\
  (forall id, AppContainer.analysisTimeoutId (AppContainer.app w) = Some id ->
     (id < AppContainer.next_timer w)%positive).

(** Every call in flight has an id already handed out. *)
Definition inflight_ok (w : AppContainer.World) : Prop :=
  forall id c, AppContainer.inflight w !! id = Some c ->
    (id < AppContainer.next_call w)%positive.

(** A session has a progress callback exactly when it has a completion
    callback. *)
Definition registries_paired (a : APIService.Service) : Prop :=
  forall sid, APIService.progressCallbacks a !! sid = None <->
              APIService.analysisCallbacks a !! sid = None.

Definition invariant (w : AppContainer.World) : Prop :=
  timers_ok w /\ inflight_ok w /\ registries_paired (AppContainer.api w).

(** A result or an error is on display only while no analysis is marked as
    running. *)
Definition results_when_idle (s : AppContainer.State) : Prop :=
  AppContainer.analysisResults s = None \/ AppContainer.isAnalyzing s = false.

(** Callbacks are registered under non-empty session ids only. *)
Definition sessions_named (a : APIService.Service) : Prop :=
  forall sid, is_Some (APIService.analysisCallbacks a !! sid) ->
              JS.truthy sid = true.

Definition s1_done : AppContainer.CompleteData :=
  {| AppContainer.cd_session_id := "s1";
     AppContainer.cd_results := "{summary: done}" |}.

Definition s1_failed : AppContainer.ErrorData :=
  {| AppContainer.ed_session_id := "s1";
     AppContainer.ed_error := EmptyString;
     AppContainer.ed_details := "model unavailable" |}.

(** A first response that is the whole result. *)
Definition immediate : APIService.Response :=
  {| APIService.resp_status := "success";
     APIService.session_id := None;
     APIService.resp_error := false;
     APIService.body := "{summary: done}" |}.

(** The result the timeout callback sets. *)
Definition timeout_error : AppContainer.Results :=
  AppContainer.ErrorResult
    "Analysis timed out. The server did not respond in time."
    "The analysis did not complete within the 150-second time limit.".

(** The string is empty or starts, respectively ends, with a character that
    is not white space. *)
Definition starts_solid (s : string) : bool :=
  match s with
  | EmptyString => true
  | String c _ => negb (JS.is_space c)
  end.

Fixpoint ends_solid (s : string) : bool :=
  match s with
  | EmptyString => true
  | String c s' =>
      match s' with
      | EmptyString => negb (JS.is_space c)
      | String _ _ => ends_solid s'
      end
  end.

End Vocabulary.
Import Vocabulary.

(** * Properties *)


(** ** Regular expressions: sample matches *)

Section SampleMatches.
Import Regex.

(** The first pattern of the family activeSuicideIntent. *)
Definition suicide_intent : pattern :=
  nth 0 (family InterventionManager.crisisPatterns "activeSuicideIntent")
      (pi EmptyString Eps).

Example match_ignores_case :
  match0 suicide_intent "well, i WANT to kill myself." = Some "i WANT to kill myself".
Proof. reflexivity. Qed.

(** [\b] keeps the pattern from starting inside a word. *)
Example match_respects_word_boundary :
  test suicide_intent "Hi want to kill myself" = false.
Proof. reflexivity. Qed.

(** [\s+] takes the whole run of blanks, [(thing)?] is optional. *)
Example match_optional_and_plus :
  map (fun s => match0 (nth 1 (family InterventionManager.concernPatterns "depression")
                            (pi EmptyString Eps)) s)
      ["nothing   matters"; "no matters"; "nothingmatters"]
  = [Some "nothing   matters"; Some "no matters"; None].
Proof. reflexivity. Qed.

(** A [g] pattern counts its successive matches; a pattern without [g] counts
    the match and its groups. *)
Example match_length_global :
  map (fun p => match_length p "what?! really?? so, so tired!!! and again!!")
      (ContentClassifier.patterns
         (default {| ContentClassifier.patterns := [];
                     ContentClassifier.style_weight := 0 |}
                  (JS.get ContentClassifier.STYLE_FEATURES "EMOTIONAL")))
  = [2; 1; 1; 1]%nat.
Proof. reflexivity. Qed.

End SampleMatches.

(** ** Classifier: scores *)

Section ClassifierScores.
Import ContentClassifier.
Local Open Scope Q_scope.

Lemma of_nat_nonneg (n : nat) : 0 <= JS.of_nat n.
Proof.
  unfold JS.of_nat, Qle; simpl. lia.
Qed.

Lemma of_nat_pos (n : nat) : (0 < n)%nat -> 0 < JS.of_nat n.
Proof.
  intros Hn. unfold JS.of_nat, Qlt; simpl. lia.
Qed.

Lemma of_nat_le (m n : nat) : (m <= n)%nat -> JS.of_nat m <= JS.of_nat n.
Proof.
  intros Hmn. unfold JS.of_nat, Qle; simpl. lia.
Qed.

Lemma matching_length (text : string) (phrases : list string) :
  (length (matching text phrases) <= length phrases)%nat.
Proof.
  unfold matching. apply length_filter.
Qed.

(** *** Rounding *)

Lemma pow2_pos (z : Z) : (0 < JS.pow2 z)%Z.
Proof. unfold JS.pow2. apply Z.pow_pos_nonneg; lia. Qed.

Lemma round_half_even_nonneg (a b : Z) :
  (0 <= a)%Z -> (0 < b)%Z -> (0 <= JS.round_half_even a b)%Z.
Proof.
  intros Ha Hb. unfold JS.round_half_even.
  pose proof (Z.div_pos a b Ha Hb).
  destruct (2 * (a mod b) ?= b)%Z; [destruct (Z.even _)| |]; lia.
Qed.

Lemma round_pos_nonneg (n d : positive) : 0 <= JS.round_pos n d.
Proof.
  unfold JS.round_pos, Qle. cbn [Qnum Qden]. rewrite Z.mul_1_r, Z.mul_0_l.
  apply Z.mul_nonneg_nonneg.
  - apply round_half_even_nonneg.
    + pose proof (pow2_pos (52 - JS.exponent n d)). lia.
    + pose proof (pow2_pos (- (52 - JS.exponent n d))). lia.
  - pose proof (pow2_pos (- (52 - JS.exponent n d))). lia.
Qed.

(** Rounding keeps the sign, and keeps 0. *)
Lemma double_nonneg (q : Q) : 0 <= q -> 0 <= JS.double q.
Proof.
  intros Hq. unfold JS.double. destruct q as [[|n|n] d]; cbn [Qnum Qden].
  - apply Qle_refl.
  - apply round_pos_nonneg.
  - unfold Qle in Hq. cbn in Hq. lia.
Qed.

Lemma double_zero (q : Q) : q == 0 -> JS.double q = 0.
Proof.
  intros Hq. unfold JS.double. destruct q as [[|n|n] d]; cbn [Qnum Qden].
  - reflexivity.
  - unfold Qeq in Hq. cbn in Hq. lia.
  - unfold Qeq in Hq. cbn in Hq. lia.
Qed.

Lemma fmul_nonneg (x y : Q) : 0 <= x -> 0 <= y -> 0 <= JS.fmul x y.
Proof. intros Hx Hy. apply double_nonneg. now apply Qmult_le_0_compat. Qed.

Lemma fadd_nonneg (x y : Q) : 0 <= x -> 0 <= y -> 0 <= JS.fadd x y.
Proof.
  intros Hx Hy. apply double_nonneg.
  rewrite <- (Qplus_0_l 0). now apply Qplus_le_compat.
Qed.

Lemma fdiv_nonneg (x y : Q) : 0 <= x -> 0 < y -> 0 <= JS.fdiv x y.
Proof.
  intros Hx Hy. apply double_nonneg.
  apply Qle_shift_div_l; [exact Hy|]. now rewrite Qmult_0_l.
Qed.

(** The scores of the category table of the source: three ninths of the
    descriptors of one category score less than three sixths of the context
    markers of another, although both are 0.2 as exact numbers. *)
Example rounding_splits_a_tie :
  JS.fmul (JS.fdiv 3 9) (JS.double 0.6) < JS.fmul (JS.fdiv 3 6) (JS.double 0.4) /\
  JS.fmul (JS.fdiv 3 6) (JS.double 0.4) == JS.double 0.2 /\
  (3 / 9) * 0.6 == (3 / 6) * 0.4.
Proof. split; [|split]; reflexivity. Qed.

(** The rounding is that of the machine: for every number of matched
    descriptors and context markers that a table of the source allows (7 and
    8, 9 and 6, 8 and 6 phrases), the category score of the model is the
    number the binary64 unit computes for the expression of the source, where
    0.6 and 0.4 are the doubles 0x1.3333333333333p-1 and
    0x1.999999999999ap-2; and likewise for the topic scores. *)
Example category_scores_are_binary64 :
  forallb (fun '(nd, nc) =>
    forallb (fun d =>
      forallb (fun c =>
        same_number
          (Q_of_float (machine_category_score d nd c nc))
          (cat_score (category_data EmptyString
             {| label := EmptyString;
                descriptors := phrases d nd;
                contextMarkers := phrases c nc |})))
        (seq 0 (S nc)))
      (seq 0 (S nd)))
    [(7, 8); (9, 6); (8, 6)]%nat = true.
Proof. vm_compute. reflexivity. Qed.

Example topic_scores_are_binary64 :
  forallb (fun '(n, weight, machine_weight) =>
    forallb (fun k =>
      same_number
        (Q_of_float (machine_topic_score k n machine_weight))
        (topic_score (topic_data EmptyString
           {| keywords := phrases k n; topic_weight := weight |})))
      (seq 0 (S n)))
    [(7%nat, 1.5, 0x1.8p+0%float);
     (7%nat, 1.2, 0x1.3333333333333p+0%float);
     (7%nat, 1.3, 0x1.4cccccccccccdp+0%float);
     (6%nat, 1.1, 0x1.199999999999ap+0%float)] = true.
Proof. vm_compute. reflexivity. Qed.

(** *** Properties checked on every number of matches *)

Lemma within_spec (lo hi q : Q) : within lo hi q = true -> lo <= q /\ q <= hi.
Proof.
  unfold within. intros [H1 H2]%andb_prop. split; now apply Qle_bool_iff.
Qed.

Lemma upto_check (P : nat -> bool) (n : nat) :
  forallb P (seq 0 (S n)) = true -> forall k, (k <= n)%nat -> P k = true.
Proof.
  intros H k Hk. rewrite forallb_forall in H. apply H.
  apply in_seq. lia.
Qed.

Lemma upto_check2 (P : nat -> nat -> bool) (n m : nat) :
  forallb (fun d => forallb (P d) (seq 0 (S m))) (seq 0 (S n)) = true ->
  forall d c, (d <= n)%nat -> (c <= m)%nat -> P d c = true.
Proof.
  intros H d c Hd Hc.
  apply (upto_check (P d) m); [|exact Hc].
  exact (upto_check (fun d => forallb (P d) (seq 0 (S m))) n H d Hd).
Qed.

Lemma category_score_unit (text : string) (config : Category) :
  In config (map snd CATEGORIES) ->
  unit_interval (cat_score (category_data text config)).
Proof.
  intros Hin. unfold category_data; cbn [cat_score].
  pose proof (matching_length text (descriptors config)) as Hd.
  pose proof (matching_length text (contextMarkers config)) as Hc.
  revert Hd Hc.
  generalize (length (matching text (descriptors config))) as d.
  generalize (length (matching text (contextMarkers config))) as c.
  cbn in Hin.
  repeat (destruct Hin as [<-|Hin]; [cbn [descriptors contextMarkers length]; intros c d Hd Hc; apply within_spec; revert d c Hd Hc; apply upto_check2; vm_compute; reflexivity|]).
  destruct Hin.
Qed.

Lemma topic_score_bounds (text : string) (config : TopicIndicator) :
  In config (map snd TOPIC_INDICATORS) ->
  0 <= topic_score (topic_data text config) /\
  topic_score (topic_data text config) <= JS.double (topic_weight config).
Proof.
  intros Hin. unfold topic_data; cbn [topic_score].
  pose proof (matching_length text (keywords config)) as Hk.
  revert Hk.
  generalize (length (matching text (keywords config))) as k.
  cbn in Hin.
  repeat (destruct Hin as [<-|Hin]; [cbn [keywords topic_weight length]; intros k Hk; apply within_spec; revert k Hk; apply upto_check; vm_compute; reflexivity|]).
  destruct Hin.
Qed.

Lemma style_score_unit (text : string) (config : StyleFeature) :
  0 <= style_weight config ->
  unit_interval (style_score (style_data text config)).
Proof.
  intros Hw. unfold style_data; cbn [style_score]. split.
  - apply Q.min_glb; [|discriminate].
    apply fdiv_nonneg; [|reflexivity].
    apply fmul_nonneg; [apply of_nat_nonneg | now apply double_nonneg].
  - apply Q.le_min_r.
Qed.

Lemma category_scores_unit (text : string) :
  Forall unit_interval (category_scores text).
Proof.
  unfold category_scores, detectCategories. rewrite map_map.
  apply Forall_forall. intros q Hq. apply list_elem_of_In, in_map_iff in Hq.
  destruct Hq as [[name config] [<- Hin]]. cbn [snd].
  apply category_score_unit, in_map_iff. now exists (name, config).
Qed.

Lemma style_scores_unit (text : string) :
  Forall unit_interval (style_scores text).
Proof.
  unfold style_scores, analyzeStyle, STYLE_FEATURES. cbn [map snd].
  repeat constructor; apply style_score_unit; cbn; discriminate.
Qed.

Lemma topic_scores_bounded (text : string) :
  Forall2 (fun q w => 0 <= q /\ q <= w) (topic_scores text) topic_weights.
Proof.
  unfold topic_scores, topic_weights, analyzeTopics, TOPIC_INDICATORS.
  cbn [map snd].
  repeat constructor; apply topic_score_bounds; cbn; auto 6.
Qed.

(** C4, counterexample: five of the seven SUPPORT_SEEKING keywords occur in
    this text, so that topic scores (5/7) * 1.5, which is above 1. *)
Lemma C4_topic_score_above_one :
  ~ all_scores_in_unit_interval "I need help, please help: any advice or guidance?".
Proof.
  intros (_ & Htopics & _).
  apply Forall_inv in Htopics. destruct Htopics as [_ Hle].
  vm_compute in Hle. apply Hle. reflexivity.
Qed.

(** C4, as amended: for every input text, the empty string included, every
    category score and every style score lies in [0,1]; every topic score is
    at least 0 and at most the weight of its own topic (1.5, 1.2, 1.3 and 1.1
    in the order of the table), hence at most 1.5; topic scores are not
    clamped to 1, and do exceed it. *)
Theorem C4_scores_bounded (text : string) :
  Forall unit_interval (category_scores text) /\
  Forall2 (fun q weight => 0 <= q /\ q <= weight) (topic_scores text) topic_weights /\
  topic_weights = map JS.double [1.5; 1.2; 1.3; 1.1] /\
  Forall (fun q => 0 <= q /\ q <= 1.5) (topic_scores text) /\
  Forall unit_interval (style_scores text).
Proof.
  pose proof (topic_scores_bounded text) as Htopics.
  split; [apply category_scores_unit|].
  split; [exact Htopics|].
  split; [reflexivity|].
  split; [|apply style_scores_unit].
  assert (Hweights : Forall (fun w => w <= 1.5) topic_weights)
    by (repeat constructor; vm_compute; discriminate).
  revert Htopics Hweights. generalize (topic_scores text), topic_weights.
  induction 1 as [|q w qs ws [H0 Hw] _ IH]; intros Hws; constructor.
  - apply Forall_inv in Hws. split; [exact H0|]. now apply Qle_trans with w.
  - apply IH. now apply Forall_inv_tail in Hws.
Qed.

End ClassifierScores.

(** ** Classifier: metrics of a blank text *)

Section ClassifierMetrics.
Import ContentClassifier.

Lemma trimStart_blank (s : string) : blank s = true -> JS.trimStart s = EmptyString.
Proof.
  induction s as [|c s IH]; cbn; [reflexivity|].
  intros [Hc Hs]%andb_prop. rewrite Hc. auto.
Qed.

Lemma normalizeText_blank (s : string) :
  blank s = true -> normalizeText s = EmptyString.
Proof.
  intros Hs. unfold normalizeText, JS.trim.
  rewrite (trimStart_blank s Hs). reflexivity.
Qed.

Lemma tokenize_empty : tokenize EmptyString = [].
Proof. reflexivity. Qed.

Lemma splitSentences_empty : splitSentences EmptyString = [].
Proof. reflexivity. Qed.

Lemma insert_by_score_cons (x : string * CategoryData) (l : list (string * CategoryData)) :
  exists y l', insert_by_score x l = y :: l'.
Proof.
  destruct l as [|y l]; cbn; [eauto|].
  destruct (Qlt_le_dec _ _); eauto.
Qed.

(** The ranking always has a first element, so [classify] never throws. *)
Lemma classify_returns (text : string) (now : Z) :
  exists result, classify text now = JS.Returns result.
Proof.
  unfold classify.
  destruct (sort_by_score (detectCategories (normalizeText text))) as [|x l] eqn:E.
  - exfalso. unfold detectCategories, CATEGORIES, sort_by_score in E.
    cbn [map foldr] in E.
    match type of E with
    | insert_by_score ?x ?l = [] =>
        destruct (insert_by_score_cons x l) as (y & l' & H); congruence
    end.
  - eauto.
Qed.

Lemma Returns_inj {A : Type} (a b : A) : JS.Returns a = JS.Returns b -> a = b.
Proof. now intros [= ->]. Qed.

Lemma classify_metrics (text : string) (now : Z) (result : ClassificationResult) :
  classify text now = JS.Returns result ->
  metrics result =
    calculateMetrics (tokenize (normalizeText text))
                     (splitSentences (normalizeText text)).
Proof.
  unfold classify.
  destruct (sort_by_score _); [discriminate|].
  intros H%Returns_inj. subst result. reflexivity.
Qed.

Context {Options : Type} (JSON_stringify : Options -> string).

Lemma classifyContent_miss (cache : gmap string ClassificationResult)
      (text : string) (options : Options) (now : Z) :
  cache !! getCacheKey JSON_stringify text options = None ->
  exists result,
    classify text now = JS.Returns result /\
    classifyContent JSON_stringify cache text options now =
      (JS.Returns result,
       <[getCacheKey JSON_stringify text options := result]> cache).
Proof.
  intros Hmiss. destruct (classify_returns text now) as [result Hr].
  exists result. split; [exact Hr|].
  unfold classifyContent, classifyContent_begin. rewrite Hmiss.
  unfold classifyContent_resume. cbn [s_text s_cacheKey]. rewrite Hr. reflexivity.
Qed.

Lemma classifyContent_hit (cache : gmap string ClassificationResult)
      (text : string) (options : Options) (now : Z) (cached : ClassificationResult) :
  cache !! getCacheKey JSON_stringify text options = Some cached ->
  classifyContent JSON_stringify cache text options now = (JS.Returns cached, cache).
Proof.
  intros Hhit. unfold classifyContent, classifyContent_begin. now rewrite Hhit.
Qed.

(** C10: for an empty or white-space-only text the word list and the
    sentence list are empty, [calculateMetrics] divides 0 by 0 twice, and
    [classifyContent], when it computes the result, returns metrics whose
    averageWordLength and averageSentenceLength are both NaN. *)
Theorem C10_blank_text_metrics_are_NaN
        (cache : gmap string ClassificationResult)
        (text : string) (options : Options) (now : Z) :
  blank text = true ->
  cache !! getCacheKey JSON_stringify text options = None ->
  exists result,
    fst (classifyContent JSON_stringify cache text options now) = JS.Returns result /\
    wordCount (metrics result) = 0%nat /\
    sentenceCount (metrics result) = 0%nat /\
    averageWordLength (metrics result) = JS.NaN /\
    averageSentenceLength (metrics result) = JS.NaN.
Proof.
  intros Hblank Hmiss.
  destruct (classifyContent_miss cache text options now Hmiss) as (result & Hr & Hc).
  exists result. rewrite Hc. split; [reflexivity|].
  rewrite (classify_metrics _ _ _ Hr), (normalizeText_blank _ Hblank).
  repeat split.
Qed.

End ClassifierMetrics.

(** C10, witness: three blanks and a tab, classified with an empty cache. *)
Lemma C10_blank_text_witness :
  exists result,
    fst (ContentClassifier.classifyContent stringify_empty ∅
           "   	" tt 1700000000000%Z) = JS.Returns result /\
    ContentClassifier.wordCount (ContentClassifier.metrics result) = 0%nat /\
    ContentClassifier.sentenceCount (ContentClassifier.metrics result) = 0%nat /\
    ContentClassifier.averageWordLength (ContentClassifier.metrics result) = JS.NaN /\
    ContentClassifier.averageSentenceLength (ContentClassifier.metrics result) = JS.NaN.
Proof.
  apply (C10_blank_text_metrics_are_NaN stringify_empty ∅ "   	" tt).
  - reflexivity.
  - reflexivity.
Defined.

(** ** Classifier: the cache *)

Section ClassifierCache.
Import ContentClassifier.
Context {Options : Type} (JSON_stringify : Options -> string).

Lemma classifyContent_cached_after (cache : gmap string ClassificationResult)
      (text : string) (options : Options) (now : Z) :
  exists result,
    fst (classifyContent JSON_stringify cache text options now) = JS.Returns result /\
    snd (classifyContent JSON_stringify cache text options now)
      !! getCacheKey JSON_stringify text options = Some result.
Proof.
  destruct (cache !! getCacheKey JSON_stringify text options) as [cached|] eqn:E.
  - exists cached. now rewrite (classifyContent_hit _ _ _ _ _ _ E).
  - destruct (classifyContent_miss JSON_stringify cache text options now E)
      as (result & _ & ->).
    exists result. cbn. now rewrite lookup_insert_eq.
Qed.

(** C7: a second call with the same text and options returns the very
    result of the first call, timestamp included, whatever the clock reads
    by then, and leaves the cache as it was (nothing is computed or
    stored); after [clearCache] the next call computes the result anew. *)
Theorem C7_cache_hit_and_clear
        (cache : gmap string ClassificationResult)
        (text : string) (options : Options) (now1 now2 now3 : Z) :
  let first := classifyContent JSON_stringify cache text options now1 in
  classifyContent JSON_stringify (snd first) text options now2 = first /\
  classifyContent JSON_stringify (clearCache (snd first)) text options now3 =
    (classify text now3,
     match classify text now3 with
     | JS.Returns fresh => {[getCacheKey JSON_stringify text options := fresh]}
     | JS.Throws _ => ∅
     end) /\
  exists fresh, classify text now3 = JS.Returns fresh /\ timestamp fresh = now3.
Proof.
  intros first.
  destruct (classifyContent_cached_after cache text options now1)
    as (result & Hfst & Hsnd).
  fold first in Hfst, Hsnd. split; [|split].
  - rewrite (classifyContent_hit _ _ _ _ _ _ Hsnd).
    rewrite <- Hfst. now destruct first.
  - unfold clearCache.
    destruct (classifyContent_miss JSON_stringify ∅ text options now3)
      as (fresh & Hr & ->); [apply lookup_empty|].
    now rewrite Hr.
  - destruct (classify_returns text now3) as [fresh Hr].
    exists fresh. split; [exact Hr|].
    unfold classify in Hr. destruct (sort_by_score _); [discriminate|].
    apply Returns_inj in Hr. now subst fresh.
Qed.

(** C9: when two texts agree on their first 100 characters, the call for
    the second one, made after the call for the first one with the same
    options, returns the result of the first call and leaves the cache
    alone; if the first call found no entry, that result is the
    classification of the first text, and the second text is never
    analysed. *)
Theorem C9_prefix_collision
        (cache : gmap string ClassificationResult)
        (t1 t2 : string) (options : Options) (now1 now2 : Z) :
  JS.slice0 100 t1 = JS.slice0 100 t2 ->
  let first := classifyContent JSON_stringify cache t1 options now1 in
  classifyContent JSON_stringify (snd first) t2 options now2 = first /\
  (cache !! getCacheKey JSON_stringify t1 options = None ->
   fst (classifyContent JSON_stringify (snd first) t2 options now2)
     = classify t1 now1).
Proof.
  intros Hprefix first.
  assert (Hkey : getCacheKey JSON_stringify t2 options
                 = getCacheKey JSON_stringify t1 options)
    by (unfold getCacheKey; now rewrite Hprefix).
  destruct (classifyContent_cached_after cache t1 options now1)
    as (result & Hfst & Hsnd).
  fold first in Hfst, Hsnd.
  assert (Hsecond : classifyContent JSON_stringify (snd first) t2 options now2 = first).
  { rewrite <- Hkey in Hsnd.
    rewrite (classifyContent_hit _ _ _ _ _ _ Hsnd).
    rewrite <- Hfst. now destruct first. }
  split; [exact Hsecond|].
  intros Hmiss. rewrite Hsecond. subst first.
  destruct (classifyContent_miss JSON_stringify cache t1 options now1 Hmiss)
    as (r & Hr & ->).
  now rewrite Hr.
Qed.

End ClassifierCache.

(** C9, witness: the second comment is answered with the classification of
    the first one. *)
Lemma C9_prefix_collision_witness :
  let first := ContentClassifier.classifyContent stringify_empty ∅
                 long_comment_1 tt 1%Z in
  ContentClassifier.classifyContent stringify_empty (snd first)
    long_comment_2 tt 2%Z = first /\
  ((∅ : gmap string ContentClassifier.ClassificationResult)
     !! ContentClassifier.getCacheKey stringify_empty long_comment_1 tt = None ->
   fst (ContentClassifier.classifyContent stringify_empty (snd first)
          long_comment_2 tt 2%Z)
   = ContentClassifier.classify long_comment_1 1%Z).
Proof.
  apply (C9_prefix_collision stringify_empty ∅ long_comment_1 long_comment_2 tt).
  reflexivity.
Defined.

(** The two comments are different texts with different classifications. *)
Example long_comments_differ :
  long_comment_1 <> long_comment_2 /\
  ContentClassifier.classify long_comment_1 1%Z
  <> ContentClassifier.classify long_comment_2 1%Z.
Proof.
  split; [discriminate|]. intros H. vm_compute in H. discriminate H.
Qed.

(** ** Risk assessor *)

Section RiskAssessor.
Import Regex InterventionManager.

Lemma test_match0 (p : pattern) (s : string) :
  test p s = true -> exists m, match0 p s = Some m.
Proof.
  unfold test, match0. destruct (search p None s) as [[m rest]|]; [eauto|discriminate].
Qed.

Lemma get_entries (table : list (string * list pattern)) (key : string)
      (ps : list pattern) (p : pattern) :
  JS.get table key = Some ps -> In p ps -> In (key, p) (entries table).
Proof.
  unfold entries. induction table as [|[k qs] table IH]; cbn; [discriminate|].
  intros Hget Hin. apply in_or_app.
  destruct (String.eqb_spec k key) as [->|Hne].
  - injection Hget as ->. left. now apply in_map.
  - right. auto.
Qed.

Lemma family_entries (table : list (string * list pattern)) (key content : string) :
  matches_family table key content = true ->
  exists p, In (key, p) (entries table) /\ test p content = true.
Proof.
  unfold matches_family, family. intros (p & Hin & Ht)%existsb_exists.
  destruct (JS.get table key) as [ps|] eqn:E; [|contradiction].
  exists p. split; [eapply get_entries; eauto | exact Ht].
Qed.

(** A matching crisis pattern whose severity passes the decision rule makes
    the check report a crisis. *)
Lemma crisis_detected (content category : string) (p : pattern) :
  In (category, p) (entries crisisPatterns) ->
  test p content = true ->
  shouldTrigger (hasExcludingContext content) (getSeverityForCategory category) = true ->
  detected (checkCrisisIndicators content) = true.
Proof.
  intros Hin Ht Hfire. destruct (test_match0 _ _ Ht) as [m Hm].
  unfold checkCrisisIndicators; cbn [detected].
  set (excluding := hasExcludingContext content) in *.
  set (trigger := PatternTrigger category (source p) m (getSeverityForCategory category)
                    (if excluding then ConfLow else ConfHigh)).
  assert (Helem : trigger ∈ omap snd
            (flat_map (crisis_step excluding content) (entries crisisPatterns))).
  { apply list_elem_of_omap.
    eexists (_, Some trigger). split; [|reflexivity].
    apply list_elem_of_In, in_flat_map. exists (category, p). split; [exact Hin|].
    unfold crisis_step. rewrite Hm, Hfire. left. reflexivity. }
  destruct (omap snd _); [inversion Helem | reflexivity].
Qed.

Lemma no_context_always_triggers (severity : Q) :
  shouldTrigger false severity = true.
Proof. reflexivity. Qed.

Section Assess.
Variables (m : Manager) (env : Env) (content : string) (context : Context).

Lemma assess_crisis :
  detected (checkCrisisIndicators content) = true ->
  let a := fst (assessContent m env content context) in
  riskLevel a = CRISIS /\ requiresIntervention a = true /\
  triggers a = crisis_triggers (checkCrisisIndicators content) /\
  concerns a = [].
Proof.
  intros Hd. unfold assessContent. rewrite Hd. cbn. auto.
Qed.

Lemma assess_no_crisis :
  detected (checkCrisisIndicators content) = false ->
  let a := fst (assessContent m env content context) in
  riskLevel a = determineRiskLevel (analyzeContent content) /\
  requiresIntervention a
    = requiresAction (RISK_LEVELS (determineRiskLevel (analyzeContent content))) /\
  triggers a = [] /\
  concerns a = an_concerns (analyzeContent content).
Proof.
  intros Hd. unfold assessContent. rewrite Hd. cbn. auto.
Qed.

(** C2: content that matches a pattern of the family of active,
    first-person, present-tense suicidal intent and matches no
    context-exclusion pattern is assessed as CRISIS with
    requiresIntervention = true. *)
Theorem C2_suicidal_intent_without_context_is_crisis :
  matches_family crisisPatterns "activeSuicideIntent" content = true ->
  hasExcludingContext content = false ->
  let a := fst (assessContent m env content context) in
  riskLevel a = CRISIS /\ requiresIntervention a = true.
Proof.
  intros Hmatch Hctx a.
  destruct (family_entries _ _ _ Hmatch) as (p & Hin & Ht).
  assert (Hd : detected (checkCrisisIndicators content) = true).
  { eapply crisis_detected; eauto. rewrite Hctx. apply no_context_always_triggers. }
  destruct (assess_crisis Hd) as (Hr & Hi & _). auto.
Qed.
End Assess.

End RiskAssessor.

(** C2, witness: the example of the specification. *)
Lemma C2_suicidal_intent_witness :
  let a := fst (InterventionManager.assessContent InterventionManager.new sample_env
                  "I want to kill myself" no_context) in
  InterventionManager.riskLevel a = InterventionManager.CRISIS /\
  InterventionManager.requiresIntervention a = true.
Proof.
  apply (C2_suicidal_intent_without_context_is_crisis
           InterventionManager.new sample_env "I want to kill myself" no_context).
  - vm_compute. reflexivity.
  - vm_compute. reflexivity.
Defined.

Section SeverityLookup.
Import Regex InterventionManager.
Local Open Scope Q_scope.

(** The severity each family of [crisisPatterns] is given by the lookup:
    only "trolling" and "illegalContent" are keys of [severityMap], the
    four families named active... and direct... fall back to 0.5. *)
Lemma severities_of_crisis_families :
  map (fun kp => (fst kp, getSeverityForCategory (fst kp))) crisisPatterns =
  [ ("trolling", 0.7); ("activeSuicideIntent", 0.5);
    ("activeSelfHarmIntent", 0.5); ("activeOverdoseIntent", 0.5);
    ("directViolentThreats", 0.5); ("illegalContent", 1.0) ].
Proof. reflexivity. Qed.

(** With excluding context only "illegalContent" passes the threshold. *)
Lemma families_that_pass_with_context :
  map (fun kp => (fst kp, shouldTrigger true (getSeverityForCategory (fst kp))))
      crisisPatterns =
  [ ("trolling", false); ("activeSuicideIntent", false);
    ("activeSelfHarmIntent", false); ("activeOverdoseIntent", false);
    ("directViolentThreats", false); ("illegalContent", true) ].
Proof. reflexivity. Qed.

(** The values written in [severityMap] would all pass it. *)
Lemma written_severities_pass_with_context :
  forallb (fun kv => shouldTrigger true (snd kv))
          (filter (fun kv => fst kv <> "trolling") severityMap) = true.
Proof. reflexivity. Qed.

(** For the one family whose key is in the map the rule of C1 holds. *)
Lemma illegal_content_always_crisis (content : string) :
  matches_family crisisPatterns "illegalContent" content = true ->
  detected (checkCrisisIndicators content) = true.
Proof.
  intros Hmatch. destruct (family_entries _ _ _ Hmatch) as (p & Hin & Ht).
  eapply crisis_detected; eauto.
  now destruct (hasExcludingContext content).
Qed.

(** C1, the failing input: the content states suicidal intent in the first
    person and present tense and also mentions therapy, a word of the
    medical-discussion exclusions.  The family "activeSuicideIntent" is
    looked up in a map whose key is "suicide", gets the default 0.5, and is
    suppressed: no crisis is detected and the assessment is NONE without
    intervention. *)
Theorem C1_suicidal_intent_with_context_not_crisis :
  let content := "I want to kill myself. My therapy is not helping"%string in
  matches_family crisisPatterns "activeSuicideIntent" content = true /\
  hasExcludingContext content = true /\
  getSeverityForCategory "activeSuicideIntent" == 0.5 /\
  detected (checkCrisisIndicators content) = false /\
  forall m env context,
    let a := fst (assessContent m env content context) in
    riskLevel a = NONE /\ requiresIntervention a = false.
Proof.
  intros content.
  assert (Hd : detected (checkCrisisIndicators content) = false)
    by (vm_compute; reflexivity).
  split; [vm_compute; reflexivity|].
  split; [vm_compute; reflexivity|].
  split; [reflexivity|].
  split; [exact Hd|].
  intros m env context a.
  destruct (assess_no_crisis m env content context Hd) as (Hr & Hi & _).
  fold a in Hr, Hi. rewrite Hr, Hi.
  split; vm_compute; reflexivity.
Qed.

(** C5, counterexample: the risk level of the scenario is neither MEDIUM
    nor HIGH. *)
Lemma C5_scenario_not_MEDIUM_or_HIGH :
  let a := fst (assessContent new sample_env hopeless no_context) in
  ~ (riskLevel a = MEDIUM \/ riskLevel a = HIGH).
Proof.
  vm_compute. intros [H|H]; discriminate H.
Qed.

(** C5, as amended: for the scenario input no crisis pattern triggers, the
    only concern is depression, with two of the four patterns of the family
    matched ("hopeless", "nothing matters"), so its severity and the mean
    severity are 0.5, and the thresholds >= 0.8 HIGH, >= 0.6 MEDIUM,
    >= 0.3 LOW give the risk level LOW, without intervention. *)
Theorem C5_scenario_is_LOW (m : Manager) (env : Env) (context : Context) :
  let a := fst (assessContent m env hopeless context) in
  detected (checkCrisisIndicators hopeless) = false /\
  triggers a = [] /\
  map (fun c => (concern_type c, concern_matches c)) (concerns a)
    = [("depression"%string, ["hopeless"; "nothing matters"]%string)] /\
  Forall (fun c => concern_severity c == 0.5) (concerns a) /\
  an_severity (analyzeContent hopeless) == 0.5 /\
  riskLevel a = LOW /\
  requiresIntervention a = false.
Proof.
  intros a.
  assert (Hd : detected (checkCrisisIndicators hopeless) = false)
    by (vm_compute; reflexivity).
  destruct (assess_no_crisis m env hopeless context Hd) as (Hr & Hi & Ht & Hc).
  fold a in Hr, Hi, Ht, Hc. rewrite Hr, Hi, Ht, Hc.
  repeat split; try (vm_compute; reflexivity); try exact Hd.
  vm_compute. repeat constructor.
Qed.

End SeverityLookup.

(** ** Retry policy of [APIService.request] *)

Section RetryPolicy.
Import APIService.
Local Open Scope Q_scope.

Variable network : nat -> Reply.

Lemma retryable_failures_shift (from k : nat) :
  retryable_failures network from (S k) ->
  (exists e, network from = Err e /\ isRetryable e = true) /\
  retryable_failures network (S from) k.
Proof.
  intros H. split.
  - destruct (H 0%nat) as (e & He & Hr); [lia|].
    exists e. rewrite Nat.add_0_r in He. auto.
  - intros j Hj. destruct (H (S j)) as (e & He & Hr); [lia|].
    exists e. rewrite Nat.add_succ_r in He. auto.
Qed.

(** [attempt >= maxAttempts] holds from [iterations maxAttempts] on: with
    that much fuel the loop ends by itself. *)
Lemma reached (max : Q) (attempt : nat) :
  Qle_bool max (JS.of_nat attempt) = (iterations max <=? attempt)%nat.
Proof.
  unfold iterations, JS.of_nat.
  destruct (Nat.leb_spec (Z.to_nat (Qceiling max)) attempt) as [Hle|Hlt].
  - apply Qle_bool_iff.
    apply Qle_trans with (inject_Z (Qceiling max)); [apply Qle_ceiling|].
    rewrite <- Zle_Qle. lia.
  - destruct (Qle_bool max (inject_Z (Z.of_nat attempt))) eqn:E; [|reflexivity].
    apply Qle_bool_iff, Qceiling_resp_le in E. rewrite Qceiling_Z in E. lia.
Qed.

Lemma iterations_of_nat (max : Q) (m : nat) :
  max == JS.of_nat m -> iterations max = m.
Proof.
  intros H. unfold iterations. rewrite (Qceiling_comp _ _ H).
  unfold JS.of_nat. rewrite Qceiling_Z. lia.
Qed.

Lemma iterations_pos (max : Q) : 0 < max <-> (0 < iterations max)%nat.
Proof.
  pose proof (reached max 0) as H. change (JS.of_nat 0) with 0 in H. split.
  - intros Hpos. destruct (Nat.leb_spec (iterations max) 0) as [Hle|]; [|lia].
    apply Qle_bool_iff in H. apply Qlt_not_le in Hpos. contradiction.
  - intros Hpos. apply Qnot_le_lt. intros Hle. apply Qle_bool_iff in Hle.
    rewrite Hle in H. symmetry in H. apply Nat.leb_le in H. lia.
Qed.

(** [iterations max] is the ceiling of a positive [max], and 0 for a
    negative one. *)
Lemma iterations_bounds (max : Q) :
  (0 < max -> JS.of_nat (iterations max) - 1 < max /\ max <= JS.of_nat (iterations max)) /\
  (max < 0 -> iterations max = 0%nat).
Proof.
  split.
  - intros Hpos. pose proof (proj1 (iterations_pos max) Hpos) as Hn.
    unfold iterations, JS.of_nat in *.
    assert (Hc : (0 < Qceiling max)%Z) by lia.
    rewrite Z2Nat.id by lia. split; [|apply Qle_ceiling].
    pose proof (Qceiling_lt max) as Hlt.
    unfold Z.sub in Hlt. rewrite inject_Z_plus in Hlt. exact Hlt.
  - intros Hneg. destruct (iterations max) eqn:E; [reflexivity|].
    assert (Hpos : 0 < max) by (apply iterations_pos; lia).
    exfalso. apply (Qlt_irrefl 0). now apply Qlt_trans with max.
Qed.

(** The loop, after [k] retryable failures, ends at the first call that
    succeeds, fails for good, or is the last one allowed. *)
Lemma attempts_spec (max base : Q) (k : nat) :
  forall fuel attempt,
    (attempt + fuel = iterations max)%nat -> (k < fuel)%nat ->
    retryable_failures network attempt k ->
    (forall response, network (attempt + k)%nat = Ok response ->
       attempts network max base fuel attempt =
         {| settled := Resolved response; calls := S k;
            sleeps := backoff base (S attempt) k |}) /\
    (forall error, network (attempt + k)%nat = Err error ->
       isRetryable error = false \/ (attempt + k + 1 = iterations max)%nat ->
       attempts network max base fuel attempt =
         {| settled := Rejected error; calls := S k;
            sleeps := backoff base (S attempt) k |}).
Proof.
  induction k as [|k IH]; intros fuel attempt Hsum Hk Hfail.
  - destruct fuel as [|fuel]; [lia|]. rewrite Nat.add_0_r. cbn [attempts].
    rewrite !reached.
    destruct (Nat.leb_spec (iterations max) attempt); [lia|].
    split.
    + intros response ->. reflexivity.
    + intros error -> Hstop. destruct (isRetryable error); cbn [negb]; [|reflexivity].
      destruct Hstop as [Hstop|Hstop]; [discriminate|].
      destruct (Nat.leb_spec (iterations max) (S attempt)); [reflexivity|lia].
  - destruct fuel as [|fuel]; [lia|].
    destruct (retryable_failures_shift _ _ Hfail) as ((e & He & Hr) & Hrest).
    destruct (IH fuel (S attempt)) as (IHok & IHerr); [lia|lia|exact Hrest|].
    assert (Hidx : (attempt + S k = S attempt + k)%nat) by lia.
    cbn [attempts]. rewrite !reached, He, Hr. cbn [negb].
    destruct (Nat.leb_spec (iterations max) attempt); [lia|].
    destruct (Nat.leb_spec (iterations max) (S attempt)); [lia|].
    split.
    + intros response Hreply. rewrite Hidx in Hreply.
      rewrite (IHok response Hreply). reflexivity.
    + intros error Hreply Hstop. rewrite Hidx in Hreply.
      rewrite (IHerr error Hreply); [reflexivity|].
      destruct Hstop; [left; assumption | right; lia].
Qed.

(** *** The queue *)

Lemma queue_ok_new : queue_ok new_queue.
Proof.
  unfold queue_ok, new_queue; cbn.
  split; [constructor|]. split; [intros id Hid; now apply elem_of_nil in Hid|].
  split; [intros id _; apply lookup_empty|].
  split; [discriminate|]. intros id _. apply lookup_empty.
Qed.

Lemma queue_ok_next (q : Queue) :
  queue_ok q -> (forall id, processor q <> Calling id) ->
  queue_ok (next_in_queue q).
Proof.
  intros (Hnd & Hlt & Hwait & Hcall & Hnew) Hnot. unfold next_in_queue.
  destruct (requestQueue q) as [|id rest] eqn:E.
  - unfold queue_ok; cbn.
    split; [exact Hnd|]. split; [exact Hlt|]. split; [exact Hwait|].
    split; [discriminate|exact Hnew].
  - assert (Hperm : rest ++ id :: passed q ≡ₚ (id :: rest) ++ passed q).
    { cbn. symmetry. apply Permutation_middle. }
    unfold queue_ok; cbn.
    split; [now rewrite Hperm|].
    split; [intros id' Hid'; apply Hlt; now rewrite <- Hperm|].
    split; [intros id' Hid'; apply Hwait; now right|].
    split; [|exact Hnew].
    intros id' [= <-]. split; [apply Hwait; now left|now left].
Qed.

Lemma settle_other (id id' : nat) (s : Settled) (settled : gmap nat Settled) :
  id <> id' -> settle id s settled !! id' = settled !! id'.
Proof.
  intros Hne. unfold settle. destruct (settled !! id); [reflexivity|].
  now apply lookup_insert_ne.
Qed.

Lemma settle_kept (id id' : nat) (s s' : Settled) (settled : gmap nat Settled) :
  settled !! id' = Some s' -> settle id s settled !! id' = Some s'.
Proof.
  intros H. unfold settle. destruct (settled !! id) eqn:E; [exact H|].
  rewrite lookup_insert_ne; [exact H|]. intros ->. congruence.
Qed.

Lemma settle_fresh (id : nat) (s : Settled) (settled : gmap nat Settled) :
  settled !! id = None -> settle id s settled !! id = Some s.
Proof.
  intros H. unfold settle. rewrite H. apply lookup_insert_eq.
Qed.

Lemma cancel_other (ids : list nat) (id : nat) :
  forall settled : gmap nat Settled,
    id ∉ ids ->
    foldl (fun settled id => settle id (Rejected cancelled) settled) settled ids !! id
    = settled !! id.
Proof.
  induction ids as [|id' ids IH]; intros settled Hid; [reflexivity|].
  cbn [foldl]. rewrite IH.
  - apply settle_other. intros ->. apply Hid. now left.
  - intros Hin. apply Hid. now right.
Qed.

Lemma cancel_kept (ids : list nat) (id : nat) (s : Settled) :
  forall settled : gmap nat Settled,
    settled !! id = Some s ->
    foldl (fun settled id => settle id (Rejected cancelled) settled) settled ids !! id
    = Some s.
Proof.
  induction ids as [|id' ids IH]; intros settled Hid; [exact Hid|].
  cbn [foldl]. apply IH. now apply settle_kept.
Qed.

Lemma cancel_waiting (ids : list nat) (id : nat) :
  forall settled : gmap nat Settled,
    id ∈ ids -> settled !! id = None ->
    foldl (fun settled id => settle id (Rejected cancelled) settled) settled ids !! id
    = Some (Rejected cancelled).
Proof.
  induction ids as [|id' ids IH]; intros settled Hin Hnone.
  - now apply elem_of_nil in Hin.
  - cbn [foldl]. destruct (Nat.eq_dec id' id) as [->|Hne].
    + apply cancel_kept. now apply settle_fresh.
    + apply IH.
      * apply elem_of_cons in Hin as [->|Hin]; [congruence|exact Hin].
      * now rewrite settle_other.
Qed.

Lemma queue_ok_step (q : Queue) (e : QueueEvent) :
  queue_ok q -> queue_ok (queue_step q e).
Proof.
  intros Hok. destruct e as [|reply| |]; cbn [queue_step].
  - (* queueRequest *)
    assert (Hpushed : queue_ok
              {| requestQueue := requestQueue q ++ [next_request q];
                 processor := processor q; passed := passed q;
                 queue_sleeps := queue_sleeps q; promises := promises q;
                 next_request := S (next_request q) |}).
    { destruct Hok as (Hnd & Hlt & Hwait & Hcall & Hnew).
      assert (Hfresh : next_request q ∉ requestQueue q ++ passed q)
        by (intros Hin; apply Hlt in Hin; lia).
      assert (Hperm : (requestQueue q ++ [next_request q]) ++ passed q
                      ≡ₚ next_request q :: requestQueue q ++ passed q).
      { rewrite <- app_assoc. cbn. symmetry. apply Permutation_middle. }
      unfold queue_ok; cbn.
      split; [rewrite Hperm; now constructor|].
      split.
      { intros id Hid. rewrite Hperm in Hid.
        apply elem_of_cons in Hid as [->|Hid]; [lia|]. apply Hlt in Hid. lia. }
      split.
      { intros id [Hid|Hid%list_elem_of_singleton]%elem_of_app; [now apply Hwait|].
        subst id. now apply Hnew. }
      split; [exact Hcall|].
      intros id Hid. apply Hnew. lia. }
    unfold queueRequest, processQueue, isProcessingQueue. cbn [processor requestQueue].
    destruct (processor q) eqn:Hp; [|exact Hpushed|exact Hpushed].
    destruct (requestQueue q ++ [next_request q]) eqn:E; [exact Hpushed|].
    apply queue_ok_next; [exact Hpushed|]. cbn. discriminate.
  - (* a reply *)
    destruct (processor q) as [|id|] eqn:Hp; [exact Hok| |exact Hok].
    destruct Hok as (Hnd & Hlt & Hwait & Hcall & Hnew).
    destruct (Hcall id Hp) as (Hnone & Hpassed).
    unfold queue_ok; cbn.
    split; [exact Hnd|]. split; [exact Hlt|].
    split.
    { intros id' Hid'. rewrite settle_other; [now apply Hwait|].
      intros <-. apply NoDup_app in Hnd as (_ & Hdisj & _).
      now apply (Hdisj id Hid'). }
    split; [discriminate|].
    intros id' Hid'. rewrite settle_other; [now apply Hnew|].
    intros <-. assert (id < next_request q)%nat; [|lia].
    apply Hlt, elem_of_app. now right.
  - (* the sleep ends *)
    destruct (processor q) eqn:Hp; [exact Hok|exact Hok|].
    apply queue_ok_next; [exact Hok|]. rewrite Hp. discriminate.
  - (* cancelAllRequests *)
    destruct Hok as (Hnd & Hlt & Hwait & Hcall & Hnew).
    pose proof Hnd as Hnd'. apply NoDup_app in Hnd' as (_ & Hdisj & Hpassed).
    unfold queue_ok, cancelAllRequests; cbn.
    split; [exact Hpassed|].
    split; [intros id Hid; apply Hlt, elem_of_app; now right|].
    split; [intros id Hid; now apply elem_of_nil in Hid|].
    split.
    + intros id Hid. destruct (Hcall id Hid) as [Hnone Hin].
      split; [|exact Hin]. rewrite cancel_other; [exact Hnone|].
      intros Hwaiting. now apply (Hdisj id Hwaiting).
    + intros id Hid. rewrite cancel_other; [now apply Hnew|].
      intros Hwaiting. assert (id < next_request q)%nat; [|lia].
      apply Hlt, elem_of_app. now left.
Qed.

Lemma queue_ok_run (events : list QueueEvent) :
  forall q, queue_ok q -> queue_ok (queue_run q events).
Proof.
  induction events as [|e events IH]; intros q Hok; [exact Hok|].
  apply IH. now apply queue_ok_step.
Qed.

(** C8, as amended.  A request that is not queued makes at most
    [maxAttempts] calls, 3 unless the options say otherwise
    ([n], the number of calls allowed, is [maxAttempts] itself when that is
    a natural number, its ceiling when it is a fraction, and 0 when it is
    negative):
    an error with a 4xx status other than 408 and 429 is not retryable, and
    a non-retryable error ends the request at once with that error;
    an error with a 5xx status, with no status or status 0 (network
    failure), 408 or 429 is retryable and is followed by another call as
    long as fewer than [maxAttempts] were made; the retry number k waits
    [baseDelay * 2^(k-1)] first, with [baseDelay] 1000 ms unless the options
    say otherwise (1000, then 2000 for the default three attempts); the
    request settles with the first success, or with the last error; with a
    negative [maxAttempts] no call is made and the request resolves with
    [undefined].
    A request with the [queued] option is put in the queue instead, whatever
    the state [q] the queue has reached; the queue passes no request to
    [makeRequest] twice, and the reply to the call of a request, a retryable
    error included, settles that request and passes nothing to
    [makeRequest]: the queue sleeps 100 ms next. *)
Theorem C8_retry_policy (options : RequestOptions) (events : list QueueEvent) :
  let max := maxAttempts options in
  let base := baseDelay options in
  let n := iterations max in
  let q := queue_run new_queue events in
  (forall e n, status e = Some n -> (400 <= n < 500)%Z -> n <> 408%Z -> n <> 429%Z ->
               isRetryable e = false) /\
  (forall e, status e = None \/ status e = Some 0%Z \/ status e = Some 408%Z \/
             status e = Some 429%Z \/ (exists n, status e = Some n /\ (500 <= n)%Z) ->
             isRetryable e = true) /\
  (opt_retryAttempts options = None -> max = 3 /\ n = 3%nat) /\
  (opt_retryDelay options = None -> base = 1000) /\
  (forall m : nat, max == JS.of_nat m -> n = m) /\
  (0 < max -> JS.of_nat n - 1 < max /\ max <= JS.of_nat n) /\
  (max < 0 -> n = 0%nat) /\
  (queued options = false ->
   exists r, request network options q = Settles r /\
     (forall k e, (k < n)%nat -> retryable_failures network 0 k ->
        network k = Err e -> isRetryable e = false ->
        r = {| settled := Rejected e; calls := S k; sleeps := backoff base 1 k |}) /\
     (forall k response, (k < n)%nat -> retryable_failures network 0 k ->
        network k = Ok response ->
        r = {| settled := Resolved response; calls := S k; sleeps := backoff base 1 k |}) /\
     ((0 < n)%nat -> retryable_failures network 0 n ->
        exists e, network (n - 1)%nat = Err e /\
          r = {| settled := Rejected e; calls := n;
                 sleeps := backoff base 1 (n - 1) |}) /\
     (n = 0%nat ->
        r = {| settled := ResolvedUndefined; calls := 0; sleeps := [] |})) /\
  (queued options = true ->
   request network options q = Queued (queueRequest q) /\
   next_request q ∈ requestQueue (queueRequest q) ++ passed (queueRequest q)) /\
  NoDup (passed q) /\
  (forall id reply, processor q = Calling id ->
     let q' := queue_step q (Replies reply) in
     promises q' !! id = Some (outcome reply) /\
     passed q' = passed q /\
     processor q' = Sleeping /\
     queue_sleeps q' = 100 :: queue_sleeps q).
Proof.
  intros max base n q.
  assert (Hok : queue_ok q) by (apply queue_ok_run, queue_ok_new).
  split; [|split; [|split; [|split; [|split; [|split; [|split; [|split; [|split; [|split]]]]]]]]].
  - intros e s Hs Hrange H408 H429. unfold isRetryable. rewrite Hs.
    destruct (Z.leb_spec 400 s); [|lia]. destruct (Z.ltb_spec s 500); [|lia].
    cbn. destruct (Z.eqb_spec s 408); [lia|]. destruct (Z.eqb_spec s 429); [lia|].
    reflexivity.
  - intros e [Hs|[Hs|[Hs|[Hs|(s & Hs & Hn)]]]]; unfold isRetryable; rewrite Hs;
      try reflexivity.
    destruct (Z.leb_spec 400 s); [|lia]. destruct (Z.ltb_spec s 500); [lia|].
    cbn. destruct (Z.leb_spec 500 s); [reflexivity|lia].
  - intros Hnone. unfold n, max, maxAttempts. now rewrite Hnone.
  - intros Hnone. unfold base, baseDelay. now rewrite Hnone.
  - intros m Hm. now apply iterations_of_nat.
  - apply iterations_bounds.
  - apply iterations_bounds.
  - intros Hq. eexists. split; [unfold request; rewrite Hq; reflexivity|].
    fold max base n. split; [|split; [|split]].
    + intros k e Hk Hfail Hreply Hno.
      destruct (attempts_spec max base k n 0) as (_ & Herr);
        [reflexivity|exact Hk|exact Hfail|].
      apply Herr; [exact Hreply | left; exact Hno].
    + intros k response Hk Hfail Hreply.
      destruct (attempts_spec max base k n 0) as (Hsuccess & _);
        [reflexivity|exact Hk|exact Hfail|].
      apply Hsuccess. exact Hreply.
    + intros Hpos Hfail.
      destruct (Hfail (n - 1)%nat) as (e & He & Hre); [lia|].
      exists e. split; [exact He|].
      destruct (attempts_spec max base (n - 1) n 0) as (_ & Herr);
        [reflexivity|lia| |].
      * intros j Hj. apply Hfail. lia.
      * replace (S (n - 1)) with n in Herr by lia.
        apply Herr; [exact He | right; lia].
    + intros Hzero. fold n. rewrite Hzero. reflexivity.
  - intros Hq. split; [unfold request; now rewrite Hq|].
    unfold queueRequest, processQueue, isProcessingQueue, next_in_queue.
    cbn [processor requestQueue].
    destruct (processor q); cbn.
    + destruct (requestQueue q) as [|id rest]; cbn;
        rewrite ?elem_of_cons, ?elem_of_app, ?elem_of_cons, ?list_elem_of_singleton;
        auto.
    + rewrite !elem_of_app, list_elem_of_singleton. auto.
    + rewrite !elem_of_app, list_elem_of_singleton. auto.
  - destruct Hok as (Hnd & _). now apply NoDup_app in Hnd as (_ & _ & Hnd).
  - intros id reply Hcalling. cbn [queue_step]. rewrite Hcalling. cbn.
    destruct Hok as (_ & _ & _ & Hcall & _).
    destruct (Hcall id Hcalling) as [Hnone _].
    split; [now apply settle_fresh|]. auto.
Qed.

End RetryPolicy.

(** C8, witness: against a backend that is down, a request with the default
    options makes three calls, 1000 ms and 2000 ms apart, and fails with the
    last 503. *)
Lemma C8_retry_policy_witness :
  APIService.request (always unavailable) APIService.no_options APIService.new_queue =
  APIService.Settles
    {| APIService.settled := APIService.Rejected unavailable;
       APIService.calls := 3;
       APIService.sleeps := [1000; 2000]%Q |}.
Proof.
  destruct (C8_retry_policy (always unavailable) APIService.no_options [])
    as (_ & _ & _ & _ & _ & _ & _ & Hdirect & _).
  destruct (Hdirect eq_refl) as (r & Hr & _ & _ & Hall & _).
  change (APIService.request (always unavailable) APIService.no_options
            APIService.new_queue = APIService.Settles r) in Hr.
  rewrite Hr. f_equal.
  destruct Hall as (e & He & Hrun).
  - vm_compute. lia.
  - intros j _. exists unavailable. split; reflexivity.
  - injection He as <-. rewrite Hrun. vm_compute. reflexivity.
Defined.

(** C8, counterexample: a caller that passes [retryAttempts: 5] in the options
    (as [getAnalysisReport] lets it) gets five calls and the delays 1000,
    2000, 4000 and 8000 ms. *)
Lemma C8_five_attempts_on_request :
  exists r,
    APIService.request (always unavailable) five_attempts APIService.new_queue
      = APIService.Settles r /\
    APIService.calls r = 5%nat /\
    APIService.sleeps r = [1000; 2000; 4000; 8000]%Q /\
    ~ within_three_attempts r.
Proof.
  eexists. split; [reflexivity|].
  split; [reflexivity|]. split; [vm_compute; reflexivity|].
  intros [Hcalls _]. vm_compute in Hcalls. lia.
Qed.

(** A queued request is handed to [makeRequest] once: a 503 is not retried,
    the queue sleeps 100 ms and becomes idle. *)
Example queued_request_is_not_retried :
  exists q,
    APIService.request (always unavailable) through_the_queue APIService.new_queue
      = APIService.Queued q /\
    APIService.processor q = APIService.Calling 0 /\
    let q' := APIService.queue_run q
                [APIService.Replies (APIService.Err unavailable); APIService.Wakes] in
    APIService.promises q' !! 0%nat = Some (APIService.Rejected unavailable) /\
    APIService.passed q' = [0%nat] /\
    APIService.queue_sleeps q' = [100%Q] /\
    APIService.processor q' = APIService.Idle.
Proof. eexists. split; [reflexivity|]. vm_compute. repeat split. Qed.

(** A request that [cancelAllRequests] finds in the queue is rejected with
    status 499 and never passed to [makeRequest]. *)
Example cancelled_request_is_never_called :
  let q := APIService.queue_run APIService.new_queue
             [APIService.Queues; APIService.Queues; APIService.Cancels;
              APIService.Replies (APIService.Err unavailable); APIService.Wakes] in
  APIService.promises q !! 1%nat = Some (APIService.Rejected APIService.cancelled) /\
  APIService.promises q !! 0%nat = Some (APIService.Rejected unavailable) /\
  APIService.passed q = [0%nat] /\
  APIService.processor q = APIService.Idle.
Proof. vm_compute. repeat split. Qed.

(** A 404 ends a default request at the first call. *)
Example not_found_is_not_retried :
  APIService.request (always not_found) APIService.no_options APIService.new_queue =
  APIService.Settles
    {| APIService.settled := APIService.Rejected not_found;
       APIService.calls := 1;
       APIService.sleeps := [] |}.
Proof. reflexivity. Qed.

(** With [retryAttempts: -1] no call is made and the request resolves with
    [undefined]; with [retryAttempts: 2.5] there are three calls. *)
Example negative_and_fractional_attempts :
  APIService.request (always unavailable) no_attempt APIService.new_queue =
  APIService.Settles
    {| APIService.settled := APIService.ResolvedUndefined;
       APIService.calls := 0;
       APIService.sleeps := [] |} /\
  APIService.request (always unavailable) two_and_a_half APIService.new_queue =
  APIService.Settles
    {| APIService.settled := APIService.Rejected unavailable;
       APIService.calls := 3;
       APIService.sleeps := [1000; 2000]%Q |}.
Proof. split; vm_compute; reflexivity. Qed.

(** ** Session orchestrator *)

Section Orchestrator.
Import APIService AppContainer.

Lemma not_listening (w : World) (a : Service) (sid other : string) :
  currentSessionId (app w) = Some sid -> other <> sid ->
  listening (with_api w a) other = false.
Proof.
  intros Hcur Hne. unfold listening. cbn [with_api app api]. rewrite Hcur.
  destruct (String.eqb_spec other sid); [contradiction|].
  now rewrite andb_false_r, andb_false_r.
Qed.

(** C6: while a session is tracked, a completion or error event that
    carries another session id leaves the analysis results, the isAnalyzing
    flag, the tracked session, the progress, the status message, the
    timeout id and the armed timers as they were. *)
Theorem C6_event_of_other_session_ignored
        (w : World) (sid other : string) (e : Event) :
  currentSessionId (app w) = Some sid ->
  terminal_session e = Some other ->
  other <> sid ->
  app (step w e) = app w /\ timers (step w e) = timers w.
Proof.
  intros Hcur He Hne.
  destruct e as [| | | |data|data| |]; try discriminate He;
    injection He as He; cbn [step]; destruct (socket (api w)); auto.
  - unfold handleAnalysisComplete.
    rewrite (not_listening w _ sid (cd_session_id data) Hcur); [auto|congruence].
  - unfold handleAnalysisError.
    rewrite (not_listening w _ sid (ed_session_id data) Hcur); [auto|congruence].
Qed.

(** Firing a timeout never touches the callback registries. *)
Lemma timeout_keeps_registries (w : World) (id : positive) :
  api (step w (TimerFires id)) = api w.
Proof.
  cbn [step]. destruct (timers w !! id) as [t|]; [|reflexivity].
  unfold on_timeout. now destruct (cap_isAnalyzing (callback t)).
Qed.

(** The timeout armed by a submission closes over the [isAnalyzing] of the
    moment of the submission. *)
Lemma analyze_arms_timeout (w : World) :
  exists id,
    analysisTimeoutId (app (fst (handleAnalyze_begin w))) = Some id /\
    timers (fst (handleAnalyze_begin w)) !! id =
      Some {| delay := 150000;
              callback := {| cap_isAnalyzing := isAnalyzing (app w);
                             cap_analysisTimeoutId := analysisTimeoutId (app w) |} |}.
Proof.
  unfold handleAnalyze_begin. eexists. cbn. split; [reflexivity|].
  apply lookup_insert_eq.
Qed.

(** A timeout whose callback saw [isAnalyzing = false] changes nothing. *)
Lemma stale_timeout_is_silent (w : World) (id : positive) (t : Timer) :
  timers w !! id = Some t -> cap_isAnalyzing (callback t) = false ->
  app (step w (TimerFires id)) = app w.
Proof.
  intros Ht Hcap. cbn [step]. rewrite Ht. unfold on_timeout. now rewrite Hcap.
Qed.

End Orchestrator.

(** C3, the failing scenario: the analysis of session "s1" receives no event
    and its 150-second timer fires.  The callback tests the [isAnalyzing] of
    the render that created [handleAnalyze], which was false, so it reports
    nothing: the analysis stays in progress without a result, and the
    progress and completion callbacks of "s1" stay registered. *)
Theorem C3_timeout_reports_nothing_and_keeps_callbacks :
  let w := waiting_for_s1 in
  let w' := AppContainer.step w (AppContainer.TimerFires 1) in
  (AppContainer.isAnalyzing (AppContainer.app w) = true /\
   AppContainer.currentSessionId (AppContainer.app w) = Some "s1" /\
   AppContainer.timers w !! 1%positive =
     Some {| AppContainer.delay := 150000;
             AppContainer.callback :=
               {| AppContainer.cap_isAnalyzing := false;
                  AppContainer.cap_analysisTimeoutId := None |} |}) /\
  (AppContainer.timers w' = ∅ /\
   AppContainer.isAnalyzing (AppContainer.app w') = true /\
   AppContainer.analysisResults (AppContainer.app w') = None /\
   APIService.progressCallbacks (AppContainer.api w') !! "s1"
     = Some APIService.OnProgress /\
   APIService.analysisCallbacks (AppContainer.api w') !! "s1"
     = Some APIService.SettlePromise).
Proof.
  vm_compute. repeat split.
Qed.

(** C6, witness: session "s1" is tracked and a completion for "s0" arrives. *)
Lemma C6_event_of_other_session_witness :
  let e := AppContainer.AnalysisComplete
             {| AppContainer.cd_session_id := "s0";
                AppContainer.cd_results := "{summary: done}" |} in
  AppContainer.app (AppContainer.step waiting_for_s1 e) = AppContainer.app waiting_for_s1 /\
  AppContainer.timers (AppContainer.step waiting_for_s1 e) = AppContainer.timers waiting_for_s1.
Proof.
  apply (C6_event_of_other_session_ignored waiting_for_s1 "s1" "s0").
  - vm_compute. reflexivity.
  - reflexivity.
  - discriminate.
Defined.


(** * Further properties *)

(** ** Risk assessor: the decision rule *)

Section CrisisRule.
Import Regex InterventionManager.
Local Open Scope Q_scope.

Lemma nonempty_app {A : Type} (l1 l2 : list A) :
  nonempty (l1 ++ l2) = nonempty l1 || nonempty l2.
Proof. destruct l1; reflexivity. Qed.

Lemma test_as_match0 (p : pattern) (s : string) :
  test p s = match match0 p s with Some _ => true | None => false end.
Proof.
  unfold test, match0. now destruct (search p None s) as [[m rest]|].
Qed.

Lemma fired_triggers (excluding : bool) (content : string)
      (l : list (string * pattern)) :
  nonempty (omap snd (flat_map (crisis_step excluding content) l)) =
  existsb (fun kp => test (snd kp) content
                     && shouldTrigger excluding (getSeverityForCategory (fst kp))) l.
Proof.
  induction l as [|[category p] l IH]; [reflexivity|].
  cbn [flat_map existsb fst snd]. rewrite omap_app, nonempty_app, IH. f_equal.
  unfold crisis_step. rewrite test_as_match0.
  destruct (match0 p content) as [m|]; [|reflexivity].
  now destruct (shouldTrigger excluding (getSeverityForCategory category)).
Qed.

(** The check reports a crisis exactly when some crisis pattern matches and
    its family passes the decision rule. *)
Lemma detected_spec (content : string) :
  detected (checkCrisisIndicators content) =
  existsb (fun kp => test (snd kp) content
                     && shouldTrigger (hasExcludingContext content)
                                      (getSeverityForCategory (fst kp)))
          (entries crisisPatterns).
Proof.
  unfold checkCrisisIndicators; cbn [detected]. apply fired_triggers.
Qed.

Lemma existsb_and_filter {A : Type} (f g : A -> bool) (l : list A) :
  existsb (fun x => f x && g x) l = existsb f (List.filter g l).
Proof.
  induction l as [|x l IH]; [reflexivity|]. cbn.
  destruct (g x); cbn; rewrite ?andb_true_r, ?andb_false_r, IH; reflexivity.
Qed.

Lemma existsb_pointwise {A : Type} (f g : A -> bool) (l : list A) :
  (forall x, f x = g x) -> existsb f l = existsb g l.
Proof.
  intros Hfg. induction l as [|x l IH]; [reflexivity|]. cbn. now rewrite Hfg, IH.
Qed.

Lemma existsb_map {A B : Type} (f : B -> bool) (h : A -> B) (l : list A) :
  existsb f (map h l) = existsb (fun x => f (h x)) l.
Proof.
  induction l as [|x l IH]; [reflexivity|]. cbn. now rewrite IH.
Qed.

(** Without excluding context, that is when no pattern of the four families
    of [contextExclusions] (medicalDiscussion, thirdPersonDiscussion,
    pastEvents, educationalContext) matches the content, every match of a
    crisis pattern counts, whatever its family and severity, trolling
    included. *)
Theorem no_context_any_match_is_crisis (content : string) :
  hasExcludingContext content = false ->
  detected (checkCrisisIndicators content) = any_crisis_match content.
Proof.
  intros Hctx. rewrite detected_spec, Hctx. unfold any_crisis_match.
  apply existsb_pointwise. intros kp. apply andb_true_r.
Qed.

(** With excluding context the check reports a crisis exactly when a pattern
    of the family illegalContent matches: the five other families have a
    looked-up severity below 0.9 and are suppressed. *)
Theorem with_context_only_illegal_content (content : string) :
  hasExcludingContext content = true ->
  detected (checkCrisisIndicators content)
  = matches_family crisisPatterns "illegalContent" content.
Proof.
  intros Hctx. rewrite detected_spec, Hctx, existsb_and_filter.
  unfold matches_family.
  change (fun kp : string * pattern => test (snd kp) content)
    with (fun kp : string * pattern => (fun p => test p content) (snd kp)).
  rewrite <- existsb_map. f_equal.
Qed.

End CrisisRule.

(** Witness: a joke, with nothing that excludes. *)
Lemma no_context_any_match_witness :
  InterventionManager.detected
    (InterventionManager.checkCrisisIndicators "lol, I was just kidding")
  = any_crisis_match "lol, I was just kidding".
Proof.
  apply (no_context_any_match_is_crisis "lol, I was just kidding").
  vm_compute. reflexivity.
Defined.

(** A third person who "passed" is excluding context as well, and
    suppresses the match that follows. *)
Example third_person_is_excluding_context :
  InterventionManager.hasExcludingContext "She passed. I want to kill myself" = true /\
  any_crisis_match "She passed. I want to kill myself" = true /\
  InterventionManager.detected
    (InterventionManager.checkCrisisIndicators "She passed. I want to kill myself")
  = false.
Proof. vm_compute. repeat split. Qed.

(** Witness: a threat next to a word of the medical exclusions. *)
Lemma with_context_only_illegal_content_witness :
  InterventionManager.detected
    (InterventionManager.checkCrisisIndicators
       "I will hurt them when I leave the hospital")
  = matches_family InterventionManager.crisisPatterns "illegalContent"
      "I will hurt them when I leave the hospital".
Proof.
  apply (with_context_only_illegal_content
           "I will hurt them when I leave the hospital").
  vm_compute. reflexivity.
Defined.

Section Assessment.
Import Regex InterventionManager.
Local Open Scope Q_scope.

Lemma trigger_fires (content category : string) (p : pattern) :
  In (category, p) (entries crisisPatterns) ->
  test p content = true ->
  shouldTrigger (hasExcludingContext content) (getSeverityForCategory category) = true ->
  exists m confidence,
    PatternTrigger category (source p) m (getSeverityForCategory category) confidence
    ∈ omap snd (flat_map (crisis_step (hasExcludingContext content) content)
                         (entries crisisPatterns)).
Proof.
  intros Hin Ht Hfire. destruct (test_match0 _ _ Ht) as [m Hm].
  exists m, (if hasExcludingContext content then ConfLow else ConfHigh).
  apply list_elem_of_omap. eexists (_, Some _). split; [|reflexivity].
  apply list_elem_of_In, in_flat_map. exists (category, p). split; [exact Hin|].
  unfold crisis_step. rewrite Hm, Hfire. left. reflexivity.
Qed.

(** A trolling phrase without excluding context is a crisis like any other,
    and the list of triggers then ends with the message for trolls. *)
Theorem trolling_is_crisis_with_message
        (m : Manager) (env : Env) (content : string) (context : Context) :
  matches_family crisisPatterns "trolling" content = true ->
  hasExcludingContext content = false ->
  let a := fst (assessContent m env content context) in
  riskLevel a = CRISIS /\ requiresIntervention a = true /\
  last (triggers a) = Some trolling_message.
Proof.
  intros Hmatch Hctx a.
  destruct (family_entries _ _ _ Hmatch) as (p & Hin & Ht).
  assert (Hfire : shouldTrigger (hasExcludingContext content)
                                (getSeverityForCategory "trolling") = true)
    by now rewrite Hctx.
  assert (Hd : detected (checkCrisisIndicators content) = true)
    by (eapply crisis_detected; eauto).
  destruct (assess_crisis m env content context Hd) as (Hr & Hi & Htr & _).
  fold a in Hr, Hi, Htr. rewrite Hr, Hi, Htr. split; [reflexivity|]. split; [reflexivity|].
  destruct (trigger_fires content "trolling" p Hin Ht Hfire) as (mt & conf & Helem).
  unfold checkCrisisIndicators; cbn [crisis_triggers].
  set (fired := omap snd _) in *.
  assert (Hex : existsb (fun t => String.eqb (trigger_type t) "trolling") fired = true).
  { apply existsb_exists. eexists. split; [apply list_elem_of_In; exact Helem|].
    reflexivity. }
  rewrite Hex. apply last_snoc.
Qed.

(** The intervention flag is set exactly for the levels HIGH and CRISIS, and
    the level CRISIS comes from the crisis check only: the concern analysis
    never yields it. *)
Theorem intervention_iff_high_or_crisis
        (m : Manager) (env : Env) (content : string) (context : Context) :
  let a := fst (assessContent m env content context) in
  requiresIntervention a
    = match riskLevel a with HIGH | CRISIS => true | _ => false end /\
  (riskLevel a = CRISIS <-> detected (checkCrisisIndicators content) = true).
Proof.
  intros a. destruct (detected (checkCrisisIndicators content)) eqn:Hd.
  - destruct (assess_crisis m env content context Hd) as (Hr & Hi & _).
    fold a in Hr, Hi. rewrite Hr, Hi. split; [reflexivity|]. split; reflexivity.
  - destruct (assess_no_crisis m env content context Hd) as (Hr & Hi & _).
    fold a in Hr, Hi. rewrite Hr, Hi. unfold determineRiskLevel.
    destruct (Qle_bool 0.8 _); [split; [reflexivity|split; discriminate]|].
    destruct (Qle_bool 0.6 _); [split; [reflexivity|split; discriminate]|].
    destruct (Qle_bool 0.3 _); split; try reflexivity; split; discriminate.
Qed.

(** [determineRiskLevel] by its thresholds. *)
Lemma determineRiskLevel_spec (analysis : Analysis) :
  let s := an_severity analysis in
  match determineRiskLevel analysis with
  | HIGH => 0.8 <= s
  | MEDIUM => 0.6 <= s /\ s < 0.8
  | LOW => 0.3 <= s /\ s < 0.6
  | NONE => s < 0.3
  | CRISIS => False
  end.
Proof.
  intros s. unfold determineRiskLevel. fold s.
  destruct (Qle_bool 0.8 s) eqn:H8; [now apply Qle_bool_iff|].
  assert (s < 0.8)
    by (apply Qnot_le_lt; intros H; apply Qle_bool_iff in H; congruence).
  destruct (Qle_bool 0.6 s) eqn:H6; [split; [now apply Qle_bool_iff|assumption]|].
  assert (s < 0.6)
    by (apply Qnot_le_lt; intros H'; apply Qle_bool_iff in H'; congruence).
  destruct (Qle_bool 0.3 s) eqn:H3; [split; [now apply Qle_bool_iff|assumption]|].
  apply Qnot_le_lt; intros H'; apply Qle_bool_iff in H'; congruence.
Qed.

(** The mapping from severity to risk level is monotone: a higher severity
    never gives a lower level. *)
Theorem determineRiskLevel_monotone (a1 a2 : Analysis) :
  an_severity a1 <= an_severity a2 ->
  (level_of (determineRiskLevel a1) <= level_of (determineRiskLevel a2))%nat.
Proof.
  intros Hle.
  pose proof (determineRiskLevel_spec a1) as H1.
  pose proof (determineRiskLevel_spec a2) as H2. cbn zeta in H1, H2.
  destruct (determineRiskLevel a1), (determineRiskLevel a2);
    cbn; try lia; try contradiction; exfalso; lra.
Qed.

End Assessment.

(** Witness: a troll. *)
Lemma trolling_is_crisis_witness :
  let a := fst (InterventionManager.assessContent InterventionManager.new sample_env
                  "you mad? this is all nonsense" no_context) in
  InterventionManager.riskLevel a = InterventionManager.CRISIS /\
  InterventionManager.requiresIntervention a = true /\
  last (InterventionManager.triggers a) = Some trolling_message.
Proof.
  apply (trolling_is_crisis_with_message InterventionManager.new sample_env
           "you mad? this is all nonsense" no_context).
  - vm_compute. reflexivity.
  - vm_compute. reflexivity.
Defined.

(** Witness: "hopeless" alone (severity 1/4) against the scenario sentence
    (severity 1/2). *)
Lemma determineRiskLevel_monotone_witness :
  (level_of (InterventionManager.determineRiskLevel
               (InterventionManager.analyzeContent "It all feels hopeless"))
   <= level_of (InterventionManager.determineRiskLevel
                  (InterventionManager.analyzeContent hopeless)))%nat.
Proof.
  apply (determineRiskLevel_monotone
           (InterventionManager.analyzeContent "It all feels hopeless")
           (InterventionManager.analyzeContent hopeless)).
  vm_compute. discriminate.
Defined.

Section Concerns.
Import Regex InterventionManager.
Local Open Scope Q_scope.

Lemma omap_length {A B : Type} (f : A -> option B) (l : list A) :
  (length (omap f l) <= length l)%nat.
Proof.
  induction l as [|x l IH]; cbn; [lia|]. destruct (f x); cbn; lia.
Qed.

(** One family gives no concern, or one concern of its name whose severity is
    a positive fraction of the family. *)
Lemma concern_of_cases (content key : string) (ps : list pattern) :
  concern_of content (key, ps) = [] \/
  exists c, concern_of content (key, ps) = [c] /\ concern_type c = key /\
            0 < concern_severity c /\ concern_severity c <= 1.
Proof.
  unfold concern_of.
  pose proof (omap_length (fun p => match0 p content) ps) as Hlen.
  destruct (omap (fun p => match0 p content) ps) as [|x matches] eqn:E; [now left|].
  right. eexists. split; [reflexivity|]. cbn [concern_type concern_severity].
  split; [reflexivity|].
  assert (Hps : (0 < length ps)%nat) by (cbn in Hlen; lia).
  pose proof (of_nat_pos _ Hps) as Hpos.
  split.
  - apply Qlt_shift_div_l; [exact Hpos|]. rewrite Qmult_0_l.
    apply of_nat_pos. cbn. lia.
  - apply Qle_shift_div_r; [exact Hpos|]. rewrite Qmult_1_l. now apply of_nat_le.
Qed.

(** The concern analysis reports at most the three concerns depression,
    anxiety and isolation, in this order and each at most once; the severity
    of each is in (0,1], and the overall severity, their mean, is in [0,1]
    and is 0 only when there is no concern. *)
Theorem analyzeContent_bounds (content : string) :
  let analysis := analyzeContent content in
  map concern_type (an_concerns analysis)
    `sublist_of` ["depression"; "anxiety"; "isolation"]%string /\
  Forall (fun c => 0 < concern_severity c /\ concern_severity c <= 1)
         (an_concerns analysis) /\
  0 <= an_severity analysis /\ an_severity analysis <= 1 /\
  (an_severity analysis == 0 <-> an_concerns analysis = []).
Proof.
  unfold analyzeContent, concernPatterns.
  cbn [flat_map an_concerns an_severity an_triggers].
  repeat match goal with
  | |- context [concern_of content (?k, ?ps)] =>
      let c := fresh "c" in let Hc := fresh "Hc" in
      let Ht := fresh "Ht" in let H0 := fresh "H0" in let H1 := fresh "H1" in
      destruct (concern_of_cases content k ps) as [Hc|(c & Hc & Ht & H0 & H1)];
      rewrite Hc; clear Hc
  end;
  cbn [app map length foldl]; rewrite ?Ht, ?Ht0, ?Ht1;
  (split; [repeat first [apply sublist_nil | apply sublist_skip; [] | apply sublist_cons]|]);
  (split; [repeat constructor; assumption|]);
  unfold Qdiv, JS.of_nat;
  try change (/ inject_Z (Z.of_nat 1)) with (1 # 1);
  try change (/ inject_Z (Z.of_nat 2)) with (1 # 2);
  try change (/ inject_Z (Z.of_nat 3)) with (1 # 3);
  repeat split; try lra; try discriminate; try (intros; exfalso; lra).
Qed.

(** *** Resources *)

(** The recommended services are the self-help services, then the crisis
    services exactly for the levels HIGH and CRISIS, then the professional
    services exactly when some concern was found; no service is listed
    twice. *)
Theorem getRecommendedResources_spec (riskLevel : RiskLevel) (concerns : list Concern) :
  getRecommendedResources riskLevel concerns =
    RESOURCES_SELF_HELP
    ++ (match riskLevel with HIGH | CRISIS => RESOURCES_CRISIS | _ => [] end)
    ++ (if nonempty concerns then RESOURCES_PROFESSIONAL else []) /\
  NoDup (getRecommendedResources riskLevel concerns).
Proof.
  destruct riskLevel, concerns as [|c concerns]; (split; [reflexivity|]);
    vm_compute; repeat (constructor; [rewrite !list_elem_of_In; cbn; intuition discriminate|]);
    constructor.
Qed.

End Concerns.

Section Sessions.
Import InterventionManager.

Variables (m : Manager) (env : Env) (content : string) (context : Context).

(** In a crisis the concern analysis is skipped, so the assessment has no
    concerns and recommends the self-help and the crisis services only,
    never the professional-help services. *)
Theorem crisis_recommends_no_professional_help :
  detected (checkCrisisIndicators content) = true ->
  let a := fst (assessContent m env content context) in
  concerns a = [] /\
  analysisResults (debugInfo a) = None /\
  recommendedResources a = RESOURCES_SELF_HELP ++ RESOURCES_CRISIS.
Proof.
  intros Hd. unfold assessContent. rewrite Hd. cbn. auto.
Qed.

(** The session an assessment is filed under: the one of the context when it
    gives a non-empty one, a generated one otherwise. *)
Lemma assess_sessionId :
  sessionId (fst (assessContent m env content context)) =
  match ctx_sessionId context with
  | Some id => if JS.truthy id then id else generatedSessionId env
  | None => generatedSessionId env
  end.
Proof.
  unfold assessContent. destruct (detected _); reflexivity.
Qed.

(** An assessment is appended to the history of its session, which becomes
    active, and is remembered as the last one; the histories and the
    activity of all other sessions are untouched. *)
Theorem assessContent_bookkeeping :
  let a := fst (assessContent m env content context) in
  let m' := snd (assessContent m env content context) in
  getSessionHistory m' (sessionId a)
    = getSessionHistory m (sessionId a)
      ++ [ {| h_timestamp := recordedAt env; h_assessment := a |} ] /\
  sessionId a ∈ activeSessions m' /\
  lastAssessment m' = Some a /\
  forall other, other <> sessionId a ->
    getSessionHistory m' other = getSessionHistory m other /\
    (other ∈ activeSessions m' <-> other ∈ activeSessions m).
Proof.
  intros a m'. unfold a, m'. rewrite assess_sessionId.
  unfold assessContent, getSessionHistory, updateSessionState.
  destruct (detected (checkCrisisIndicators content));
    cbn [fst snd interventionHistory activeSessions lastAssessment sessionId];
    (split; [now rewrite lookup_insert_eq|]);
    (split; [apply elem_of_union; left; now apply elem_of_singleton|]);
    (split; [reflexivity|]);
    intros other Hne;
    (split; [now rewrite lookup_insert_ne|
             rewrite elem_of_union, elem_of_singleton; intuition congruence]).
Qed.

End Sessions.

Section ClearSession.
Import InterventionManager.

(** [clearSession] empties the history of the session and ends its
    activity, leaves the other sessions alone, and does not forget the last
    assessment: its debug information stays available even when it belongs
    to the cleared session. *)
Theorem clearSession_spec (m : Manager) (sid : string) :
  getSessionHistory (clearSession m sid) sid = [] /\
  (sid ∉ activeSessions (clearSession m sid)) /\
  (forall other, other <> sid ->
     getSessionHistory (clearSession m sid) other = getSessionHistory m other /\
     (other ∈ activeSessions (clearSession m sid) <-> other ∈ activeSessions m)) /\
  getLastAssessmentDebugInfo (clearSession m sid) = getLastAssessmentDebugInfo m.
Proof.
  unfold getSessionHistory, clearSession, getLastAssessmentDebugInfo;
    cbn [interventionHistory activeSessions lastAssessment].
  split; [now rewrite lookup_delete_eq|].
  split; [rewrite elem_of_difference, elem_of_singleton; intuition congruence|].
  split; [|reflexivity].
  intros other Hne. split; [now rewrite lookup_delete_ne|].
  rewrite elem_of_difference, elem_of_singleton. intuition congruence.
Qed.

(** Assessing and then clearing the session leaves no history of it, but
    the preview of the content is still handed out as debug information. *)
Theorem assess_then_clear (m : Manager) (env : Env) (content : string)
        (context : Context) :
  let a := fst (assessContent m env content context) in
  let m' := clearSession (snd (assessContent m env content context)) (sessionId a) in
  getSessionHistory m' (sessionId a) = [] /\
  (sessionId a ∉ activeSessions m') /\
  contentPreview <$> getLastAssessmentDebugInfo m'
    = Some (String.append (JS.slice0 100 content) "...").
Proof.
  intros a m'. subst m'.
  split; [unfold getSessionHistory, clearSession; cbn [interventionHistory];
          now rewrite lookup_delete_eq|].
  split; [unfold clearSession; cbn [activeSessions];
          rewrite elem_of_difference, elem_of_singleton; intuition congruence|].
  unfold getLastAssessmentDebugInfo, clearSession, assessContent.
  destruct (detected (checkCrisisIndicators content)); reflexivity.
Qed.

End ClearSession.

(** Witness: a crisis without excluding context. *)
Lemma crisis_recommends_witness :
  let a := fst (InterventionManager.assessContent InterventionManager.new sample_env
                  "I want to kill myself" no_context) in
  InterventionManager.concerns a = [] /\
  InterventionManager.analysisResults (InterventionManager.debugInfo a) = None /\
  InterventionManager.recommendedResources a
    = InterventionManager.RESOURCES_SELF_HELP ++ InterventionManager.RESOURCES_CRISIS.
Proof.
  apply (crisis_recommends_no_professional_help InterventionManager.new sample_env
           "I want to kill myself" no_context).
  vm_compute. reflexivity.
Defined.

(** ** Classifier: ranking and confidence *)

Section Ranking.
Import ContentClassifier.
Local Open Scope Q_scope.

Lemma insert_by_score_perm (x : string * CategoryData) (l : list (string * CategoryData)) :
  insert_by_score x l ≡ₚ x :: l.
Proof.
  induction l as [|y l IH]; cbn; [reflexivity|].
  destruct (Qlt_le_dec _ _); [|reflexivity].
  rewrite IH. apply Permutation_swap.
Qed.

Lemma sort_by_score_perm (l : list (string * CategoryData)) :
  sort_by_score l ≡ₚ l.
Proof.
  induction l as [|x l IH]; cbn; [reflexivity|].
  rewrite insert_by_score_perm. now apply Permutation_skip.
Qed.

(** After sorting, the first element has the highest score. *)
Lemma insert_by_score_head (x : string * CategoryData) (l : list (string * CategoryData)) :
  (forall h t, l = h :: t -> Forall (fun y => cat_score (snd y) <= cat_score (snd h)) l) ->
  forall h t, insert_by_score x l = h :: t ->
    Forall (fun y => cat_score (snd y) <= cat_score (snd h)) (x :: l).
Proof.
  intros Hl h t. destruct l as [|y l]; cbn.
  - intros [= <- <-]. repeat constructor. apply Qle_refl.
  - specialize (Hl y l eq_refl).
    destruct (Qlt_le_dec (cat_score (snd x)) (cat_score (snd y))) as [Hlt|Hle].
    + intros [= <- <-]. constructor; [now apply Qlt_le_weak | exact Hl].
    + intros [= <- <-]. constructor; [apply Qle_refl|].
      eapply Forall_impl; [exact Hl|]. intros z Hz. cbn in Hz.
      eapply Qle_trans; eauto.
Qed.

Lemma sort_by_score_head (l : list (string * CategoryData)) :
  forall h t, sort_by_score l = h :: t ->
    Forall (fun y => cat_score (snd y) <= cat_score (snd h)) l.
Proof.
  induction l as [|x l IH]; cbn; [discriminate|].
  intros h t Hs.
  pose proof (insert_by_score_head x (sort_by_score l)) as Hins.
  assert (Hall : Forall (fun y => cat_score (snd y) <= cat_score (snd h))
                        (x :: sort_by_score l)).
  { apply (Hins) with (t := t); [|exact Hs].
    intros h' t' E.
    eapply Permutation_Forall; [symmetry; apply sort_by_score_perm|].
    eapply IH; eauto. }
  inversion Hall as [|? ? Hx Hrest]; subst. constructor; [exact Hx|].
  eapply Permutation_Forall; [apply sort_by_score_perm|exact Hrest].
Qed.

Lemma get_In {A : Type} (l : list (string * A)) (k : string) (v : A) :
  JS.get l k = Some v -> In (k, v) l.
Proof.
  induction l as [|[k' v'] l IH]; cbn; [discriminate|].
  destruct (String.eqb_spec k' k) as [->|Hne].
  - intros [= ->]. now left.
  - intros H. right. auto.
Qed.

Lemma In_get {A : Type} (l : list (string * A)) (k : string) (v : A) :
  NoDup (map fst l) -> In (k, v) l -> JS.get l k = Some v.
Proof.
  induction l as [|[k' v'] l IH]; cbn; [contradiction|].
  intros Hnd [Heq|Hin].
  - injection Heq as -> ->. now rewrite String.eqb_refl.
  - apply NoDup_cons in Hnd as [Hk Hnd].
    destruct (String.eqb_spec k' k) as [->|Hne]; [|auto].
    exfalso. apply Hk. apply list_elem_of_In.
    change k with (fst (k, v)). now apply in_map.
Qed.

Lemma get_fmap_entries {A B : Type} (g : string -> A -> B)
      (l : list (string * A)) (k : string) :
  JS.get (map (fun '(n, d) => (n, g n d)) l) k = g k <$> JS.get l k.
Proof.
  induction l as [|[k' v'] l IH]; cbn; [reflexivity|].
  destruct (String.eqb_spec k' k) as [->|Hne]; [reflexivity|exact IH].
Qed.

Lemma category_names (text : string) :
  map fst (detectCategories text) = map fst CATEGORIES.
Proof. reflexivity. Qed.

Lemma category_names_NoDup : NoDup (map fst CATEGORIES).
Proof.
  cbn. repeat (constructor; [rewrite !list_elem_of_In; cbn; intuition discriminate|]).
  constructor.
Qed.

Lemma foldl_nonneg {A : Type} (f : Q -> A -> Q) (l : list A) :
  (forall q a, 0 <= q -> 0 <= f q a) ->
  forall q, 0 <= q -> 0 <= foldl f q l.
Proof.
  intros Hf. induction l as [|a l IH]; cbn; auto.
Qed.

Lemma topic_scores_nonneg (text name : string) (t : TopicData) :
  JS.get (analyzeTopics text) name = Some t -> 0 <= topic_score t.
Proof.
  intros Hget%get_In. unfold analyzeTopics in Hget.
  apply in_map_iff in Hget as ([n config] & [= _ <-] & Hin).
  apply topic_score_bounds, in_map_iff. now exists (n, config).
Qed.

Lemma style_scores_nonneg (text name : string) (st : StyleData) :
  JS.get (analyzeStyle text) name = Some st -> 0 <= style_score st.
Proof.
  intros Hget%get_In. unfold analyzeStyle in Hget.
  apply in_map_iff in Hget as ([n config] & [= _ <-] & Hin).
  cbn in Hin.
  repeat (destruct Hin as [[= <- <-]|Hin];
          [apply style_score_unit; cbn; discriminate|]).
  contradiction.
Qed.

Lemma category_score_of_entry (text name : string) (d : CategoryData) :
  In (name, d) (detectCategories text) -> unit_interval (cat_score d).
Proof.
  unfold detectCategories. intros ([n config] & [= _ <-] & Hin)%in_map_iff.
  apply category_score_unit, in_map_iff. now exists (n, config).
Qed.

(** The confidence of a category of the table is defined and in [0,1]. *)
Lemma confidence_of_entry (text name : string) (d : CategoryData) (metrics : Metrics) :
  In (name, d) (detectCategories text) ->
  exists q,
    JS.get (calculateConfidence (detectCategories text) (analyzeTopics text)
                                (analyzeStyle text) metrics) name = Some q /\
    unit_interval q.
Proof.
  intros Hin. unfold calculateConfidence.
  rewrite (get_fmap_entries
             (fun category data =>
                Qmin (adjust_styles (analyzeStyle text) (getRelevantStyles category)
                        (adjust_topics (analyzeTopics text) (getRelevantTopics category)
                           (cat_score data))) 1)).
  rewrite (In_get _ _ _ (eq_ind_r NoDup category_names_NoDup (category_names text)) Hin).
  eexists. split; [reflexivity|]. cbv beta. split; [|apply Q.le_min_r].
  apply Q.min_glb; [|discriminate].
  unfold adjust_styles, adjust_topics.
  apply foldl_nonneg.
  - intros q a Hq. destruct (JS.get (analyzeStyle text) a) as [st|] eqn:E; [|exact Hq].
    pose proof (style_scores_nonneg _ _ _ E).
    apply fmul_nonneg; [exact Hq|]. apply fadd_nonneg; [discriminate|].
    apply fmul_nonneg; [assumption|vm_compute; discriminate].
  - apply foldl_nonneg.
    + intros q a Hq. destruct (JS.get (analyzeTopics text) a) as [t|] eqn:E; [|exact Hq].
      pose proof (topic_scores_nonneg _ _ _ E).
      apply fmul_nonneg; [exact Hq|]. apply fadd_nonneg; [discriminate|].
      apply fmul_nonneg; [assumption|vm_compute; discriminate].
    + now apply (category_score_of_entry text name d).
Qed.

(** Every classification names a primary category and exactly two secondary
    ones, three different categories of the table, each with a defined
    confidence in [0,1]. *)
Theorem classification_well_formed (text : string) (now : Z) :
  exists r,
    classify text now = JS.Returns r /\
    length (secondary r) = 2%nat /\
    NoDup (category (primary r) :: map category (secondary r)) /\
    Forall (fun c => In (category c) (map fst CATEGORIES) /\
                     exists q, confidence c = Some q /\ unit_interval q)
           (primary r :: secondary r).
Proof.
  unfold classify.
  set (text' := normalizeText text).
  pose proof (sort_by_score_perm (detectCategories text')) as Hperm.
  assert (Hnd : NoDup (map fst (sort_by_score (detectCategories text')))).
  { eapply NoDup_Permutation_proper; [apply fmap_Permutation, Hperm|].
    rewrite category_names. apply category_names_NoDup. }
  assert (Hin : forall x, In x (sort_by_score (detectCategories text')) ->
                          In x (detectCategories text')).
  { intros x Hx. apply list_elem_of_In. rewrite <- Hperm.
    apply list_elem_of_In. exact Hx. }
  pose proof (Permutation_length Hperm) as Hlen.
  destruct (sort_by_score (detectCategories text'))
    as [|[n1 d1] [|[n2 d2] [|[n3 d3] rest]]]; try discriminate Hlen.
  eexists. split; [reflexivity|].
  cbn -[calculateConfidence detectCategories analyzeTopics analyzeStyle
        calculateMetrics tokenize splitSentences CATEGORIES].
  change (take 0 rest) with (@nil (string * CategoryData)). cbn [map].
  split; [reflexivity|].
  split.
  { cbn in Hnd. apply NoDup_cons in Hnd as [H1 Hnd].
    apply NoDup_cons in Hnd as [H2 Hnd]. apply NoDup_cons in Hnd as [H3 _].
    rewrite !elem_of_cons in H1. rewrite !elem_of_cons in H2.
    repeat constructor; rewrite ?elem_of_cons, ?elem_of_nil; intuition. }
  assert (Hrank : forall n d, In (n, d) (detectCategories text') ->
            In n (map fst CATEGORIES) /\
            exists q,
              JS.get (calculateConfidence (detectCategories text') (analyzeTopics text')
                        (analyzeStyle text')
                        (calculateMetrics (tokenize text') (splitSentences text'))) n
              = Some q /\ unit_interval q).
  { intros n d Hnd'. split.
    - rewrite <- (category_names text'). change n with (fst (n, d)). now apply in_map.
    - now apply (confidence_of_entry text' n d). }
  constructor; [apply (Hrank n1 d1), Hin; cbn; auto|].
  constructor; [apply (Hrank n2 d2), Hin; cbn; auto|].
  constructor; [apply (Hrank n3 d3), Hin; cbn; auto|].
  constructor.
Qed.

(** The primary category has the highest score of the table, as the program
    computes the scores. *)
Theorem primary_has_highest_score (text : string) (now : Z) :
  exists r d,
    classify text now = JS.Returns r /\
    JS.get (detectCategories (normalizeText text)) (category (primary r)) = Some d /\
    Forall (fun q => q <= cat_score d) (category_scores text).
Proof.
  unfold classify, category_scores.
  set (text' := normalizeText text).
  pose proof (sort_by_score_perm (detectCategories text')) as Hperm.
  pose proof (sort_by_score_head (detectCategories text')) as Hhead.
  destruct (sort_by_score (detectCategories text')) as [|[n1 d1] rest] eqn:E.
  { apply Permutation_length in Hperm. discriminate Hperm. }
  eexists _, d1. split; [reflexivity|]. cbn [primary category]. split.
  - apply In_get.
    + rewrite category_names. apply category_names_NoDup.
    + apply list_elem_of_In. rewrite <- Hperm. left.
  - specialize (Hhead _ _ eq_refl). apply Forall_map.
    eapply Forall_impl; [exact Hhead|]. intros y Hy. exact Hy.
Qed.

(** Rounding decides a ranking: three of the nine descriptors of ETHICAL
    and three of the six context markers of PROFESSIONAL are both 0.2 as
    exact numbers, and ETHICAL comes first in the table; the program computes
    0.19999999999999998 for ETHICAL and 0.2 for PROFESSIONAL, and ranks
    PROFESSIONAL first. *)
Example rounding_decides_the_primary :
  exists r,
    classify "A moral dilemma, ethics at stake: work, business, company." 1%Z
      = JS.Returns r /\
    category (primary r) = "PROFESSIONAL"%string /\
    map category (secondary r) = ["ETHICAL"; "PERSONAL"]%string /\
    map (fun name => cat_score <$>
           JS.get (detectCategories
                     (normalizeText
                        "A moral dilemma, ethics at stake: work, business, company."))
                  name)
        ["ETHICAL"; "PROFESSIONAL"]%string
    = [Some (JS.fmul (JS.fdiv 3 9) (JS.double 0.6));
       Some (JS.double 0.2)].
Proof. eexists. vm_compute. repeat split. Qed.

End Ranking.

(** ** Strings: trimming and splitting *)

Section Strings.

Lemma blank_rev_append (s acc : string) :
  blank (JS.rev_append s acc) = blank s && blank acc.
Proof.
  revert acc. induction s as [|c s IH]; intros acc; cbn; [reflexivity|].
  rewrite IH. cbn. now destruct (JS.is_space c), (blank s), (blank acc).
Qed.

Lemma blank_rev (s : string) : blank (JS.rev s) = blank s.
Proof. unfold JS.rev. rewrite blank_rev_append. cbn. apply andb_true_r. Qed.

Lemma truthy_rev_append (s acc : string) :
  JS.truthy (JS.rev_append s acc) = JS.truthy s || JS.truthy acc.
Proof.
  revert acc. induction s as [|c s IH]; intros acc; cbn; [reflexivity|].
  rewrite IH. cbn. apply orb_true_r.
Qed.

Lemma truthy_rev (s : string) : JS.truthy (JS.rev s) = JS.truthy s.
Proof. unfold JS.rev. rewrite truthy_rev_append. cbn. apply orb_false_r. Qed.

Lemma truthy_trimStart (s : string) : JS.truthy (JS.trimStart s) = negb (blank s).
Proof.
  induction s as [|c s IH]; cbn; [reflexivity|].
  destruct (JS.is_space c); [exact IH|reflexivity].
Qed.

Lemma blank_trimStart (s : string) : blank (JS.trimStart s) = blank s.
Proof.
  induction s as [|c s IH]; cbn; [reflexivity|].
  destruct (JS.is_space c) eqn:E; [exact IH|]. cbn. now rewrite E.
Qed.

(** [s.trim()] is the empty string exactly when [s] is blank. *)
Lemma truthy_trim (s : string) : JS.truthy (JS.trim s) = negb (blank s).
Proof.
  unfold JS.trim, JS.trimEnd.
  now rewrite truthy_rev, truthy_trimStart, blank_rev, blank_trimStart.
Qed.

(** Splitting a string made of separators only gives empty pieces. *)
Lemma split_runs_only_separators (sep : ascii -> bool) (s : string) (in_sep : bool) :
  some_char (fun c => negb (sep c)) s = false ->
  Forall (fun piece => piece = EmptyString) (JS.split_runs sep s EmptyString in_sep).
Proof.
  revert in_sep. induction s as [|c s IH]; intros in_sep; cbn.
  - intros _. repeat constructor.
  - intros [Hc Hs]%orb_false_elim. apply negb_false_iff in Hc. rewrite Hc.
    destruct in_sep; [auto|]. constructor; [reflexivity|auto].
Qed.

(** A character that is no separator ends up in a piece; if it is not white
    space either, that piece is not blank. *)
Lemma split_runs_keeps_solid (sep : ascii -> bool) (s cur : string) (in_sep : bool) :
  some_char (fun c => negb (sep c) && negb (JS.is_space c)) s || negb (blank cur) = true ->
  Exists (fun piece => blank piece = false) (JS.split_runs sep s cur in_sep).
Proof.
  revert cur in_sep. induction s as [|c s IH]; intros cur in_sep; cbn.
  - intros H. constructor. rewrite blank_rev. now apply negb_true_iff.
  - destruct (sep c) eqn:Hc; cbn.
    + intros H. destruct in_sep; [now apply IH|].
      destruct (blank cur) eqn:Hb.
      * apply Exists_cons_tl. apply IH. cbn. now rewrite orb_false_r in *.
      * apply Exists_cons_hd. now rewrite blank_rev.
    + intros H. apply IH. cbn.
      destruct (JS.is_space c); cbn in *; [exact H|]. apply orb_true_r.
Qed.

Lemma word_char_is_solid (c : ascii) : JS.is_word_char c = true -> solid c = true.
Proof.
  destruct c as [[] [] [] [] [] [] [] []]; vm_compute; intros H;
    first [reflexivity | discriminate H].
Qed.

Lemma some_char_ext (P Q : ascii -> bool) (s : string) :
  (forall c, P c = Q c) -> some_char P s = some_char Q s.
Proof.
  intros HPQ. induction s as [|c s IH]; cbn; [reflexivity|]. now rewrite HPQ, IH.
Qed.

Lemma some_char_impl (P Q : ascii -> bool) (s : string) :
  (forall c, P c = true -> Q c = true) ->
  some_char P s = true -> some_char Q s = true.
Proof.
  intros HPQ. induction s as [|c s IH]; cbn; [discriminate|].
  intros [H|H]%orb_true_iff; apply orb_true_iff; auto.
Qed.

End Strings.

(** ** Classifier: metrics, ties and the cache *)

Section Metrics.
Import ContentClassifier.
Local Open Scope Q_scope.

Lemma tokens_not_empty (text : string) :
  Forall (fun w => (1 <= String.length w)%nat) (tokenize text).
Proof.
  apply Forall_forall. intros w Hw. unfold tokenize in Hw.
  apply list_elem_of_filter in Hw as [Hw _].
  destruct w; [discriminate Hw|cbn; lia].
Qed.

Lemma total_length_ge (words : list string) (acc : nat) :
  Forall (fun w => (1 <= String.length w)%nat) words ->
  (acc + length words
   <= foldl (fun sum word => sum + String.length word) acc words)%nat.
Proof.
  revert acc. induction words as [|w words IH]; intros acc Hall; cbn; [lia|].
  apply Forall_cons in Hall as [Hw Hall].
  specialize (IH (acc + String.length w)%nat Hall). lia.
Qed.

(** A text with a word has a sentence. *)
Lemma words_have_a_sentence (text : string) :
  tokenize text <> [] -> splitSentences text <> [].
Proof.
  intros Hwords.
  assert (Hword : some_char JS.is_word_char text = true).
  { destruct (some_char JS.is_word_char text) eqn:E; [reflexivity|].
    exfalso. apply Hwords. unfold tokenize, JS.split.
    assert (Hempty : Forall (fun piece => piece = EmptyString)
              (JS.split_runs (fun c => negb (JS.is_word_char c)) text EmptyString false)).
    { apply split_runs_only_separators.
      rewrite (some_char_ext _ JS.is_word_char); [exact E|].
      intros c. apply negb_involutive. }
    induction (JS.split_runs _ text EmptyString false) as [|p l IHl];
      [reflexivity|].
    apply Forall_cons in Hempty as [-> Hl].
    rewrite filter_cons_False; [now apply IHl|]. cbn. discriminate. }
  apply (some_char_impl _ solid _ word_char_is_solid) in Hword.
  pose proof (split_runs_keeps_solid is_sentence_end text EmptyString false) as Hex.
  unfold solid in Hword. rewrite Hword in Hex. specialize (Hex eq_refl).
  apply Exists_exists in Hex as (piece & Hin & Hpiece).
  intros Hnone.
  assert (Hmem : JS.trim piece ∈ splitSentences text).
  { unfold splitSentences. apply list_elem_of_filter. split.
    - rewrite truthy_trim, Hpiece. reflexivity.
    - apply list_elem_of_fmap. exists piece. split; [reflexivity|exact Hin]. }
  rewrite Hnone in Hmem. inversion Hmem.
Qed.

(** The two averages are NaN or finite, never infinite: averageWordLength is
    NaN when there is no word and at least 1 otherwise; averageSentenceLength
    is NaN when there is neither word nor sentence and a finite non-negative
    number otherwise. *)
Theorem metrics_averages (text : string) (now : Z) :
  exists r,
    classify text now = JS.Returns r /\
    (wordCount (metrics r) = 0%nat /\ averageWordLength (metrics r) = JS.NaN \/
     (0 < wordCount (metrics r))%nat /\
     exists q, averageWordLength (metrics r) = JS.Num q /\ 1 <= q) /\
    (sentenceCount (metrics r) = 0%nat /\ wordCount (metrics r) = 0%nat /\
     averageSentenceLength (metrics r) = JS.NaN \/
     (0 < sentenceCount (metrics r))%nat /\
     exists q, averageSentenceLength (metrics r) = JS.Num q /\ 0 <= q).
Proof.
  destruct (classify_returns text now) as [r Hr]. exists r. split; [exact Hr|].
  rewrite (classify_metrics _ _ _ Hr).
  set (text' := normalizeText text).
  pose proof (tokens_not_empty text') as Htok.
  pose proof (total_length_ge (tokenize text') 0 Htok) as Hsum.
  pose proof (words_have_a_sentence text') as Hsent.
  unfold calculateMetrics;
    cbn [wordCount sentenceCount averageWordLength averageSentenceLength].
  split.
  - destruct (tokenize text') as [|w ws]; [left; split; reflexivity|].
    right. split; [cbn; lia|]. unfold JS.div_nat. cbn [length].
    eexists. split; [reflexivity|].
    apply Qle_shift_div_l; [apply of_nat_pos; lia|].
    rewrite Qmult_1_l. apply of_nat_le. cbn [length] in Hsum. lia.
  - destruct (splitSentences text') as [|x xs].
    + left. destruct (tokenize text') as [|w ws]; [repeat split|].
      exfalso. now apply Hsent.
    + right. split; [cbn; lia|]. unfold JS.div_nat. cbn [length].
      eexists. split; [reflexivity|].
      apply Qle_shift_div_l; [apply of_nat_pos; lia|].
      rewrite Qmult_0_l. apply of_nat_nonneg.
Qed.

End Metrics.

Section Ties.
Import ContentClassifier.
Local Open Scope Q_scope.

(** With equal scores everywhere the stable sort keeps the table order. *)
Lemma sort_by_score_all_zero (l : list (string * CategoryData)) :
  Forall (fun x => cat_score (snd x) == 0) l -> sort_by_score l = l.
Proof.
  induction l as [|x l IH]; [reflexivity|].
  intros [Hx Hl]%Forall_cons.
  change (sort_by_score (x :: l)) with (insert_by_score x (sort_by_score l)).
  rewrite (IH Hl).
  destruct l as [|y l']; cbn; [reflexivity|].
  destruct (Qlt_le_dec (cat_score (snd x)) (cat_score (snd y))) as [Hlt|_];
    [|reflexivity].
  apply Forall_cons in Hl as [Hy _]. rewrite Hx, Hy in Hlt.
  now apply Qlt_irrefl in Hlt.
Qed.

Lemma foldl_zero {A : Type} (f : Q -> A -> Q) (l : list A) :
  (forall q a, q == 0 -> f q a == 0) ->
  forall q, q == 0 -> foldl f q l == 0.
Proof.
  intros Hf. induction l as [|a l IH]; cbn; auto.
Qed.

Lemma confidence_zero (text name : string) (d : CategoryData) (metrics : Metrics) :
  In (name, d) (detectCategories text) -> cat_score d == 0 ->
  exists q,
    JS.get (calculateConfidence (detectCategories text) (analyzeTopics text)
                                (analyzeStyle text) metrics) name = Some q /\
    q == 0.
Proof.
  intros Hin Hzero. unfold calculateConfidence.
  rewrite (get_fmap_entries
             (fun category data =>
                Qmin (adjust_styles (analyzeStyle text) (getRelevantStyles category)
                        (adjust_topics (analyzeTopics text) (getRelevantTopics category)
                           (cat_score data))) 1)).
  rewrite (In_get _ _ _ (eq_ind_r NoDup category_names_NoDup (category_names text)) Hin).
  eexists. split; [reflexivity|]. cbv beta.
  assert (Hadj : adjust_styles (analyzeStyle text) (getRelevantStyles name)
                   (adjust_topics (analyzeTopics text) (getRelevantTopics name)
                      (cat_score d)) == 0).
  { unfold adjust_styles, adjust_topics. apply foldl_zero.
    - intros q a Hq. destruct (JS.get _ a); [|exact Hq].
      unfold JS.fmul. rewrite double_zero; [reflexivity|]. rewrite Hq. apply Qmult_0_l.
    - apply foldl_zero; [|exact Hzero].
      intros q a Hq. destruct (JS.get _ a); [|exact Hq].
      unfold JS.fmul. rewrite double_zero; [reflexivity|]. rewrite Hq. apply Qmult_0_l. }
  rewrite Q.min_l; [exact Hadj|]. rewrite Hadj. discriminate.
Qed.

(** A text in which no descriptor and no context marker of any category
    occurs (all category scores are 0) is classified all the same: the
    primary category is the first of the table, PERSONAL, the secondary ones
    are the next two, and their confidences are 0. *)
Theorem no_match_is_personal (text : string) (now : Z) :
  Forall (fun q => q == 0) (category_scores text) ->
  exists r,
    classify text now = JS.Returns r /\
    category (primary r) = "PERSONAL"%string /\
    map category (secondary r) = ["RELATIONSHIP"; "ETHICAL"]%string /\
    Forall (fun c => exists q, confidence c = Some q /\ q == 0)
           (primary r :: secondary r).
Proof.
  intros Hzero. unfold category_scores in Hzero. apply Forall_map in Hzero.
  unfold classify. set (text' := normalizeText text) in *.
  rewrite (sort_by_score_all_zero _ Hzero).
  set (cats := detectCategories text') in *.
  set (conf := calculateConfidence cats (analyzeTopics text') (analyzeStyle text')
                 (calculateMetrics (tokenize text') (splitSentences text'))).
  assert (Hconf : forall n d, In (n, d) cats ->
                              exists q, JS.get conf n = Some q /\ q == 0).
  { intros n d Hin. apply (confidence_zero text' n d); [exact Hin|].
    apply (proj1 (Forall_forall _ _) Hzero (n, d)). now apply list_elem_of_In. }
  assert (Hcats : exists d1 d2 d3 rest,
            cats = ("PERSONAL"%string, d1) :: ("RELATIONSHIP"%string, d2)
                   :: ("ETHICAL"%string, d3) :: rest)
    by (do 4 eexists; reflexivity).
  destruct Hcats as (d1 & d2 & d3 & rest & Hcats).
  clearbody conf cats. subst cats.
  eexists. split; [reflexivity|]. cbn.
  split; [reflexivity|]. split; [reflexivity|].
  repeat (constructor; [eapply Hconf; cbn; eauto 10|]).
  constructor.
Qed.

End Ties.

(** Witness: a text without any phrase of the tables. *)
Lemma no_match_is_personal_witness :
  exists r,
    ContentClassifier.classify "Zebra quartz." 1%Z = JS.Returns r /\
    ContentClassifier.category (ContentClassifier.primary r) = "PERSONAL" /\
    map ContentClassifier.category (ContentClassifier.secondary r)
      = ["RELATIONSHIP"; "ETHICAL"] /\
    Forall (fun c => exists q, ContentClassifier.confidence c = Some q /\ (q == 0)%Q)
           (ContentClassifier.primary r :: ContentClassifier.secondary r).
Proof.
  apply (no_match_is_personal "Zebra quartz." 1%Z).
  vm_compute. repeat constructor.
Defined.

Section CacheEntries.
Import ContentClassifier.
Context {Options : Type} (JSON_stringify : Options -> string).

Lemma classify_timestamp (text : string) (now : Z) :
  exists r, classify text now = JS.Returns r /\ timestamp r = now.
Proof.
  destruct (classify_returns text now) as [r Hr]. exists r. split; [exact Hr|].
  unfold classify in Hr. destruct (sort_by_score _); [discriminate|].
  apply Returns_inj in Hr. now subst r.
Qed.

(** A call that no other call overlaps changes the cache at most under its
    own key, and only when that key was absent: it replaces no entry.  The
    write of the second turn touches no other key either, whatever happened
    to the cache in between, but it overwrites what it finds under its own
    key.  So when two calls with the same key overlap (both miss before
    either has written), both compute, each caller gets its own result, and
    the entry of the call that resumes first is replaced by the result of the
    other. *)
Theorem cache_entries_kept_unless_overlapped
        (cache : gmap string ClassificationResult)
        (text : string) (options : Options) (now : Z) :
  let own := getCacheKey JSON_stringify text options in
  (let cache' := snd (classifyContent JSON_stringify cache text options now) in
   (forall key r, cache !! key = Some r -> cache' !! key = Some r) /\
   (forall key, key <> own -> cache' !! key = cache !! key)) /\
  (forall (later : gmap string ClassificationResult) (call : Suspended) (now' : Z),
     let resumed := classifyContent_resume later call now' in
     (forall key, key <> s_cacheKey call -> snd resumed !! key = later !! key) /\
     exists r, fst resumed = JS.Returns r /\ timestamp r = now' /\
               snd resumed !! s_cacheKey call = Some r) /\
  (cache !! own = None ->
   forall (text2 : string) (now1 now2 : Z),
     getCacheKey JSON_stringify text2 options = own ->
     exists call1 call2 r1 r2,
       classifyContent_begin JSON_stringify cache text options = Awaits call1 /\
       classifyContent_begin JSON_stringify cache text2 options = Awaits call2 /\
       let first := classifyContent_resume cache call1 now1 in
       let second := classifyContent_resume (snd first) call2 now2 in
       classify text now1 = JS.Returns r1 /\ classify text2 now2 = JS.Returns r2 /\
       timestamp r1 = now1 /\ timestamp r2 = now2 /\
       fst first = JS.Returns r1 /\ snd first !! own = Some r1 /\
       fst second = JS.Returns r2 /\ snd second !! own = Some r2).
Proof.
  intros own. split; [|split].
  - cbn zeta.
    destruct (cache !! getCacheKey JSON_stringify text options) as [cached|] eqn:E.
    + rewrite (classifyContent_hit _ _ _ _ _ _ E). cbn. auto.
    + destruct (classifyContent_miss JSON_stringify cache text options now E)
        as (result & _ & ->). cbn. split.
      * intros key r Hkey. rewrite lookup_insert_ne; [exact Hkey|].
        intros <-. congruence.
      * intros key Hne. now rewrite lookup_insert_ne.
  - intros later call now' resumed. subst resumed. unfold classifyContent_resume.
    destruct (classify_timestamp (s_text call) now') as (r & -> & Hnow). cbn.
    split; [intros key Hne; now rewrite lookup_insert_ne|].
    exists r. split; [reflexivity|]. split; [exact Hnow|apply lookup_insert_eq].
  - intros Hmiss text2 now1 now2 Hkey.
    destruct (classify_timestamp text now1) as (r1 & Hr1 & Hnow1).
    destruct (classify_timestamp text2 now2) as (r2 & Hr2 & Hnow2).
    unfold classifyContent_begin. rewrite Hkey. fold own. rewrite Hmiss.
    do 2 eexists. exists r1, r2.
    split; [reflexivity|]. split; [reflexivity|].
    unfold classifyContent_resume. cbn [s_text s_cacheKey]. rewrite Hr1.
    cbn [fst snd]. rewrite Hr2. cbn [fst snd].
    split; [reflexivity|]. split; [reflexivity|].
    split; [exact Hnow1|]. split; [exact Hnow2|]. split; [reflexivity|].
    split; [apply lookup_insert_eq|]. split; [reflexivity|apply lookup_insert_eq].
Qed.

End CacheEntries.

(** ** Requests: what every run looks like *)

Section Runs.
Import APIService.
Local Open Scope Q_scope.
Variable network : nat -> Reply.

Lemma backoff_cons (base : Q) (first k : nat) :
  backoff base first (S k)
  = base * inject_Z (2 ^ (Z.of_nat first - 1)) :: backoff base (S first) k.
Proof. reflexivity. Qed.

Lemma powers_sum (k first : nat) :
  (1 <= first)%nat ->
  foldr Z.add 0%Z (map (fun i => (2 ^ (Z.of_nat i - 1))%Z) (seq first k))
  = (2 ^ (Z.of_nat first - 1) * (2 ^ Z.of_nat k - 1))%Z.
Proof.
  revert first. induction k as [|k IH]; intros first Hfirst.
  - cbn. lia.
  - cbn [seq map foldr]. rewrite IH by lia.
    replace (Z.of_nat (S first) - 1)%Z with (Z.of_nat first - 1 + 1)%Z by lia.
    replace (Z.of_nat (S k)) with (Z.of_nat k + 1)%Z by lia.
    rewrite !Z.pow_add_r by lia. lia.
Qed.

Lemma total_backoff (base : Q) (k first : nat) :
  (1 <= first)%nat ->
  foldr Qplus 0 (backoff base first k)
  == base * inject_Z (2 ^ (Z.of_nat first - 1) * (2 ^ Z.of_nat k - 1)).
Proof.
  intros Hfirst. rewrite <- (powers_sum k first Hfirst). unfold backoff.
  generalize (seq first k) as l. induction l as [|i l IH]; cbn [map foldr].
  - change (inject_Z 0) with 0. ring.
  - rewrite IH, inject_Z_plus. ring.
Qed.

Lemma attempts_run (max base : Q) :
  forall fuel attempt,
    (attempt + fuel = iterations max)%nat ->
    let r := attempts network max base fuel attempt in
    (calls r <= fuel)%nat /\
    ((0 < fuel)%nat -> (1 <= calls r)%nat) /\
    sleeps r = backoff base (S attempt) (calls r - 1) /\
    retryable_failures network attempt (calls r - 1) /\
    match settled r with
    | Resolved response => network (attempt + (calls r - 1))%nat = Ok response
    | Rejected error =>
        network (attempt + (calls r - 1))%nat = Err error /\
        (isRetryable error = false \/ (attempt + calls r = iterations max)%nat)
    | ResolvedUndefined => fuel = 0%nat /\ calls r = 0%nat
    end.
Proof.
  induction fuel as [|fuel IH]; intros attempt Hsum.
  - cbn. repeat split; try lia. intros j Hj. lia.
  - cbn [attempts]. rewrite !reached.
    destruct (Nat.leb_spec (iterations max) attempt); [lia|].
    destruct (network attempt) as [response|error] eqn:Hreply.
    + cbn. rewrite Nat.add_0_r.
      repeat split; try lia; try assumption; intros j Hj; lia.
    + destruct (isRetryable error) eqn:Hretry; cbn [negb].
      * destruct (Nat.leb_spec (iterations max) (S attempt)) as [Hlast|Hmore].
        -- cbn. rewrite Nat.add_0_r.
           repeat split; try lia; try assumption;
             first [intros j Hj; lia | right; lia].
        -- specialize (IH (S attempt)). cbn zeta in IH.
           destruct IH as (Hcalls & Hsome & Hsleeps & Hfail & Hsettled); [lia|].
           set (rest := attempts network max base fuel (S attempt)) in *.
           assert (Hone : (1 <= calls rest)%nat) by (apply Hsome; lia).
           cbn [calls sleeps settled].
           replace (S (calls rest) - 1)%nat with (S (calls rest - 1)) by lia.
           split; [lia|]. split; [lia|].
           split; [rewrite backoff_cons, Hsleeps; reflexivity|].
           split.
           ++ intros [|j] Hj.
              ** exists error. now rewrite Nat.add_0_r.
              ** destruct (Hfail j) as (e & He & Hr); [lia|].
                 exists e. rewrite Nat.add_succ_r. auto.
           ++ replace (attempt + S (calls rest - 1))%nat
                with (S attempt + (calls rest - 1))%nat by lia.
              destruct (settled rest); [exact Hsettled| |lia].
              destruct Hsettled as [He Hstop]. split; [exact He|].
              destruct Hstop; [now left|right; lia].
      * cbn. rewrite Nat.add_0_r.
        repeat split; try lia; try assumption;
          first [intros j Hj; lia | now left].
Qed.

(** Every request that is not queued makes at most [iterations maxAttempts]
    calls ([maxAttempts] itself when that is a natural number), and at least
    one when [maxAttempts] is positive; each call but the last failed with a
    retryable error and was followed by the back-off wait of its number;
    nothing is waited after the last call, whose outcome settles the request;
    a rejection means that the last error is not retryable or that the
    attempts are used up; the request resolves with [undefined], without any
    call, exactly when [maxAttempts] is negative.  The waits add up to
    [baseDelay * (2^(calls-1) - 1)] milliseconds. *)
Theorem request_run (options : RequestOptions) (q : Queue) :
  queued options = false ->
  exists r,
    request network options q = Settles r /\
    (calls r <= iterations (maxAttempts options))%nat /\
    (0 < maxAttempts options -> (1 <= calls r)%nat) /\
    sleeps r = backoff (baseDelay options) 1 (calls r - 1) /\
    total_wait r == baseDelay options * inject_Z (2 ^ Z.of_nat (calls r - 1) - 1) /\
    retryable_failures network 0 (calls r - 1) /\
    match settled r with
    | Resolved response => network (calls r - 1)%nat = Ok response
    | Rejected error =>
        network (calls r - 1)%nat = Err error /\
        (isRetryable error = false \/ calls r = iterations (maxAttempts options))
    | ResolvedUndefined => maxAttempts options < 0 /\ calls r = 0%nat
    end /\
    (maxAttempts options < 0 -> settled r = ResolvedUndefined).
Proof.
  intros Hq. unfold request. rewrite Hq. eexists. split; [reflexivity|].
  destruct (attempts_run (maxAttempts options) (baseDelay options)
              (iterations (maxAttempts options)) 0 eq_refl)
    as (Hcalls & Hsome & Hsleeps & Hfail & Hsettled).
  split; [exact Hcalls|].
  split; [intros Hpos; now apply Hsome, iterations_pos|].
  split; [exact Hsleeps|].
  split; [|split; [exact Hfail|split]].
  - unfold total_wait. rewrite Hsleeps, total_backoff by lia.
    change (Z.of_nat 1 - 1)%Z with 0%Z. now rewrite Z.pow_0_r, Z.mul_1_l.
  - destruct (settled _); [exact Hsettled|exact Hsettled|].
    destruct Hsettled as [Hzero Hnone]. split; [|exact Hnone].
    apply Qnot_le_lt. intros Hle.
    apply Qle_lteq in Hle as [Hpos|Hnull].
    + apply iterations_pos in Hpos. lia.
    + symmetry in Hnull. apply Qeq_bool_iff in Hnull.
      revert Hnull. unfold maxAttempts, number_or, retryAttempts.
      destruct (opt_retryAttempts options) as [x|]; [|discriminate].
      destruct (Qeq_bool x 0) eqn:E; [discriminate|congruence].
  - intros Hneg.
    rewrite (proj2 (iterations_bounds (maxAttempts options)) Hneg). reflexivity.
Qed.

End Runs.

(** Witness: the first call fails with 503, the second succeeds. *)
Lemma request_run_witness :
  let network := fun k : nat =>
    match k with
    | O => APIService.Err unavailable
    | _ => started "s1"
    end in
  exists r,
    APIService.request network APIService.no_options APIService.new_queue
      = APIService.Settles r /\
    (APIService.calls r <= 3)%nat /\
    ((0 < 3)%Q -> (1 <= APIService.calls r)%nat) /\
    APIService.sleeps r = backoff 1000 1 (APIService.calls r - 1) /\
    (total_wait r == 1000 * inject_Z (2 ^ Z.of_nat (APIService.calls r - 1) - 1))%Q /\
    retryable_failures network 0 (APIService.calls r - 1) /\
    match APIService.settled r with
    | APIService.Resolved response =>
        network (APIService.calls r - 1)%nat = APIService.Ok response
    | APIService.Rejected error =>
        network (APIService.calls r - 1)%nat = APIService.Err error /\
        (APIService.isRetryable error = false \/ APIService.calls r = 3%nat)
    | APIService.ResolvedUndefined => (3 < 0)%Q /\ APIService.calls r = 0%nat
    end /\
    ((3 < 0)%Q -> APIService.settled r = APIService.ResolvedUndefined).
Proof.
  intros network.
  apply (request_run network APIService.no_options APIService.new_queue).
  reflexivity.
Defined.

(** ** Opening the socket *)

Section SocketSetup.
Import APIService.
Local Open Scope Q_scope.
Variables (io : nat -> bool) (connects : bool).

Lemma next_delay_bounds (delay : Q) :
  100 <= delay /\ delay <= 2000 ->
  100 <= Qmin (delay * 1.5) 2000 /\ Qmin (delay * 1.5) 2000 <= 2000.
Proof.
  intros [Hlo Hhi]. split; [|apply Q.le_min_r].
  apply Q.min_glb; [lra|discriminate].
Qed.

Lemma checkSocketIO_spec :
  forall remaining attempts delay,
    (attempts + remaining = maxInitializationAttempts)%nat -> (0 < remaining)%nat ->
    100 <= delay /\ delay <= 2000 ->
    let s := checkSocketIO io connects remaining attempts delay in
    (attempts < initializationAttempts s <= maxInitializationAttempts)%nat /\
    length (waits s) = (initializationAttempts s - attempts)%nat /\
    Forall (fun d => 100 <= d /\ d <= 2000) (waits s) /\
    (forall k, (attempts < k < initializationAttempts s)%nat -> io k = false) /\
    setup_initialized s = io (initializationAttempts s) /\
    setup_socket s = io (initializationAttempts s) && connects /\
    (io (initializationAttempts s) = false ->
     initializationAttempts s = maxInitializationAttempts).
Proof.
  induction remaining as [|remaining IH]; intros attempts delay Hsum Hpos Hdelay; [lia|].
  cbn [checkSocketIO]. destruct (io (S attempts)) eqn:Hio.
  - cbn. rewrite Hio. unfold initializeWebSocket.
    repeat split; try lia; try discriminate;
      first [now repeat constructor | intros k Hk; lia | idtac].
  - destruct (Nat.leb_spec maxInitializationAttempts (S attempts)) as [Hlast|Hmore].
    + cbn. rewrite Hio.
      repeat split; try lia; try reflexivity;
        first [now repeat constructor | intros k Hk; lia | intros _; lia].
    + specialize (IH (S attempts) (Qmin (delay * 1.5) 2000)). cbn zeta in IH.
      destruct IH as (Hatt & Hlen & Hwaits & Hbefore & Hinit & Hsock & Hend);
        [lia|lia|now apply next_delay_bounds|].
      set (rest := checkSocketIO io connects remaining (S attempts)
                     (Qmin (delay * 1.5) 2000)) in *.
      cbn [initializationAttempts waits setup_initialized setup_socket length].
      split; [lia|]. split; [lia|]. split; [now constructor|].
      split; [|auto].
      intros k Hk. destruct (Nat.eq_dec k (S attempts)) as [->|Hne]; [exact Hio|].
      apply Hbefore. lia.
Qed.

(** Socket.IO is looked for at most 10 times after the constructor, with
    waits between 100 and 2000 ms; the polling stops at the first time it is
    defined, and only then is the service marked as initialized.  When it is
    already defined in the constructor the socket is opened at once, but the
    service is not marked as initialized. *)
Theorem deferredInitializeWebSocket_spec :
  let s := deferredInitializeWebSocket io connects in
  (initializationAttempts s <= maxInitializationAttempts)%nat /\
  length (waits s) = initializationAttempts s /\
  Forall (fun d => 100 <= d /\ d <= 2000) (waits s) /\
  (forall k, (k < initializationAttempts s)%nat -> io k = false) /\
  (setup_initialized s = true <->
   io 0%nat = false /\ io (initializationAttempts s) = true) /\
  (setup_socket s = true <->
   connects = true /\ io (initializationAttempts s) = true).
Proof.
  unfold deferredInitializeWebSocket. destruct (io 0%nat) eqn:H0.
  - cbn. rewrite H0. unfold initializeWebSocket.
    repeat split; try lia; try constructor; try tauto;
      first [intros k Hk; lia | intros [? ?]; discriminate | discriminate | idtac].
    all: intuition.
  - destruct (checkSocketIO_spec maxInitializationAttempts 0 100)
      as (Hatt & Hlen & Hwaits & Hbefore & Hinit & Hsock & Hend);
      [reflexivity|unfold maxInitializationAttempts; lia|split; discriminate|].
    set (s := checkSocketIO io connects maxInitializationAttempts 0 100) in *.
    split; [lia|]. split; [lia|]. split; [exact Hwaits|]. split.
    + intros [|k] Hk; [exact H0|]. apply Hbefore. lia.
    + rewrite Hinit, Hsock. split; [tauto|].
      rewrite andb_true_iff. tauto.
Qed.

Lemma untracked_service_step (w : AppContainer.World) (e : AppContainer.Event) :
  isWebSocketInitialized (AppContainer.api w) = false ->
  analysisCallbacks (AppContainer.api w) = ∅ ->
  AppContainer.api (AppContainer.step w e) = AppContainer.api w.
Proof.
  intros Hflag Hempty.
  assert (Hterminal : forall sid, on_terminal_event (AppContainer.api w) sid
                                  = AppContainer.api w).
  { intros sid. unfold on_terminal_event. now rewrite Hempty, lookup_empty. }
  assert (Hfirst : forall response, on_first_response (AppContainer.api w) response true
                                    = AppContainer.api w).
  { intros response. unfold on_first_response. now rewrite Hflag, andb_false_r. }
  destruct e as [text|call reply|id|data|data|data| |]; cbn [AppContainer.step].
  - unfold AppContainer.handleAnalyze, AppContainer.handleAnalyze_begin,
      AppContainer.start_failed, AppContainer.finish, AppContainer.set_app,
      AppContainer.clearAnalysisTimeout.
    destruct (AppContainer.analysisTimeoutId (AppContainer.app w));
      destruct (JS.truthy text && JS.truthy (JS.trim text)); reflexivity.
  - destruct (AppContainer.inflight w !! call) as [seen|]; [|reflexivity].
    unfold AppContainer.handleAnalyze_resume, AppContainer.start_failed,
      AppContainer.finish, AppContainer.set_app, AppContainer.clearAnalysisTimeout.
    destruct reply as [response|error].
    + cbn [AppContainer.api AppContainer.app]. rewrite Hfirst.
      destruct (session_id response) as [sid|]; [destruct (JS.truthy sid)|];
        destruct (AppContainer.cap_analysisTimeoutId seen); reflexivity.
    + destruct (AppContainer.cap_analysisTimeoutId seen); reflexivity.
  - destruct (AppContainer.timers w !! id) as [timer|]; [|reflexivity].
    unfold AppContainer.on_timeout.
    destruct (AppContainer.cap_isAnalyzing (AppContainer.callback timer)); reflexivity.
  - destruct (socket (AppContainer.api w)); [|reflexivity].
    destruct (progressCallbacks (AppContainer.api w) !! AppContainer.pd_session_id data)
      as [[]|]; reflexivity.
  - destruct (socket (AppContainer.api w)); [|reflexivity].
    rewrite Hterminal. unfold AppContainer.handleAnalysisComplete.
    destruct (AppContainer.listening _ _); [|reflexivity].
    unfold AppContainer.finish, AppContainer.set_app, AppContainer.clearAnalysisTimeout.
    cbn [AppContainer.app AppContainer.with_api].
    destruct (AppContainer.analysisTimeoutId (AppContainer.app w)); reflexivity.
  - destruct (socket (AppContainer.api w)); [|reflexivity].
    rewrite Hterminal. unfold AppContainer.handleAnalysisError.
    destruct (AppContainer.listening _ _); [|reflexivity].
    unfold AppContainer.finish, AppContainer.set_app, AppContainer.clearAnalysisTimeout.
    cbn [AppContainer.app AppContainer.with_api].
    destruct (AppContainer.analysisTimeoutId (AppContainer.app w)); reflexivity.
  - reflexivity.
  - unfold AppContainer.clearAnalysisTimeout, AppContainer.set_app.
    cbn [AppContainer.app]. 
    destruct (AppContainer.analysisTimeoutId (AppContainer.app w)); reflexivity.
Qed.

(** When Socket.IO is already defined at the time the service is built, the
    socket is opened but the service never counts as initialized, so no
    analysis of the page is ever tracked: whatever the user and the server
    do, the service stays as it was built, with empty registries
    ([analyzeContent] always takes the branch without progress tracking),
    and a progress event changes nothing on the page. *)
Theorem no_progress_tracking_when_defined_at_construction
        (events : list AppContainer.Event) :
  io 0%nat = true ->
  let service := construct io connects in
  let w := AppContainer.run
             (AppContainer.loaded (socket service) (isWebSocketInitialized service))
             events in
  socket service = connects /\
  AppContainer.api w = service /\
  progressCallbacks (AppContainer.api w) = ∅ /\
  analysisCallbacks (AppContainer.api w) = ∅ /\
  forall data, AppContainer.step w (AppContainer.AnalysisProgress data) = w.
Proof.
  intros H0 service w.
  assert (Hservice : service
            = {| socket := connects; isWebSocketInitialized := false;
                 progressCallbacks := ∅; analysisCallbacks := ∅ |}).
  { unfold service, construct, deferredInitializeWebSocket. now rewrite H0. }
  assert (Hapi : AppContainer.api w = service).
  { unfold w, AppContainer.run.
    assert (Hstart : AppContainer.api
              (AppContainer.loaded (socket service) (isWebSocketInitialized service))
            = service) by (rewrite Hservice; reflexivity).
    revert Hstart.
    generalize (AppContainer.loaded (socket service) (isWebSocketInitialized service)).
    induction events as [|e events IH]; intros w0 Hw0; cbn [foldl]; [exact Hw0|].
    apply IH. rewrite untracked_service_step; [exact Hw0| |];
      rewrite Hw0, Hservice; reflexivity. }
  split; [now rewrite Hservice|]. split; [exact Hapi|].
  split; [now rewrite Hapi, Hservice|]. split; [now rewrite Hapi, Hservice|].
  intros data. cbn [AppContainer.step]. rewrite Hapi, Hservice. cbn.
  rewrite lookup_empty. now destruct connects.
Qed.

End SocketSetup.

(** Witness: Socket.IO is there from the start; a text is submitted, the
    server starts session "s1" and reports progress. *)
Lemma no_progress_tracking_witness :
  let service := APIService.construct (defined_from 0) true in
  let w := AppContainer.run
             (AppContainer.loaded (APIService.socket service)
                (APIService.isWebSocketInitialized service))
             [AppContainer.Analyze "We argued again last night. What should I do?";
              AppContainer.FirstResponse 1 (started "s1")] in
  APIService.socket service = true /\
  AppContainer.api w = service /\
  APIService.progressCallbacks (AppContainer.api w) = ∅ /\
  APIService.analysisCallbacks (AppContainer.api w) = ∅ /\
  forall data, AppContainer.step w (AppContainer.AnalysisProgress data) = w.
Proof.
  apply (no_progress_tracking_when_defined_at_construction (defined_from 0) true).
  reflexivity.
Defined.

(** The waits of a polling that never finds Socket.IO. *)
Example waits_of_a_failed_polling :
  Forall2 Qeq
    (APIService.waits (APIService.deferredInitializeWebSocket never_defined true))
    [100; 150; 225; 337.5; 506.25; 759.375; 1139.0625; 1708.59375; 2000; 2000]%Q.
Proof.
  vm_compute. repeat constructor.
Qed.

(** ** The API key gate *)

Section ApiKey.
Import APIService AppContainer.

Lemma hasApiKey_after (c : Credentials) (config : option Config) :
  let c' := fst (getApiConfig c (ConfigOk config)) in
  hasApiKey c' = negb (blank (apiKey c')).
Proof.
  cbn. set (key := fst _). rewrite truthy_trim.
  destruct key; reflexivity.
Qed.

(** A key taken from the configuration is stored trimmed. *)
Lemma blank_trimEnd (s : string) : blank (JS.trimEnd s) = blank s.
Proof.
  unfold JS.trimEnd. now rewrite blank_rev, blank_trimStart, blank_rev.
Qed.

(** The start-up check always ends the loading state, and opens the gate
    exactly when the configuration arrived without error and without the
    10-second timeout and the key the service then holds (the trimmed key of
    the configuration if it has one, the previous key otherwise) has a
    character that is not white space. *)
Theorem checkApiKey_spec (c : Credentials) (s : Startup) :
  isInitializing (checkApiKey c s) = false /\
  (gate_hasApiKey (checkApiKey c s) = true <->
   exists config,
     s = ConfigArrives (ConfigOk config) /\
     blank (match config with
            | Some {| api_key := Some key |} => if JS.truthy key then key else apiKey c
            | _ => apiKey c
            end) = false).
Proof.
  destruct s as [[config|e]|]; cbn [checkApiKey getApiConfig isInitializing gate_hasApiKey].
  - split; [reflexivity|].
    pose proof (hasApiKey_after c config) as Hkey. cbn in Hkey. cbn [hasApiKey].
    rewrite Hkey, negb_true_iff. clear Hkey.
    assert (Hsame :
      blank (fst match config with
                 | Some cfg =>
                     match api_key cfg with
                     | Some key =>
                         if JS.truthy key
                         then (sanitizeApiKey key,
                               match cfg_provider cfg with
                               | Some p => if JS.truthy p then p else provider c
                               | None => provider c
                               end)
                         else (apiKey c, provider c)
                     | None => (apiKey c, provider c)
                     end
                 | None => (apiKey c, provider c)
                 end)
      = blank match config with
              | Some {| api_key := Some key |} => if JS.truthy key then key else apiKey c
              | _ => apiKey c
              end).
    { destruct config as [[[key|] prov]|]; cbn; try reflexivity.
      destruct (JS.truthy key) eqn:Hk; cbn; [|reflexivity].
      unfold sanitizeApiKey. rewrite Hk. unfold JS.trim.
      now rewrite blank_trimEnd, blank_trimStart. }
    rewrite Hsame. split.
    + intros H. exists config. auto.
    + intros (config' & [= <-] & H). exact H.
  - split; [reflexivity|]. split; [discriminate|].
    intros (config & Heq & _). discriminate Heq.
  - split; [reflexivity|]. split; [discriminate|].
    intros (config & Heq & _). discriminate Heq.
Qed.

End ApiKey.

(** ** Orchestrator: terminal events, progress and validation *)

Section TerminalEvents.
Import APIService AppContainer.

Lemma listening_tracked (w : World) (a : Service) (sid : string) :
  socket a = true -> currentSessionId (app w) = Some sid -> JS.truthy sid = true ->
  listening (with_api w a) sid = true.
Proof.
  intros Hs Hc Ht. unfold listening. cbn [with_api api app].
  now rewrite Hs, Hc, Ht, String.eqb_refl.
Qed.

Lemma terminal_event_unregisters (a : Service) (sid : string) :
  analysisCallbacks (on_terminal_event a sid) !! sid = None.
Proof.
  unfold on_terminal_event.
  destruct (analysisCallbacks a !! sid) eqn:E; cbn; [apply lookup_delete_eq|exact E].
Qed.

(** A completion event for the tracked session ends the analysis: the
    results of the event are shown, the progress is 100, the timeout of the
    state is disarmed and the completion callback of the session is gone. *)
Theorem completion_finishes_analysis (w : World) (data : CompleteData) :
  socket (api w) = true ->
  currentSessionId (app w) = Some (cd_session_id data) ->
  JS.truthy (cd_session_id data) = true ->
  let w' := step w (AnalysisComplete data) in
  analysisResults (app w') = Some (Payload (cd_results data)) /\
  isAnalyzing (app w') = false /\
  progress (app w') = 100%Z /\
  statusMessage (app w') = "Analysis complete!" /\
  analysisTimeoutId (app w') = None /\
  (forall id, analysisTimeoutId (app w) = Some id -> timers w' !! id = None) /\
  analysisCallbacks (api w') !! cd_session_id data = None.
Proof.
  intros Hs Hc Ht. cbn [step]. rewrite Hs. unfold handleAnalysisComplete.
  assert (Hs' : socket (on_terminal_event (api w) (cd_session_id data)) = true)
    by (unfold on_terminal_event; destruct (analysisCallbacks (api w) !! _); exact Hs).
  rewrite (listening_tracked w _ _ Hs' Hc Ht).
  cbn [with_api app]. unfold clearAnalysisTimeout, finish, set_app.
  destruct (analysisTimeoutId (app w)) as [id|] eqn:Hid; cbn;
    repeat split;
    first [apply terminal_event_unregisters
          | exact Hid
          | intros id' [= <-]; apply lookup_delete_eq
          | intros id' [=]].
Qed.

(** An error event for the tracked session ends the analysis with an error
    result that carries the message of the event, or a default one; the
    progress stays where it was. *)
Theorem error_finishes_analysis (w : World) (data : ErrorData) :
  socket (api w) = true ->
  currentSessionId (app w) = Some (ed_session_id data) ->
  JS.truthy (ed_session_id data) = true ->
  let w' := step w (AnalysisError data) in
  analysisResults (app w')
    = Some (ErrorResult
              (if JS.truthy (ed_error data) then ed_error data
               else "An unknown error occurred during analysis.")
              (ed_details data)) /\
  isAnalyzing (app w') = false /\
  progress (app w') = progress (app w) /\
  analysisTimeoutId (app w') = None /\
  (forall id, analysisTimeoutId (app w) = Some id -> timers w' !! id = None) /\
  analysisCallbacks (api w') !! ed_session_id data = None.
Proof.
  intros Hs Hc Ht. cbn [step]. rewrite Hs. unfold handleAnalysisError.
  assert (Hs' : socket (on_terminal_event (api w) (ed_session_id data)) = true)
    by (unfold on_terminal_event; destruct (analysisCallbacks (api w) !! _); exact Hs).
  rewrite (listening_tracked w _ _ Hs' Hc Ht).
  cbn [with_api app]. unfold clearAnalysisTimeout, finish, set_app, or_else.
  destruct (analysisTimeoutId (app w)) as [id|] eqn:Hid; cbn;
    repeat split;
    first [apply terminal_event_unregisters
          | exact Hid
          | intros id' [= <-]; apply lookup_delete_eq
          | intros id' [=]].
Qed.

(** A progress event never ends an analysis: it leaves the results, the
    isAnalyzing flag, the tracked session, the timers, the calls in flight
    and the registries alone.  It sets the progress and the status message,
    and does so exactly when a progress callback is registered for the
    session of the event, whether or not that session is the tracked one. *)
Theorem progress_never_terminates (w : World) (data : ProgressData) :
  let w' := step w (AnalysisProgress data) in
  analysisResults (app w') = analysisResults (app w) /\
  isAnalyzing (app w') = isAnalyzing (app w) /\
  currentSessionId (app w') = currentSessionId (app w) /\
  analysisTimeoutId (app w') = analysisTimeoutId (app w) /\
  timers w' = timers w /\ inflight w' = inflight w /\ api w' = api w /\
  (progress (app w'), statusMessage (app w')) =
    (if socket (api w) && bool_decide (is_Some
          (progressCallbacks (api w) !! pd_session_id data))
     then (pd_progress data,
           if JS.truthy (pd_message data) then pd_message data
           else "Analysis in progress...")
     else (progress (app w), statusMessage (app w))).
Proof.
  cbn [step]. destruct (socket (api w)); cbn [andb]; [|repeat split].
  destruct (progressCallbacks (api w) !! pd_session_id data) as [[]|] eqn:E.
  - rewrite bool_decide_eq_true_2 by eauto. repeat split.
  - rewrite bool_decide_eq_false_2 by (intros [? ?]; discriminate). repeat split.
Qed.

(** The text is validated before anything is sent: a blank text puts no
    call in flight and ends the submission at once with the error "No text
    provided for analysis"; any other text puts exactly one call in flight
    and leaves the analysis in progress at 0. *)
Theorem submission_validates_text (w : World) (text : string) :
  let w' := step w (Analyze text) in
  api w' = api w /\
  if blank text
  then inflight w' = inflight w /\
       isAnalyzing (app w') = false /\
       analysisResults (app w')
         = Some (ErrorResult "No text provided for analysis"
                             "APIError: No text provided for analysis")
  else inflight w'
         = <[next_call w := {| cap_isAnalyzing := isAnalyzing (app w);
                               cap_analysisTimeoutId := analysisTimeoutId (app w) |}]>
             (inflight w) /\
       isAnalyzing (app w') = true /\
       analysisResults (app w') = None /\
       progress (app w') = 0%Z /\
       currentSessionId (app w') = None.
Proof.
  cbn [step]. unfold handleAnalyze, handleAnalyze_begin.
  assert (Hv : JS.truthy text && JS.truthy (JS.trim text) = negb (blank text))
    by (rewrite truthy_trim; destruct text; reflexivity).
  rewrite Hv. unfold clearAnalysisTimeout, start_failed, finish, set_app.
  destruct (blank text), (analysisTimeoutId (app w)); cbn; repeat split.
Qed.

End TerminalEvents.

(** Witness: the completion of "s1" while "s1" is tracked. *)
Lemma completion_finishes_witness :
  let w' := AppContainer.step waiting_for_s1 (AppContainer.AnalysisComplete s1_done) in
  AppContainer.analysisResults (AppContainer.app w')
    = Some (AppContainer.Payload "{summary: done}") /\
  AppContainer.isAnalyzing (AppContainer.app w') = false /\
  AppContainer.progress (AppContainer.app w') = 100%Z /\
  AppContainer.statusMessage (AppContainer.app w') = "Analysis complete!" /\
  AppContainer.analysisTimeoutId (AppContainer.app w') = None /\
  (forall id, AppContainer.analysisTimeoutId (AppContainer.app waiting_for_s1) = Some id ->
              AppContainer.timers w' !! id = None) /\
  APIService.analysisCallbacks (AppContainer.api w') !! "s1" = None.
Proof.
  apply (completion_finishes_analysis waiting_for_s1 s1_done); reflexivity.
Defined.

(** Witness: the failure of "s1" while "s1" is tracked, without a message. *)
Lemma error_finishes_witness :
  let w' := AppContainer.step waiting_for_s1 (AppContainer.AnalysisError s1_failed) in
  AppContainer.analysisResults (AppContainer.app w')
    = Some (AppContainer.ErrorResult
              "An unknown error occurred during analysis." "model unavailable") /\
  AppContainer.isAnalyzing (AppContainer.app w') = false /\
  AppContainer.progress (AppContainer.app w')
    = AppContainer.progress (AppContainer.app waiting_for_s1) /\
  AppContainer.analysisTimeoutId (AppContainer.app w') = None /\
  (forall id, AppContainer.analysisTimeoutId (AppContainer.app waiting_for_s1) = Some id ->
              AppContainer.timers w' !! id = None) /\
  APIService.analysisCallbacks (AppContainer.api w') !! "s1" = None.
Proof.
  apply (error_finishes_analysis waiting_for_s1 s1_failed); reflexivity.
Defined.

Section Idempotence.
Import APIService AppContainer.

Lemma on_terminal_event_twice (a : Service) (sid : string) :
  on_terminal_event (on_terminal_event a sid) sid = on_terminal_event a sid.
Proof.
  unfold on_terminal_event at 1. now rewrite terminal_event_unregisters.
Qed.

Lemma on_terminal_event_socket (a : Service) (sid : string) :
  socket (on_terminal_event a sid) = socket a.
Proof.
  unfold on_terminal_event. now destruct (analysisCallbacks a !! sid).
Qed.

(** Delivering the same completion or error event a second time changes
    nothing more. *)
Theorem terminal_event_idempotent (w : World) (e : Event) (sid : string) :
  terminal_session e = Some sid ->
  step (step w e) e = step w e.
Proof.
  intros He.
  destruct w as [[res ia cs pr sm tid] [sock init pc ac] tm nt inf nc].
  destruct e as [| | | |data|data| |]; try discriminate He; clear He;
    destruct data;
    destruct sock; [|reflexivity| |reflexivity];
    unfold step, handleAnalysisComplete, handleAnalysisError, on_terminal_event,
      listening, clearAnalysisTimeout, finish, set_app, with_api;
    cbn -[JS.truthy String.eqb];
    match goal with
    | |- context [ac !! ?k] => destruct (ac !! k) eqn:Hac
    end; cbn -[JS.truthy String.eqb];
    destruct cs as [current|]; cbn -[JS.truthy String.eqb];
    try match goal with
        | |- context [JS.truthy current && ?b] =>
            destruct (JS.truthy current && b) eqn:Hcond
        end;
    destruct tid; cbn -[JS.truthy String.eqb];
    rewrite ?lookup_delete_eq, ?Hac; cbn -[JS.truthy String.eqb];
    rewrite ?Hcond; cbn -[JS.truthy String.eqb];
    rewrite ?delete_delete_eq; reflexivity.
Qed.

End Idempotence.

(** Witness: the completion of "s1" delivered twice. *)
Lemma terminal_event_idempotent_witness :
  AppContainer.step
    (AppContainer.step waiting_for_s1 (AppContainer.AnalysisComplete s1_done))
    (AppContainer.AnalysisComplete s1_done)
  = AppContainer.step waiting_for_s1 (AppContainer.AnalysisComplete s1_done).
Proof.
  apply (terminal_event_idempotent waiting_for_s1
           (AppContainer.AnalysisComplete s1_done) "s1").
  reflexivity.
Defined.

(** ** Orchestrator: invariants of the reachable states *)

Section Invariants.
Import APIService AppContainer.

Lemma timers_ok_ext (w w' : World) :
  timers w' = timers w -> next_timer w' = next_timer w ->
  (analysisTimeoutId (app w') = analysisTimeoutId (app w) \/
   analysisTimeoutId (app w') = None) ->
  timers_ok w -> timers_ok w'.
Proof.
  intros Ht Hn Hid [Htimers Hstate]. split.
  - intros id t. rewrite Ht, Hn. apply Htimers.
  - intros id Hsome. rewrite Hn. apply Hstate.
    destruct Hid as [<-|Hnone]; [exact Hsome|congruence].
Qed.

Lemma timers_ok_delete (w w' : World) (id : positive) :
  timers w' = delete id (timers w) -> next_timer w' = next_timer w ->
  (analysisTimeoutId (app w') = analysisTimeoutId (app w) \/
   analysisTimeoutId (app w') = None) ->
  timers_ok w -> timers_ok w'.
Proof.
  intros Ht Hn Hid [Htimers Hstate]. split.
  - intros id' t. rewrite Ht, Hn. intros [_ H]%lookup_delete_Some. now apply Htimers.
  - intros id' Hsome. rewrite Hn. apply Hstate.
    destruct Hid as [<-|Hnone]; [exact Hsome|congruence].
Qed.

Lemma timers_ok_clear (seen : option positive) (w : World) :
  timers_ok w -> timers_ok (clearAnalysisTimeout seen w).
Proof.
  destruct seen as [id|]; [|auto]. apply (timers_ok_delete w _ id); cbn; auto.
Qed.

Lemma timers_ok_finish (w : World) (results : Results) (done : bool) :
  timers_ok w -> timers_ok (finish w results done).
Proof. apply timers_ok_ext; cbn; auto. Qed.

Lemma timers_ok_begin (w : World) :
  timers_ok w -> timers_ok (fst (handleAnalyze_begin w)).
Proof.
  intros Hw. apply (timers_ok_clear (analysisTimeoutId (app w))) in Hw.
  unfold handleAnalyze_begin. cbn [fst].
  set (w0 := clearAnalysisTimeout _ w) in *. destruct Hw as [Htimers _]. split.
  - cbn. intros id t [[<- <-]|[Hne H]]%lookup_insert_Some.
    + split; [lia|reflexivity].
    + destruct (Htimers id t H). split; [lia|assumption].
  - cbn. intros id [= <-]. lia.
Qed.

Lemma inflight_ok_ext (w w' : World) :
  inflight w' = inflight w -> next_call w' = next_call w ->
  inflight_ok w -> inflight_ok w'.
Proof.
  intros Hi Hn Hw id c. rewrite Hi, Hn. apply Hw.
Qed.

Lemma inflight_clear (seen : option positive) (w : World) :
  inflight (clearAnalysisTimeout seen w) = inflight w /\
  next_call (clearAnalysisTimeout seen w) = next_call w /\
  api (clearAnalysisTimeout seen w) = api w.
Proof. destruct seen; cbn; auto. Qed.

Lemma registries_paired_terminal (a : Service) (sid : string) :
  registries_paired a -> registries_paired (on_terminal_event a sid).
Proof.
  intros Ha. unfold on_terminal_event.
  destruct (analysisCallbacks a !! sid) eqn:E; [|exact Ha].
  intros sid'. cbn. destruct (decide (sid = sid')) as [->|Hne].
  - now rewrite !lookup_delete_eq.
  - rewrite !lookup_delete_ne by exact Hne. apply Ha.
Qed.

Lemma registries_paired_first_response (a : Service) (response : Response) :
  registries_paired a -> registries_paired (on_first_response a response true).
Proof.
  intros Ha. unfold on_first_response, analyzeWithProgress_then.
  destruct (socket a && isWebSocketInitialized a); [|exact Ha].
  destruct (session_id response) as [sid|]; [|exact Ha].
  destruct (String.eqb _ _ && JS.truthy sid); [|exact Ha].
  intros sid'. cbn. destruct (decide (sid = sid')) as [->|Hne].
  - rewrite !lookup_insert_eq. split; discriminate.
  - rewrite !lookup_insert_ne by exact Hne. apply Ha.
Qed.

Lemma invariant_loaded (socket ready : bool) : invariant (loaded socket ready).
Proof.
  repeat split; cbn; try discriminate;
    intros *; rewrite ?lookup_empty; try discriminate; auto.
Qed.

(** Every event keeps the invariant. *)
Lemma invariant_step (w : World) (e : Event) : invariant w -> invariant (step w e).
Proof.
  intros (Ht & Hi & Hr). destruct e as [text|call reply|id|data|data|data| |]; cbn [step].
  - (* Analyze *)
    unfold handleAnalyze.
    pose proof (timers_ok_begin w Ht) as Ht'.
    assert (Hi' : inflight (fst (handleAnalyze_begin w)) = inflight w /\
                  next_call (fst (handleAnalyze_begin w)) = next_call w /\
                  api (fst (handleAnalyze_begin w)) = api w).
    { unfold handleAnalyze_begin. cbn.
      destruct (inflight_clear (analysisTimeoutId (app w)) w) as (-> & -> & ->). auto. }
    destruct (handleAnalyze_begin w) as [w0 seen]. cbn [fst] in *.
    destruct Hi' as (Hinf & Hnc & Hapi).
    destruct (JS.truthy text && JS.truthy (JS.trim text)).
    + split; [apply (timers_ok_ext w0); cbn; auto|]. split; [|unfold finish, set_app; cbn [api]; now rewrite Hapi].
      intros id c. cbn. rewrite Hinf, Hnc.
      intros [[<- _]|[_ H]]%lookup_insert_Some; [lia|]. specialize (Hi id c H). lia.
    + unfold start_failed.
      destruct (inflight_clear (cap_analysisTimeoutId seen) w0) as (Hinf' & Hnc' & Hapi').
      split; [apply timers_ok_finish, timers_ok_clear, Ht'|].
      split; [|unfold finish, set_app; cbn [api]; now rewrite Hapi', Hapi].
      apply (inflight_ok_ext w); unfold finish, set_app; cbn [inflight next_call];
        first [assumption | congruence].
  - (* FirstResponse *)
    destruct (inflight w !! call) as [seen|] eqn:Hcall; [|exact (conj Ht (conj Hi Hr))].
    set (w0 := {| app := app w; api := api w; timers := timers w;
                  next_timer := next_timer w; inflight := delete call (inflight w);
                  next_call := next_call w |}).
    assert (Ht0 : timers_ok w0) by (apply (timers_ok_ext w); cbn; auto).
    assert (Hi0 : inflight_ok w0)
      by (intros id c; cbn; intros [_ H]%lookup_delete_Some; now apply (Hi id c)).
    unfold handleAnalyze_resume. destruct reply as [response|error].
    + set (w1 := {| app := app w0; api := on_first_response (api w0) response true;
                    timers := timers w0; next_timer := next_timer w0;
                    inflight := inflight w0; next_call := next_call w0 |}).
      assert (Ht1 : timers_ok w1) by (apply (timers_ok_ext w0); cbn; auto).
      assert (Hi1 : inflight_ok w1) by (apply (inflight_ok_ext w0); cbn; auto).
      assert (Hr1 : registries_paired (api w1))
        by (cbn; now apply registries_paired_first_response).
      destruct (inflight_clear (cap_analysisTimeoutId seen) w1) as (Hinf & Hnc & Hapi).
      assert (Hsync : invariant (finish (clearAnalysisTimeout (cap_analysisTimeoutId seen) w1)
                                        (Initial response) (negb (resp_error response)))).
      { split; [apply timers_ok_finish, timers_ok_clear, Ht1|].
        split; [|unfold finish, set_app; cbn [api]; now rewrite Hapi].
        apply (inflight_ok_ext w1); unfold finish, set_app; cbn [inflight next_call];
        first [assumption | congruence]. }
      destruct (session_id response) as [sid|]; [|exact Hsync].
      destruct (JS.truthy sid); [|exact Hsync].
      split; [apply (timers_ok_ext w1); cbn; auto|].
      split; [apply (inflight_ok_ext w1); cbn; auto|exact Hr1].
    + unfold start_failed.
      destruct (inflight_clear (cap_analysisTimeoutId seen) w0) as (Hinf & Hnc & Hapi).
      split; [apply timers_ok_finish, timers_ok_clear, Ht0|].
      split; [|unfold finish, set_app; cbn [api]; now rewrite Hapi].
      apply (inflight_ok_ext w0); unfold finish, set_app; cbn [inflight next_call];
        first [assumption | congruence].
  - (* TimerFires *)
    destruct (timers w !! id) as [t|] eqn:Hid; [|exact (conj Ht (conj Hi Hr))].
    set (w0 := {| app := app w; api := api w; timers := delete id (timers w);
                  next_timer := next_timer w; inflight := inflight w;
                  next_call := next_call w |}).
    assert (Ht0 : timers_ok w0) by (apply (timers_ok_delete w _ id); cbn; auto).
    unfold on_timeout. destruct (cap_isAnalyzing (callback t)).
    + split; [apply timers_ok_finish, Ht0|]. split; [|exact Hr].
      apply (inflight_ok_ext w); cbn; auto.
    + split; [exact Ht0|]. split; [|exact Hr]. apply (inflight_ok_ext w); cbn; auto.
  - (* AnalysisProgress *)
    destruct (socket (api w)); [|exact (conj Ht (conj Hi Hr))].
    destruct (progressCallbacks (api w) !! pd_session_id data) as [[]|];
      [|exact (conj Ht (conj Hi Hr))].
    split; [apply (timers_ok_ext w); cbn; auto|].
    split; [apply (inflight_ok_ext w); cbn; auto|exact Hr].
  - (* AnalysisComplete *)
    destruct (socket (api w)); [|exact (conj Ht (conj Hi Hr))].
    set (w0 := with_api w (on_terminal_event (api w) (cd_session_id data))).
    assert (Ht0 : timers_ok w0) by (apply (timers_ok_ext w); cbn; auto).
    assert (Hr0 : registries_paired (api w0))
      by (cbn; now apply registries_paired_terminal).
    unfold handleAnalysisComplete. destruct (listening w0 _);
      [|split; [exact Ht0|split; [apply (inflight_ok_ext w); cbn; auto|exact Hr0]]].
    destruct (inflight_clear (analysisTimeoutId (app w0)) w0) as (Hinf & Hnc & Hapi).
    split; [apply timers_ok_finish, timers_ok_clear, Ht0|].
    split; [|unfold finish, set_app; cbn [api]; now rewrite Hapi].
    apply (inflight_ok_ext w); unfold finish, set_app; cbn [inflight next_call];
        first [assumption | congruence].
  - (* AnalysisError *)
    destruct (socket (api w)); [|exact (conj Ht (conj Hi Hr))].
    set (w0 := with_api w (on_terminal_event (api w) (ed_session_id data))).
    assert (Ht0 : timers_ok w0) by (apply (timers_ok_ext w); cbn; auto).
    assert (Hr0 : registries_paired (api w0))
      by (cbn; now apply registries_paired_terminal).
    unfold handleAnalysisError. destruct (listening w0 _);
      [|split; [exact Ht0|split; [apply (inflight_ok_ext w); cbn; auto|exact Hr0]]].
    destruct (inflight_clear (analysisTimeoutId (app w0)) w0) as (Hinf & Hnc & Hapi).
    split; [apply timers_ok_finish, timers_ok_clear, Ht0|].
    split; [|unfold finish, set_app; cbn [api]; now rewrite Hapi].
    apply (inflight_ok_ext w); unfold finish, set_app; cbn [inflight next_call];
        first [assumption | congruence].
  - (* SelectAnalysis *)
    split; [apply (timers_ok_ext w); cbn; auto|].
    split; [apply (inflight_ok_ext w); cbn; auto|exact Hr].
  - (* BackToMainMenu *)
    set (w0 := set_app w _).
    assert (Ht0 : timers_ok w0) by (apply (timers_ok_ext w); cbn; auto).
    destruct (inflight_clear (analysisTimeoutId (app w)) w0) as (Hinf & Hnc & Hapi).
    split; [apply timers_ok_clear, Ht0|]. split; [|now rewrite Hapi].
    apply (inflight_ok_ext w); unfold finish, set_app; cbn [inflight next_call];
        first [assumption | congruence].
Qed.

Lemma results_when_idle_step (w : World) (e : Event) :
  results_when_idle (app w) -> results_when_idle (app (step w e)).
Proof.
  unfold results_when_idle. intros Hw.
  destruct e as [text|call reply|id|data|data|data| |]; cbn [step].
  - unfold handleAnalyze, handleAnalyze_begin, start_failed, finish, set_app,
      clearAnalysisTimeout.
    destruct (analysisTimeoutId (app w));
      destruct (JS.truthy text && JS.truthy (JS.trim text)); cbn; auto.
  - destruct (inflight w !! call) as [seen|]; [|exact Hw].
    unfold handleAnalyze_resume, start_failed, finish, set_app, clearAnalysisTimeout.
    destruct reply as [response|error].
    + destruct (session_id response) as [sid|]; [destruct (JS.truthy sid)|];
        destruct (cap_analysisTimeoutId seen); cbn; auto.
    + destruct (cap_analysisTimeoutId seen); cbn; auto.
  - destruct (timers w !! id) as [timer|]; [|exact Hw].
    unfold on_timeout, finish, set_app.
    destruct (cap_isAnalyzing (callback timer)); cbn; auto.
  - destruct (socket (api w)); [|exact Hw].
    destruct (progressCallbacks (api w) !! pd_session_id data) as [[]|]; [|exact Hw].
    exact Hw.
  - destruct (socket (api w)); [|exact Hw].
    unfold handleAnalysisComplete.
    destruct (listening _ _); [|exact Hw].
    unfold finish, set_app. cbn. auto.
  - destruct (socket (api w)); [|exact Hw].
    unfold handleAnalysisError.
    destruct (listening _ _); [|exact Hw].
    unfold finish, set_app. cbn. auto.
  - cbn. auto.
  - unfold clearAnalysisTimeout, set_app. cbn [app analysisTimeoutId].
    destruct (analysisTimeoutId (app w)); cbn; auto.
Qed.

Lemma sessions_named_terminal (a : Service) (sid : string) :
  sessions_named a -> sessions_named (on_terminal_event a sid).
Proof.
  unfold sessions_named, on_terminal_event. intros Ha sid' Hsome.
  destruct (analysisCallbacks a !! sid); [|now apply Ha].
  cbn in Hsome. apply Ha. destruct Hsome as [c Hc].
  apply lookup_delete_Some in Hc as [_ Hc]. eauto.
Qed.

Lemma sessions_named_first_response (a : Service) (response : Response) :
  sessions_named a -> sessions_named (on_first_response a response true).
Proof.
  unfold sessions_named, on_first_response, analyzeWithProgress_then.
  intros Ha sid' Hsome.
  destruct (socket a && isWebSocketInitialized a); [|now apply Ha].
  destruct (session_id response) as [sid|]; [|now apply Ha].
  destruct (String.eqb (resp_status response) "started" && JS.truthy sid) eqn:E;
    [|now apply Ha].
  cbn in Hsome. destruct Hsome as [c Hc].
  apply lookup_insert_Some in Hc as [[<- _]|[_ Hc]]; [|apply Ha; eauto].
  now apply andb_prop in E as [_ E].
Qed.

Lemma sessions_named_step (w : World) (e : Event) :
  sessions_named (api w) -> sessions_named (api (step w e)).
Proof.
  intros Hw.
  destruct e as [text|call reply|id|data|data|data| |]; cbn [step].
  - unfold handleAnalyze, handleAnalyze_begin, start_failed, finish, set_app,
      clearAnalysisTimeout.
    destruct (analysisTimeoutId (app w));
      destruct (JS.truthy text && JS.truthy (JS.trim text)); exact Hw.
  - destruct (inflight w !! call) as [seen|]; [|exact Hw].
    unfold handleAnalyze_resume, start_failed, finish, set_app, clearAnalysisTimeout.
    destruct reply as [response|error].
    + pose proof (sessions_named_first_response _ response Hw) as Hfirst.
      destruct (session_id response) as [sid|]; [destruct (JS.truthy sid)|];
        destruct (cap_analysisTimeoutId seen); exact Hfirst.
    + destruct (cap_analysisTimeoutId seen); exact Hw.
  - destruct (timers w !! id) as [timer|]; [|exact Hw].
    unfold on_timeout. destruct (cap_isAnalyzing (callback timer)); exact Hw.
  - destruct (socket (api w)); [|exact Hw].
    destruct (progressCallbacks (api w) !! pd_session_id data) as [[]|]; exact Hw.
  - destruct (socket (api w)); [|exact Hw].
    pose proof (sessions_named_terminal _ (cd_session_id data) Hw) as Hterminal.
    unfold handleAnalysisComplete.
    destruct (listening _ _); [|exact Hterminal].
    unfold finish, set_app, clearAnalysisTimeout. cbn [app with_api].
    destruct (analysisTimeoutId (app w)); exact Hterminal.
  - destruct (socket (api w)); [|exact Hw].
    pose proof (sessions_named_terminal _ (ed_session_id data) Hw) as Hterminal.
    unfold handleAnalysisError.
    destruct (listening _ _); [|exact Hterminal].
    unfold finish, set_app, clearAnalysisTimeout. cbn [app with_api].
    destruct (analysisTimeoutId (app w)); exact Hterminal.
  - exact Hw.
  - unfold clearAnalysisTimeout, set_app. cbn [app].
    destruct (analysisTimeoutId (app w)); exact Hw.
Qed.

(** In every state the page can reach from its loaded state, whatever the
    user and the server do and in whatever order: a result or an error is on
    display only while no analysis is marked as running; a session has a
    progress callback exactly when it has a completion callback (they are
    registered together and removed together); and callbacks are registered
    under non-empty session ids only. *)
Theorem reachable_states_consistent (socket ready : bool) (events : list Event) :
  let w := run (loaded socket ready) events in
  results_when_idle (app w) /\
  registries_paired (api w) /\
  sessions_named (api w).
Proof.
  intros w.
  assert (H : results_when_idle (app w) /\ invariant w /\ sessions_named (api w)).
  { unfold w, run.
    assert (Hstart : results_when_idle (app (loaded socket ready)) /\
                     invariant (loaded socket ready) /\
                     sessions_named (api (loaded socket ready))).
    { split; [now left|]. split; [apply invariant_loaded|].
      intros sid [c Hc]. cbn in Hc. now rewrite lookup_empty in Hc. }
    revert Hstart. generalize (loaded socket ready).
    induction events as [|e events IH]; intros w0 Hw0; cbn [foldl]; [exact Hw0|].
    apply IH. destruct Hw0 as (Hidle & Hinv & Hnamed).
    split; [now apply results_when_idle_step|].
    split; [now apply invariant_step|now apply sessions_named_step]. }
  destruct H as (Hidle & (_ & _ & Hpaired) & Hnamed). auto.
Qed.

(** The ids of the model are fresh: the timer and the call a submission
    creates are new. *)
Lemma next_ids_are_fresh (socket ready : bool) (events : list Event) :
  let w := run (loaded socket ready) events in
  invariant w /\
  timers w !! next_timer w = None /\
  inflight w !! next_call w = None.
Proof.
  intros w.
  assert (Hinv : invariant w).
  { unfold w, run.
    generalize (invariant_loaded socket ready). generalize (loaded socket ready).
    induction events as [|e events IH]; intros w0 Hw0; cbn; [exact Hw0|].
    apply IH. now apply invariant_step. }
  split; [exact Hinv|]. destruct Hinv as ((Htimers & _) & Hinflight & _). split.
  - destruct (timers w !! next_timer w) as [t|] eqn:E; [|reflexivity].
    destruct (Htimers _ _ E). lia.
  - destruct (inflight w !! next_call w) as [c|] eqn:E; [|reflexivity].
    specialize (Hinflight _ _ E). lia.
Qed.

End Invariants.

Section SynchronousResult.
Import APIService AppContainer.

(** When the first response carries no session id it is shown as the result
    and the analysis is over, but the timeout armed by the submission stays
    armed: [handleAnalyze] clears the timeout id its render saw, not the one
    it has just set.  When that timer fires, its callback does nothing if
    the submission was made while no analysis was running, and replaces the
    result by the timeout error if it was made during one. *)
Theorem synchronous_result_keeps_timer
        (w : World) (text : string) (response : Response) :
  timers_ok w -> blank text = false -> session_id response = None ->
  let w2 := run w [Analyze text; FirstResponse (next_call w) (Ok response)] in
  let w3 := step w2 (TimerFires (next_timer w)) in
  analysisResults (app w2) = Some (Initial response) /\
  isAnalyzing (app w2) = false /\
  timers w2 !! next_timer w
    = Some {| delay := 150000;
              callback := {| cap_isAnalyzing := isAnalyzing (app w);
                             cap_analysisTimeoutId := analysisTimeoutId (app w) |} |} /\
  (if isAnalyzing (app w)
   then analysisResults (app w3) = Some timeout_error
   else app w3 = app w2).
Proof.
  intros [_ Hstate] Hblank Hsid w2 w3.
  assert (Hv : JS.truthy text && JS.truthy (JS.trim text) = true)
    by (rewrite truthy_trim, Hblank; destruct text; [discriminate Hblank|reflexivity]).
  assert (Harmed : timers w2 !! next_timer w
            = Some {| delay := 150000;
                      callback := {| cap_isAnalyzing := isAnalyzing (app w);
                                     cap_analysisTimeoutId := analysisTimeoutId (app w) |} |}).
  { unfold w2, run. cbn [foldl step]. unfold handleAnalyze, handleAnalyze_begin.
    rewrite Hv. unfold clearAnalysisTimeout.
    destruct (analysisTimeoutId (app w)) as [old|] eqn:Hold;
      cbn [inflight next_call app api timers next_timer];
      rewrite lookup_insert_eq; unfold handleAnalyze_resume;
      cbn [app api timers next_timer inflight next_call];
      rewrite Hsid; unfold clearAnalysisTimeout, finish, set_app;
      cbn [cap_analysisTimeoutId timers app api next_timer inflight next_call].
    - pose proof (Hstate old eq_refl).
      rewrite lookup_delete_ne by lia. apply lookup_insert_eq.
    - apply lookup_insert_eq. }
  assert (Hres : analysisResults (app w2) = Some (Initial response) /\
                 isAnalyzing (app w2) = false).
  { unfold w2, run. cbn [foldl step]. unfold handleAnalyze, handleAnalyze_begin.
    rewrite Hv. unfold clearAnalysisTimeout.
    destruct (analysisTimeoutId (app w));
      cbn [inflight next_call app api timers next_timer];
      rewrite lookup_insert_eq; unfold handleAnalyze_resume;
      cbn [app api timers next_timer inflight next_call];
      rewrite Hsid; unfold clearAnalysisTimeout, finish, set_app; cbn; auto. }
  split; [apply Hres|]. split; [apply Hres|]. split; [exact Harmed|].
  unfold w3. cbn [step]. rewrite Harmed. unfold on_timeout. cbn [callback cap_isAnalyzing].
  destruct (isAnalyzing (app w)); reflexivity.
Qed.

End SynchronousResult.

(** Witness: an immediate result on the freshly loaded page, without socket. *)
Lemma synchronous_result_witness :
  let w := AppContainer.loaded false false in
  let w2 := AppContainer.run w
              [AppContainer.Analyze "Is this a fair summary?";
               AppContainer.FirstResponse (AppContainer.next_call w)
                 (APIService.Ok immediate)] in
  let w3 := AppContainer.step w2 (AppContainer.TimerFires (AppContainer.next_timer w)) in
  AppContainer.analysisResults (AppContainer.app w2)
    = Some (AppContainer.Initial immediate) /\
  AppContainer.isAnalyzing (AppContainer.app w2) = false /\
  AppContainer.timers w2 !! AppContainer.next_timer w
    = Some {| AppContainer.delay := 150000;
              AppContainer.callback :=
                {| AppContainer.cap_isAnalyzing :=
                     AppContainer.isAnalyzing (AppContainer.app w);
                   AppContainer.cap_analysisTimeoutId :=
                     AppContainer.analysisTimeoutId (AppContainer.app w) |} |} /\
  (if AppContainer.isAnalyzing (AppContainer.app w)
   then AppContainer.analysisResults (AppContainer.app w3) = Some timeout_error
   else AppContainer.app w3 = AppContainer.app w2).
Proof.
  intros w.
  apply (synchronous_result_keeps_timer w "Is this a fair summary?" immediate).
  - split; cbn; intros *; rewrite ?lookup_empty; discriminate.
  - reflexivity.
  - reflexivity.
Defined.

(** ** Classifier: normalisation *)

Section Normalisation.
Import ContentClassifier.

Lemma lower_char_idempotent (c : ascii) :
  JS.lower_char (JS.lower_char c) = JS.lower_char c.
Proof. destruct c as [[] [] [] [] [] [] [] []]; reflexivity. Qed.

Lemma is_space_lower_char (c : ascii) :
  JS.is_space (JS.lower_char c) = JS.is_space c.
Proof. destruct c as [[] [] [] [] [] [] [] []]; reflexivity. Qed.

Lemma toLowerCase_idempotent (s : string) :
  JS.toLowerCase (JS.toLowerCase s) = JS.toLowerCase s.
Proof.
  induction s as [|c s IH]; cbn; [reflexivity|].
  now rewrite lower_char_idempotent, IH.
Qed.

Lemma trimStart_toLowerCase (s : string) :
  JS.trimStart (JS.toLowerCase s) = JS.toLowerCase (JS.trimStart s).
Proof.
  induction s as [|c s IH]; cbn; [reflexivity|].
  rewrite is_space_lower_char. destruct (JS.is_space c); [exact IH|reflexivity].
Qed.

Lemma rev_append_toLowerCase (s acc : string) :
  JS.rev_append (JS.toLowerCase s) (JS.toLowerCase acc)
  = JS.toLowerCase (JS.rev_append s acc).
Proof.
  revert acc. induction s as [|c s IH]; intros acc; cbn; [reflexivity|].
  apply (IH (String c acc)).
Qed.

Lemma rev_toLowerCase (s : string) :
  JS.rev (JS.toLowerCase s) = JS.toLowerCase (JS.rev s).
Proof. apply (rev_append_toLowerCase s EmptyString). Qed.

Lemma trim_toLowerCase (s : string) :
  JS.trim (JS.toLowerCase s) = JS.toLowerCase (JS.trim s).
Proof.
  unfold JS.trim, JS.trimEnd.
  now rewrite trimStart_toLowerCase, rev_toLowerCase, trimStart_toLowerCase,
    rev_toLowerCase.
Qed.

Lemma collapse_toLowerCase (in_run : bool) (s : string) :
  JS.collapse_spaces in_run (JS.toLowerCase s)
  = JS.toLowerCase (JS.collapse_spaces in_run s).
Proof.
  revert in_run. induction s as [|c s IH]; intros in_run; cbn; [reflexivity|].
  rewrite is_space_lower_char.
  destruct (JS.is_space c), in_run; cbn; now rewrite IH.
Qed.

Lemma collapse_idempotent (in_run : bool) (s : string) :
  JS.collapse_spaces in_run (JS.collapse_spaces in_run s)
  = JS.collapse_spaces in_run s.
Proof.
  revert in_run. induction s as [|c s IH]; intros in_run; cbn; [reflexivity|].
  destruct (JS.is_space c) eqn:Hc.
  - destruct in_run; [apply IH|]. cbn. now rewrite IH.
  - cbn. now rewrite Hc, IH.
Qed.

Lemma rev_append_twice (s acc acc' : string) :
  JS.rev_append (JS.rev_append s acc) acc'
  = JS.rev_append acc (String.append s acc').
Proof.
  revert acc acc'. induction s as [|c s IH]; intros acc acc'; cbn; [reflexivity|].
  rewrite IH. reflexivity.
Qed.

Lemma append_empty (s : string) : String.append s EmptyString = s.
Proof.
  induction s as [|c s IH]; [reflexivity|].
  change (String c (String.append s EmptyString) = String c s). now rewrite IH.
Qed.

Lemma rev_involutive (s : string) : JS.rev (JS.rev s) = s.
Proof. unfold JS.rev. rewrite rev_append_twice. cbn. apply append_empty. Qed.

Lemma ends_solid_rev_append (s acc : string) :
  ends_solid (JS.rev_append s acc) =
  match acc with
  | EmptyString => starts_solid s
  | String _ _ => ends_solid acc
  end.
Proof.
  revert acc. induction s as [|c s IH]; intros acc; cbn.
  - now destruct acc.
  - rewrite IH. now destruct acc.
Qed.

Lemma starts_solid_rev_append (s acc : string) :
  starts_solid (JS.rev_append s acc) =
  match s with
  | EmptyString => starts_solid acc
  | String _ _ => ends_solid s
  end.
Proof.
  revert acc. induction s as [|c s IH]; intros acc; [reflexivity|].
  cbn [JS.rev_append]. rewrite IH. now destruct s.
Qed.

Lemma starts_solid_trimStart (s : string) : starts_solid (JS.trimStart s) = true.
Proof.
  induction s as [|c s IH]; cbn; [reflexivity|].
  destruct (JS.is_space c) eqn:Hc; [exact IH|]. cbn. now rewrite Hc.
Qed.

Lemma ends_solid_trimStart (s : string) :
  ends_solid s = true -> ends_solid (JS.trimStart s) = true.
Proof.
  induction s as [|c s IH]; [reflexivity|].
  cbn [JS.trimStart]. destruct (JS.is_space c) eqn:Hc; [|auto].
  intros H. apply IH. cbn in H. destruct s; [|exact H].
  now rewrite Hc in H.
Qed.

Lemma trimStart_solid (s : string) : starts_solid s = true -> JS.trimStart s = s.
Proof.
  destruct s as [|c s]; cbn; [reflexivity|]. now intros ->%negb_true_iff.
Qed.

Lemma trimEnd_solid (s : string) : ends_solid s = true -> JS.trimEnd s = s.
Proof.
  intros H. unfold JS.trimEnd. rewrite trimStart_solid; [apply rev_involutive|].
  unfold JS.rev. rewrite starts_solid_rev_append. now destruct s.
Qed.

(** A trimmed string starts and ends with a character that is not white
    space. *)
Lemma trim_solid (s : string) :
  starts_solid (JS.trim s) = true /\ ends_solid (JS.trim s) = true.
Proof.
  unfold JS.trim, JS.trimEnd, JS.rev. split.
  - rewrite starts_solid_rev_append.
    destruct (JS.trimStart (JS.rev_append (JS.trimStart s) EmptyString)) eqn:E;
      [reflexivity|].
    rewrite <- E. apply ends_solid_trimStart.
    rewrite ends_solid_rev_append. apply starts_solid_trimStart.
  - rewrite ends_solid_rev_append. apply starts_solid_trimStart.
Qed.

Lemma collapse_starts_solid (s : string) :
  starts_solid s = true -> starts_solid (JS.collapse_spaces false s) = true.
Proof.
  destruct s as [|c s]; cbn; [reflexivity|].
  intros Hc. apply negb_true_iff in Hc as Hc'. rewrite Hc'. exact Hc.
Qed.

Lemma collapse_ends_solid (in_run : bool) (s : string) :
  JS.truthy s && ends_solid s = true ->
  JS.truthy (JS.collapse_spaces in_run s)
  && ends_solid (JS.collapse_spaces in_run s) = true.
Proof.
  revert in_run. induction s as [|c s IH]; intros in_run; [discriminate|].
  intros H. cbn [JS.truthy andb] in H. cbn [JS.collapse_spaces].
  destruct s as [|d s].
  - cbn in H. apply negb_true_iff in H. rewrite H. cbn. now rewrite H.
  - assert (Hs : JS.truthy (String d s) && ends_solid (String d s) = true) by exact H.
    destruct (JS.is_space c).
    + destruct in_run; [now apply IH|].
      specialize (IH true Hs). destruct (JS.collapse_spaces true (String d s)) eqn:E;
        [discriminate IH|exact IH].
    + specialize (IH false Hs). destruct (JS.collapse_spaces false (String d s)) eqn:E;
        [discriminate IH|exact IH].
Qed.

Lemma trim_collapse_trim (s : string) :
  JS.trim (JS.collapse_spaces false (JS.trim s))
  = JS.collapse_spaces false (JS.trim s).
Proof.
  destruct (trim_solid s) as [Hstart Hend].
  set (t := JS.trim s) in *. unfold JS.trim at 1.
  rewrite (trimStart_solid _ (collapse_starts_solid t Hstart)).
  apply trimEnd_solid.
  destruct t as [|c t'] eqn:E; [reflexivity|].
  pose proof (collapse_ends_solid false (String c t')) as H.
  rewrite Hend in H. specialize (H eq_refl).
  now apply andb_true_iff in H as [_ H].
Qed.

(** Normalising twice is the same as normalising once. *)
Theorem normalizeText_idempotent (text : string) :
  normalizeText (normalizeText text) = normalizeText text.
Proof.
  unfold normalizeText.
  rewrite trim_toLowerCase, collapse_toLowerCase, toLowerCase_idempotent.
  now rewrite trim_collapse_trim, collapse_idempotent.
Qed.

(** The normalised text has no leading or trailing white space, no white
    space other than single blanks, and no upper-case letter. *)
Lemma normalizeText_shape (text : string) :
  JS.trim (normalizeText text) = normalizeText text /\
  JS.collapse_spaces false (normalizeText text) = normalizeText text /\
  JS.toLowerCase (normalizeText text) = normalizeText text.
Proof.
  unfold normalizeText. split; [|split].
  - now rewrite trim_toLowerCase, trim_collapse_trim.
  - now rewrite collapse_toLowerCase, collapse_idempotent.
  - apply toLowerCase_idempotent.
Qed.

End Normalisation.
